(** * The review scheduler of [app.py]: weights, intervals and selection

    A shallow embedding of the [ReviewSystem] class of [src/app.py] and of
    the request handlers that drive it, followed by the properties the
    specification states about it.

    Modelling conventions.
    - A Python [float] is an exact rational, or one of the three special
      values of IEEE 754 ([inf], [-inf], [nan]).  Arithmetic on rationals is
      exact: rounding and overflow of binary64 are outside the model, the
      behaviour of the special values and of comparisons with [nan] is
      inside it.  Python [int]s that meet floats ([1000], [1000000], [0])
      are the same rationals.
    - A [dict] keyed by strings is a [gmap string _]; the insertion-ordered
      [subject_mapping], whose loops stop at the first match, is an
      association list.
    - A method of [ReviewSystem] is a function in a state-and-exception
      monad over the fields of the object; an exception leaves the
      mutations made before it in place, as in Python.
    - What the process reads from its environment is passed in: the clock
      ([datetime.now()]), the directory tree under [data/], the outcome of
      the write to [weights.json], the seed of NumPy's generator. *)

From Stdlib Require Import QArith Qround Qabs Lqa Lia ZArith Ascii String.
From Stdlib Require DecimalString DecimalZ DecimalPos.
From stdpp Require Import gmap strings list fin_maps.

(** ** Python floats *)

Module PyFloat.

#[local] Open Scope Q_scope.

Inductive pyfloat : Type :=
| Finite (q : Q)
| PInf
| NInf
| NaN.

Definition of_Z (z : Z) : pyfloat := Finite (inject_Z z).

Definition isfinite (x : pyfloat) : bool :=
  match x with Finite _ => true | _ => false end.

Definition isnan (x : pyfloat) : bool :=
  match x with NaN => true | _ => false end.

Definition neg (x : pyfloat) : pyfloat :=
  match x with
  | Finite q => Finite (- q)
  | PInf => NInf
  | NInf => PInf
  | NaN => NaN
  end.

Definition add (x y : pyfloat) : pyfloat :=
  match x, y with
  | NaN, _ | _, NaN => NaN
  | Finite a, Finite b => Finite (a + b)
  | PInf, NInf | NInf, PInf => NaN
  | PInf, _ | _, PInf => PInf
  | NInf, _ | _, NInf => NInf
  end.

Definition sub (x y : pyfloat) : pyfloat := add x (neg y).

(** An infinity times [q]: by the sign of [q], and [nan] at zero. *)
Definition scale_inf (positive : bool) (q : Q) : pyfloat :=
  match 0 ?= q with
  | Eq => NaN
  | Lt => if positive then PInf else NInf
  | Gt => if positive then NInf else PInf
  end.

Definition mul (x y : pyfloat) : pyfloat :=
  match x, y with
  | NaN, _ | _, NaN => NaN
  | Finite a, Finite b => Finite (a * b)
  | PInf, Finite q | Finite q, PInf => scale_inf true q
  | NInf, Finite q | Finite q, NInf => scale_inf false q
  | PInf, PInf | NInf, NInf => PInf
  | PInf, NInf | NInf, PInf => NInf
  end.

Definition is_zero (x : pyfloat) : bool :=
  match x with Finite q => Qeq_bool q 0 | _ => false end.

(** IEEE quotient for a divisor that is not zero. *)
Definition quotient (x y : pyfloat) : pyfloat :=
  match x, y with
  | NaN, _ | _, NaN => NaN
  | Finite a, Finite b => Finite (a / b)
  | Finite _, (PInf | NInf) => Finite 0
  | (PInf | NInf), (PInf | NInf) => NaN
  | PInf, Finite q => if Qle_bool 0 q then PInf else NInf
  | NInf, Finite q => if Qle_bool 0 q then NInf else PInf
  end.

Definition abs (x : pyfloat) : pyfloat :=
  match x with
  | Finite q => Finite (Qabs q)
  | PInf | NInf => PInf
  | NaN => NaN
  end.

(** Comparisons; every comparison with [nan] is false. *)
Definition ltb (x y : pyfloat) : bool :=
  match x, y with
  | NaN, _ | _, NaN => false
  | Finite a, Finite b => negb (Qle_bool b a)
  | NInf, NInf | PInf, _ | _, NInf => false
  | NInf, _ | _, PInf => true
  end.

Definition eqb (x y : pyfloat) : bool :=
  match x, y with
  | Finite a, Finite b => Qeq_bool a b
  | PInf, PInf | NInf, NInf => true
  | _, _ => false
  end.

Definition leb (x y : pyfloat) : bool := ltb x y || eqb x y.

(** Python's two-argument [min] and [max] keep the first argument unless
    the second is strictly smaller (larger). *)
Definition py_min (a b : pyfloat) : pyfloat := if ltb b a then b else a.
Definition py_max (a b : pyfloat) : pyfloat := if ltb a b then b else a.

(** [sum(xs)]: a left fold of [+] from the integer [0]. *)
Definition py_sum (xs : list pyfloat) : pyfloat :=
  fold_left add xs (Finite 0).

End PyFloat.
Export PyFloat.
Arguments Finite q%_Q.

Declare Scope py_scope.
Delimit Scope py_scope with py.
Bind Scope py_scope with pyfloat.
Infix "+" := add : py_scope.
Infix "-" := sub : py_scope.
Infix "*" := mul : py_scope.
Infix "<?" := ltb : py_scope.
Infix "<=?" := leb : py_scope.
Infix "=?" := eqb : py_scope.

(** ** Exceptions *)

Inductive exn : Type :=
| ZeroDivisionError
| ValueError
| TypeError
| OverflowError
| IndexError
| KeyError
| OSError
| NotADirectoryError.

Inductive result (A : Type) : Type :=
| Ok (a : A)
| Raise (e : exn).
Arguments Ok {A} a.
Arguments Raise {A} e.

#[export] Instance result_ret : MRet result := fun A a => Ok a.
#[export] Instance result_bind : MBind result := fun A B f r =>
  match r with
  | Ok a => f a
  | Raise e => Raise e
  end.

(** Python's [/] on floats raises on a zero divisor.  (A NumPy scalar
    would give an infinity or [nan] instead; the properties of the
    priorities and of the two divisions below show that no division of the
    program meets a zero divisor.) *)
Definition py_div (x y : pyfloat) : result pyfloat :=
  if is_zero y then Raise ZeroDivisionError else Ok (quotient x y).

(** ** Time

    A naive [datetime] is its number of microseconds since [datetime.min]
    (0001-01-01T00:00:00), a [timedelta] a number of microseconds. *)

Definition datetime : Type := Z.
Definition timedelta : Type := Z.

Definition us_per_second : Z := 1000000.
Definition us_per_day : Z := (86400 * us_per_second)%Z.

(** [datetime.max] is 9999-12-31T23:59:59.999999, the last microsecond of
    day 3652059 of the proleptic Gregorian calendar. *)
Definition datetime_max : datetime := (3652059 * us_per_day - 1)%Z.

(** [round()]: to the nearest integer, ties to the even one. *)
Definition round_half_even (q : Q) : Z :=
  let f := Qfloor q in
  match (q - inject_Z f ?= 1 # 2)%Q with
  | Lt => f
  | Gt => (f + 1)%Z
  | Eq => if Z.even f then f else (f + 1)%Z
  end.

(** [timedelta(days=x)]: [x] days rounded to the microsecond; more than
    999999999 days in either direction, or an infinity, is an
    [OverflowError], a [nan] a [ValueError]. *)
Definition timedelta_days (x : pyfloat) : result timedelta :=
  match x with
  | Finite q =>
      let us := round_half_even (q * inject_Z us_per_day)%Q in
      if (999999999 <? Z.abs (us / us_per_day))%Z
      then Raise OverflowError else Ok us
  | PInf | NInf => Raise OverflowError
  | NaN => Raise ValueError
  end.

(** [t + delta] on a datetime: out of [datetime.min .. datetime.max] is an
    [OverflowError]. *)
Definition datetime_add (t : datetime) (delta : timedelta) : result datetime :=
  let r := (t + delta)%Z in
  if ((0 <=? r) && (r <=? datetime_max))%Z then Ok r else Raise OverflowError.

(** [(a - b).total_seconds()]. *)
Definition total_seconds (d : timedelta) : pyfloat :=
  Finite (inject_Z d / inject_Z us_per_second)%Q.

(** ** Strings

    A [string] is its sequence of characters; the helpers below are the
    [str] methods the program calls, exact on ASCII text. *)

(** [s.split('/', 1)] when ['/' in s]: the text before the first slash and
    the text after it; [None] when there is no slash. *)
Fixpoint split_once (s : string) : option (string * string) :=
  match s with
  | EmptyString => None
  | String c rest =>
      if Ascii.eqb c "/"%char then Some (EmptyString, rest)
      else match split_once rest with
           | Some (a, b) => Some (String c a, b)
           | None => None
           end
  end.

Definition startswith_S (s : string) : bool :=
  match s with
  | String c _ => Ascii.eqb c "S"%char
  | EmptyString => false
  end.

Definition lower_char (c : Ascii.ascii) : Ascii.ascii :=
  let n := Ascii.nat_of_ascii c in
  if (65 <=? n)%nat && (n <=? 90)%nat then Ascii.ascii_of_nat (n + 32) else c.

Fixpoint lower (s : string) : string :=
  match s with
  | EmptyString => EmptyString
  | String c rest => String (lower_char c) (lower rest)
  end.

Definition endswith (s suffix : string) : bool :=
  let n := String.length s in
  let k := String.length suffix in
  (k <=? n)%nat && String.eqb (String.substring (n - k) k s) suffix.

(** [file.lower().endswith(('.png', '.jpg', '.jpeg', '.gif', '.bmp'))]. *)
Definition is_image (file : string) : bool :=
  existsb (endswith (lower file)) [".png"; ".jpg"; ".jpeg"; ".gif"; ".bmp"]%string.

(** [f"{subject}/{file}"]. *)
Definition image_key_of (subject file : string) : string :=
  (subject ++ "/" ++ file)%string.

(** ** The environment: directory tree and weights file *)

(** An entry of [data/]: a plain file, or a directory with the names in it. *)
Inductive node : Type :=
| NFile
| NDir (entries : list string).

Definition tree : Type := list (string * node).

Fixpoint tree_lookup (t : tree) (name : string) : option node :=
  match t with
  | [] => None
  | (n, x) :: rest => if String.eqb n name then Some x else tree_lookup rest name
  end.

(** A value stored under a key of the JSON document: absent, [null],
    something that is not an object, or an object. *)
Inductive field (A : Type) : Type :=
| Absent
| Null
| NotAnObject
| Object (d : A).
Arguments Absent {A}.
Arguments Null {A}.
Arguments NotAnObject {A}.
Arguments Object {A} d.

(** The JSON object [save_weights] writes and [load_weights] reads.  Numbers
    are the floats of the model and a last-reviewed entry is [null] or a
    string; a document whose entries have other JSON types is outside the
    model.  So is one whose ["subject_mapping"] is [null] or not an
    object: line 204 takes that value as it is, and the first use of it as
    a dict raises. *)
Record document : Type := {
  doc_subject_mapping : list (string * string);
  doc_weights : field (gmap string pyfloat);
  doc_last_reviewed : field (gmap string (option string));
  doc_review_intervals : field (gmap string pyfloat)
}.

(** What [json.loads(f.read().strip())] makes of the text of the file.
    [json.loads] and [json.dump] are the library's: a text written by
    [json.dump data] is modelled by the value [data] it parses back to. *)
Inductive content : Type :=
| Blank                      (* empty once stripped *)
| Malformed                  (* [json.loads] raises [JSONDecodeError] *)
| NotADict                   (* valid JSON, but not an object *)
| Document (d : document).

Inductive file : Type :=
| Missing                    (* [os.path.exists] is false *)
| Unreadable                 (* exists, and [open] raises *)
| Holds (c : content).

(** How the write in [save_weights] goes. *)
Inductive write_outcome : Type :=
| Written                    (* [json.dump] completes *)
| Refused                    (* [os.makedirs] or [open] raises: file untouched *)
| Interrupted.               (* [open] truncated the file, [json.dump] raised *)

(** ** The state of the process *)

(** A value of [self.last_reviewed]. *)
Inductive stamp : Type :=
| Never                      (* [None] *)
| At (t : datetime)
| Unparsed (s : string).     (* a string [fromisoformat] rejected on load *)

(** Lines printed to standard output. *)
Inductive notice : Type :=
| FileEmpty
| FileNotADict
| FileMissing
| FileDecodeError
| FileLoadError
| BadDate (key value : string)
| SaveError.

(** The four fields of the [ReviewSystem] object, the file it persists to,
    and what it has printed. *)
Record state : Type := {
  weights : gmap string pyfloat;
  last_reviewed : gmap string stamp;
  review_intervals : gmap string pyfloat;
  subject_mapping : list (string * string);
  disk : file;
  stdout : list notice
}.

Definition set_weights (f : gmap string pyfloat → gmap string pyfloat) (s : state) : state :=
  {| weights := f (weights s); last_reviewed := last_reviewed s;
     review_intervals := review_intervals s; subject_mapping := subject_mapping s;
     disk := disk s; stdout := stdout s |}.

Definition set_last_reviewed (f : gmap string stamp → gmap string stamp) (s : state) : state :=
  {| weights := weights s; last_reviewed := f (last_reviewed s);
     review_intervals := review_intervals s; subject_mapping := subject_mapping s;
     disk := disk s; stdout := stdout s |}.

Definition set_review_intervals (f : gmap string pyfloat → gmap string pyfloat) (s : state) : state :=
  {| weights := weights s; last_reviewed := last_reviewed s;
     review_intervals := f (review_intervals s); subject_mapping := subject_mapping s;
     disk := disk s; stdout := stdout s |}.

Definition set_disk (d : file) (s : state) : state :=
  {| weights := weights s; last_reviewed := last_reviewed s;
     review_intervals := review_intervals s; subject_mapping := subject_mapping s;
     disk := d; stdout := stdout s |}.

Definition print (n : notice) (s : state) : state :=
  {| weights := weights s; last_reviewed := last_reviewed s;
     review_intervals := review_intervals s; subject_mapping := subject_mapping s;
     disk := disk s; stdout := stdout s ++ [n] |}.

(** The item state the specification speaks of: the three entries of one
    key, read with the defaults of the [dict.get] calls. *)
Definition item : Type := pyfloat * stamp * pyfloat.

Definition one : pyfloat := Finite 1.

Definition item_of (s : state) (key : string) : item :=
  (default one (weights s !! key),
   default Never (last_reviewed s !! key),
   default one (review_intervals s !! key)).

(** ** The monad of methods *)

Definition M (A : Type) : Type := state → result A * state.

#[export] Instance M_ret : MRet M := fun A a s => (Ok a, s).
#[export] Instance M_bind : MBind M := fun A B f m s =>
  match m s with
  | (Ok a, s') => f a s'
  | (Raise e, s') => (Raise e, s')
  end.

Definition gets {A} (f : state → A) : M A := fun s => (Ok (f s), s).
Definition modify (f : state → state) : M unit := fun s => (Ok tt, f s).
Definition raise {A} (e : exn) : M A := fun s => (Raise e, s).
Definition lift {A} (r : result A) : M A := fun s => (r, s).

(** [try: body except Exception: handler]. *)
Definition try_except {A} (body : M A) (handler : M A) : M A := fun s =>
  match body s with
  | (Ok a, s') => (Ok a, s')
  | (Raise _, s') => handler s'
  end.

(** [d[key]] on a dict: [KeyError] when the key is absent. *)
Definition getitem {A} (d : gmap string A) (key : string) : result A :=
  match d !! key with
  | Some v => Ok v
  | None => Raise KeyError
  end.

(** ** Library functions the program calls *)

(** [np.random.choice(n, size=size, replace=False, p=p)] accepts its
    arguments when [p] has [n] entries, none of them negative, summing to 1
    within [sqrt(eps) = 2^-26], and [size] is between 0 and the number of
    positive entries; otherwise it raises [ValueError]. *)
Definition atol : pyfloat := Finite (1 # 67108864).

Definition count_positive (p : list pyfloat) : nat :=
  length (List.filter (fun x => Finite 0 <? x)%py p).

Definition choice_acceptable (n : nat) (size : Z) (p : list pyfloat) : bool :=
  (length p =? n)%nat
  && ((0 <? n)%nat || (size =? 0)%Z)
  && negb (isnan (py_sum p))
  && forallb (fun x => negb (x <? Finite 0)%py) p
  && negb (atol <? abs (py_sum p - Finite 1))%py
  && (0 <=? size)%Z
  && (size <=? Z.of_nat n)%Z
  && (size <=? Z.of_nat (count_positive p))%Z.

(** What is known of the sample it returns: [size] distinct indices, each
    of positive probability.  The generator's state is the [seed]. *)
Definition choice_contract
    (random_choice : N → nat → Z → list pyfloat → result (list nat)) : Prop :=
  ∀ seed n size p,
    if choice_acceptable n size p
    then ∃ idx, random_choice seed n size p = Ok idx
                ∧ length idx = Z.to_nat size
                ∧ NoDup idx
                ∧ Forall (fun i => ∃ x, p !! i = Some x ∧ (Finite 0 <? x)%py = true) idx
    else random_choice seed n size p = Raise ValueError.

(** [datetime.fromisoformat] reads back what [datetime.isoformat] wrote. *)
Definition iso_contract
    (isoformat : datetime → string) (fromisoformat : string → option datetime) : Prop :=
  ∀ t, fromisoformat (isoformat t) = Some t.

(** One sampler meeting the contract: the first [size] indices of positive
    probability, whatever the seed. *)
Fixpoint positive_indices (i : nat) (p : list pyfloat) : list nat :=
  match p with
  | [] => []
  | x :: rest =>
      if (Finite 0 <? x)%py then i :: positive_indices (S i) rest
      else positive_indices (S i) rest
  end.

Definition first_fit_choice (seed : N) (n : nat) (size : Z) (p : list pyfloat)
    : result (list nat) :=
  if choice_acceptable n size p
  then Ok (take (Z.to_nat size) (positive_indices 0 p))
  else Raise ValueError.

(** One codec meeting the contract: the microsecond count in decimal. *)
Definition decimal_isoformat (t : datetime) : string :=
  DecimalString.NilZero.string_of_int (Z.to_int t).

Definition decimal_fromisoformat (s : string) : option datetime :=
  Z.of_int <$> DecimalString.NilZero.int_of_string s.

(** ** The methods of [ReviewSystem] *)

(** [np.exp(-0.1)]: the binary64 number [0x1.cf46d99d52b3ap-1], that is
    0.9048374180359595..., which the call evaluates to. *)
Definition decay_factor : pyfloat :=
  Finite (4075025458697629 # 4503599627370496).

(** [if key not in d: d[key] = v]. *)
Definition setdefault {A} (key : string) (v : A) (d : gmap string A) : gmap string A :=
  match d !! key with
  | Some _ => d
  | None => <[key := v]> d
  end.

(** The three guarded initialisations that open [update_weight] and form
    the body of the loop of [scan_subjects]. *)
Definition init_item (key : string) (s : state) : state :=
  set_review_intervals (setdefault key one)
    (set_last_reviewed (setdefault key Never)
       (set_weights (setdefault key one) s)).

(** [list.sort(key=key, reverse=True)]: descending, equal keys in their
    original order.  (With a [nan] among the keys the order CPython
    produces depends on its merge strategy; the result is a permutation
    either way.) *)
Fixpoint insert_desc (key : string → pyfloat) (x : string) (l : list string) : list string :=
  match l with
  | [] => [x]
  | y :: rest =>
      if (key x <? key y)%py then y :: insert_desc key x rest else x :: l
  end.

Definition sort_desc (key : string → pyfloat) (l : list string) : list string :=
  foldr (insert_desc key) [] l.

Definition label_is (familiarity : option string) (l : string) : bool :=
  match familiarity with
  | Some f => String.eqb f l
  | None => false
  end.

(** Truth value of an optional string: [None] and [""] are false. *)
Definition truthy (o : option string) : bool :=
  match o with
  | Some s => negb (String.eqb s "")
  | None => false
  end.

(** The loop [for encoded, original in subject_mapping.items()] that stops
    at the first [original == subject]. *)
Fixpoint find_encoded (mapping : list (string * string)) (subject : string) : option string :=
  match mapping with
  | [] => None
  | (encoded, original) :: rest =>
      if String.eqb original subject then Some encoded else find_encoded rest subject
  end.

(** The loop of [get_all_files_for_subject]: the directory name and the
    encoded name of a subject given by either. *)
Fixpoint resolve_subject (mapping : list (string * string)) (subject : string) : string * string :=
  match mapping with
  | [] => (subject, subject)
  | (encoded, original) :: rest =>
      if String.eqb original subject then (subject, encoded)
      else if String.eqb encoded subject then (original, subject)
      else resolve_subject rest subject
  end.

(** Lines 568-578 of [api_update_weight]. *)
Definition encode_key (mapping : list (string * string)) (image_key : string) : string :=
  match split_once image_key with
  | Some (subject, filename) =>
      if negb (startswith_S subject) || negb (String.length subject =? 4)%nat
      then match find_encoded mapping subject with
           | Some encoded => image_key_of encoded filename
           | None => image_key
           end
      else image_key
  | None => image_key
  end.

(** The body of a request to [/api/update_weight]: [image_key] and
    [familiarity] are strings or absent, [weight] a JSON number or absent. *)
Record request : Type := {
  req_image_key : option string;
  req_familiarity : option string;
  req_weight : option pyfloat
}.

Inductive response : Type :=
| Success                    (* 200, [{"status": "success"}] *)
| Incomplete.                (* 400, [{"status": "error", ...}] *)

Section Scheduler.

Variable isoformat : datetime → string.
Variable fromisoformat : string → option datetime.
Variable random_choice : N → nat → Z → list pyfloat → result (list nat).

(** *** [load_weights], lines 159-251 *)

(** The four assignments [self.weights = {}] ... [self.subject_mapping = {}]
    that every fallback branch performs. *)
Definition reset_store (s : state) : state :=
  {| weights := ∅; last_reviewed := ∅; review_intervals := ∅;
     subject_mapping := []; disk := disk s; stdout := stdout s |}.

(** [data.get(k, {}) if data.get(k) is not None else {}], followed by the
    [isinstance(_, dict)] check. *)
Definition object_or_empty {A} (f : field (gmap string A)) : gmap string A :=
  match f with
  | Object d => d
  | Absent | Null | NotAnObject => ∅
  end.

(** The loop over [self.last_reviewed.items()]: a string is replaced by the
    datetime it denotes, or kept when [fromisoformat] raises [ValueError]. *)
Definition parse_stamp (v : option string) : stamp :=
  match v with
  | None => Never
  | Some s =>
      match fromisoformat s with
      | Some t => At t
      | None => Unparsed s
      end
  end.

Definition bad_dates (m : gmap string (option string)) : list notice :=
  omap (fun kv : string * option string =>
          match kv.2 with
          | Some s =>
              match fromisoformat s with
              | Some _ => None
              | None => Some (BadDate kv.1 s)
              end
          | None => None
          end) (map_to_list m).

Definition load_document (d : document) (s : state) : state :=
  let stamps := object_or_empty (doc_last_reviewed d) in
  {| weights := object_or_empty (doc_weights d);
     last_reviewed := parse_stamp <$> stamps;
     review_intervals := object_or_empty (doc_review_intervals d);
     subject_mapping := doc_subject_mapping d;
     disk := disk s;
     stdout := stdout s ++ bad_dates stamps |}.

Definition load_weights : M unit :=
  f ← gets disk;
  match f with
  | Missing => modify reset_store;; modify (print FileMissing)
  | Unreadable => modify reset_store;; modify (print FileLoadError)
  | Holds Blank => modify (print FileEmpty);; modify reset_store
  | Holds Malformed => modify (print FileDecodeError);; modify reset_store
  | Holds NotADict => modify (print FileNotADict);; modify reset_store
  | Holds (Document d) => modify (load_document d)
  end.

(** *** [save_weights], lines 253-294 *)

Definition serialise_stamp (v : stamp) : option string :=
  match v with
  | Never => None
  | At t => Some (isoformat t)
  | Unparsed s => Some s
  end.

(** The dictionary [data].  The two [isinstance(value, (int, float))]
    filters keep every entry, all of them being floats here; a value of
    another type, which they would drop, is outside the model. *)
Definition serialise (s : state) : document :=
  {| doc_subject_mapping := subject_mapping s;
     doc_weights := Object (weights s);
     doc_last_reviewed := Object (serialise_stamp <$> last_reviewed s);
     doc_review_intervals := Object (review_intervals s) |}.

Definition save_weights (io : write_outcome) : M unit :=
  try_except
    (match io with
     | Written => modify (fun s => set_disk (Holds (Document (serialise s))) s)
     | Refused => raise OSError
     | Interrupted => modify (set_disk (Holds Malformed));; raise OSError
     end)
    (modify (print SaveError)).

(** *** [scan_subjects], lines 44-70 *)

Definition scanned_keys (t : tree) : list string :=
  concat (map (fun e : string * node =>
                 match e.2 with
                 | NDir entries => map (image_key_of e.1) entries
                 | NFile => []
                 end) t).

Definition scan_subjects (t : tree) (io : write_outcome) : M unit :=
  modify (fun s => fold_left (fun s key => init_item key s) (scanned_keys t) s);;
  save_weights io.

(** *** [get_images_for_subject], lines 315-336 *)

(** [os.listdir(path) if os.path.exists(path) else []]. *)
Definition entries_of (t : tree) (name : string) : result (list string) :=
  match tree_lookup t name with
  | None => Ok []
  | Some NFile => Raise NotADirectoryError
  | Some (NDir entries) => Ok entries
  end.

Definition listdir (t : tree) (name : string) : M (list string) :=
  lift (entries_of t name).

Definition get_images_for_subject (t : tree) (subject : string) : M (list string) :=
  files ← listdir t subject;
  let images := map (image_key_of subject) (List.filter is_image files) in
  w ← gets weights;
  mret (sort_desc (fun x => default one (w !! x)) images).

(** *** [get_all_files_for_subject], lines 338-370 *)

Definition get_all_files_for_subject (t : tree) (subject : string) : M (list string) :=
  mapping ← gets subject_mapping;
  let names := resolve_subject mapping subject in
  files ← listdir t names.1;
  w ← gets weights;
  mret (sort_desc (fun x => default one (w !! image_key_of names.2 x)) files).

(** *** [update_weight], lines 372-417 *)

Definition weight_at (key : string) : M pyfloat :=
  w ← gets weights; lift (getitem w key).

Definition interval_at (key : string) : M pyfloat :=
  w ← gets review_intervals; lift (getitem w key).

Definition update_weight (now : datetime) (io : write_outcome)
    (image_key : string) (familiarity : option string) : M unit :=
  modify (init_item image_key);;
  modify (set_last_reviewed <[image_key := At now]>);;
  (if label_is familiarity "familiar" then
     i ← interval_at image_key;
     modify (set_review_intervals <[image_key := py_min (Finite 30) (i * Finite 2)]>);;
     w ← weight_at image_key;
     modify (set_weights <[image_key := (w * decay_factor)%py]>)
   else if label_is familiarity "blur" then
     i ← interval_at image_key;
     modify (set_review_intervals <[image_key := py_max (Finite 1) (i * Finite 1.2)]>);;
     w ← weight_at image_key;
     modify (set_weights <[image_key := (w * Finite 0.95)%py]>)
   else if label_is familiarity "strange" then
     i ← interval_at image_key;
     modify (set_review_intervals <[image_key := py_max (Finite 0.1) (i * Finite 0.5)]>);;
     w ← weight_at image_key;
     modify (set_weights <[image_key := py_min (Finite 10) (w * Finite 1.5)]>)
   else
     w ← weight_at image_key;
     modify (set_weights <[image_key := (w * Finite 0.9)%py]>));;
  w ← weight_at image_key;
  modify (set_weights <[image_key := py_max (Finite 0.1) (py_min (Finite 10) w)]>);;
  save_weights io.

(** *** [select_images_for_review], lines 419-499 *)

(** Lines 448-464: the priority of one image before the finiteness check. *)
Definition raw_priority (now : datetime) (weight : pyfloat) (lr : stamp)
    (review_interval : pyfloat) : result pyfloat :=
  match lr with
  | Never => Ok (of_Z 1000000)
  | _ =>
      delta ← timedelta_days review_interval;
      next_review_time ← match lr with
                         | At t => datetime_add t delta
                         | _ => Raise TypeError
                         end;
      let time_until_review := total_seconds (next_review_time - now)%Z in
      if (time_until_review <=? Finite 0)%py
      then Ok (abs time_until_review + weight * of_Z 1000)%py
      else
        hours ← py_div time_until_review (of_Z 3600);
        let time_in_hours := py_max (Finite 0.1) hours in
        py_div (weight * of_Z 1000) time_in_hours
  end.

(** Lines 466-468. *)
Definition finite_or_one (priority : pyfloat) : pyfloat :=
  if isfinite priority then priority else Finite 1.

(** The body of the loop over [images], lines 441-470. *)
Definition priority_of (now : datetime) (img : string) : M pyfloat :=
  s ← gets id;
  let '(weight, lr, review_interval) := item_of s img in
  priority ← lift (raw_priority now weight lr review_interval);
  mret (finite_or_one priority).

(** [[1.0 / len(xs)] * len(xs)]. *)
Definition uniform (n : nat) : result (list pyfloat) :=
  u ← py_div (Finite 1) (of_Z (Z.of_nat n));
  mret (replicate n u).

(** Lines 473-478: the priorities divided by their sum, or the uniform
    distribution. *)
Definition divide_by_total (priorities : list pyfloat) : result (list pyfloat) :=
  let total_priority := py_sum priorities in
  if (Finite 0 <? total_priority)%py && isfinite total_priority
  then mapM (fun p => py_div p total_priority) priorities
  else uniform (length priorities).

(** Line 481. *)
Definition zero_unless_finite (p : pyfloat) : pyfloat :=
  if isfinite p then p else Finite 0.

(** Lines 481-489: non-finite entries zeroed, then the second division. *)
Definition renormalise (probabilities : list pyfloat) : result (list pyfloat) :=
  let probabilities := map zero_unless_finite probabilities in
  let prob_sum := py_sum probabilities in
  if (prob_sum =? Finite 0)%py
  then uniform (length probabilities)
  else mapM (fun p => py_div p prob_sum) probabilities.

Definition normalise (priorities : list pyfloat) : result (list pyfloat) :=
  probabilities ← divide_by_total priorities;
  renormalise probabilities.

(** [[images[i] for i in selected_indices]]. *)
Definition pick (images : list string) (indices : list nat) : result (list string) :=
  mapM (fun i => match images !! i with
                 | Some x => Ok x
                 | None => Raise IndexError
                 end) indices.

Definition select_images_for_review (now : datetime) (t : tree) (seed : N)
    (subject : string) (count : Z) : M (list string) :=
  images ← get_images_for_subject t subject;
  match images with
  | [] => mret []
  | _ =>
      priorities ← mapM (priority_of now) images;
      probabilities ← lift (normalise priorities);
      selected_indices ←
        lift (random_choice seed (length images)
                (Z.min count (Z.of_nat (length images))) probabilities);
      lift (pick images selected_indices)
  end.

(** *** [api_update_weight], lines 556-589 *)

Definition api_update_weight (now : datetime) (io : write_outcome) (req : request)
    : M response :=
  match req_image_key req with
  | Some image_key =>
      if negb (String.eqb image_key "")
         && (truthy (req_familiarity req) || bool_decide (is_Some (req_weight req)))
      then
        mapping ← gets subject_mapping;
        let image_key := encode_key mapping image_key in
        (if truthy (req_familiarity req)
         then update_weight now io image_key (req_familiarity req)
         else match req_weight req with
              | Some weight =>
                  modify (set_weights <[image_key := weight]>);;
                  save_weights io
              | None => mret tt
              end);;
        mret Success
      else mret Incomplete
  | None => mret Incomplete
  end.

(** *** [api_get_weights], lines 670-699; an exception is the handler's
    500 response. *)

Definition api_get_weights (t : tree) (subject_name : string)
    : M (list (string * pyfloat)) :=
  mapping ← gets subject_mapping;
  let encoded_subject_name := default subject_name (find_encoded mapping subject_name) in
  files ← get_all_files_for_subject t encoded_subject_name;
  w ← gets weights;
  mret (map (fun file => (file, default one (w !! image_key_of encoded_subject_name file))) files).

End Scheduler.

(** ** The specification's vocabulary *)

(** Numeric equality of floats ([nan] taken as equal to itself): the
    rationals [1/2] and [2/4] are the same float. *)
Definition same (x y : pyfloat) : Prop :=
  match x, y with
  | Finite a, Finite b => (a == b)%Q
  | PInf, PInf | NInf, NInf | NaN, NaN => True
  | _, _ => False
  end.

Definition in_range (lo hi x : pyfloat) : bool := (lo <=? x)%py && (x <=? hi)%py.

(** [y] is [x] clamped to [lo .. hi]. *)
Definition clamped (lo hi x y : pyfloat) : Prop :=
  in_range lo hi y = true
  ∧ (in_range lo hi x = true → same y x)
  ∧ ((x <? lo)%py = true → y = lo)
  ∧ ((hi <? x)%py = true → y = hi).

(** The update table of section 4.2, column by column. *)
Definition table_interval (familiarity : option string) (interval : pyfloat) : pyfloat :=
  if label_is familiarity "familiar" then py_min (Finite 30) (interval * Finite 2)
  else if label_is familiarity "blur" then py_max (Finite 1) (interval * Finite 1.2)
  else if label_is familiarity "strange" then py_max (Finite 0.1) (interval * Finite 0.5)
  else interval.

Definition table_weight (familiarity : option string) (weight : pyfloat) : pyfloat :=
  if label_is familiarity "familiar" then (weight * decay_factor)%py
  else if label_is familiarity "blur" then (weight * Finite 0.95)%py
  else if label_is familiarity "strange" then py_min (Finite 10) (weight * Finite 1.5)
  else (weight * Finite 0.9)%py.

Definition clamp_weight (weight : pyfloat) : pyfloat :=
  py_max (Finite 0.1) (py_min (Finite 10) weight).

(** The object after [recordFeedback(key, familiarity)] at time [now],
    according to the table. *)
Definition after_feedback (now : datetime) (key : string) (familiarity : option string)
    (s : state) : state :=
  let '(weight, _, interval) := item_of s key in
  {| weights := <[key := clamp_weight (table_weight familiarity weight)]> (weights s);
     last_reviewed := <[key := At now]> (last_reviewed s);
     review_intervals := <[key := table_interval familiarity interval]> (review_intervals s);
     subject_mapping := subject_mapping s;
     disk := disk s;
     stdout := stdout s |}.

(** The ranges of section 3, over the whole store. *)
Definition weights_in_range (s : state) : Prop :=
  map_Forall (fun _ w => in_range (Finite 0.1) (Finite 10) w = true) (weights s).

Definition intervals_at_least (s : state) : Prop :=
  map_Forall (fun _ i => (Finite 0.1 <=? i)%py = true) (review_intervals s).

Definition intervals_at_most (s : state) : Prop :=
  map_Forall (fun _ i => (i <=? Finite 30)%py = true) (review_intervals s).

(** One call of [update_weight], with what the environment supplies. *)
Record feedback_call : Type := {
  call_now : datetime;
  call_io : write_outcome;
  call_key : string;
  call_familiarity : option string
}.

Definition run_feedback (isoformat : datetime → string)
    (calls : list feedback_call) (s : state) : state :=
  fold_left (fun s c =>
               (update_weight isoformat (call_now c) (call_io c) (call_key c)
                  (call_familiarity c) s).2) calls s.

(** The priority of section 4.2, step 2, in the specification's words: a
    formula, with a value for every item.  A number of days is a duration
    of the clock, so a whole number of microseconds; an infinite or
    undefined interval gives an infinite or undefined time until due. *)
Definition days (interval : Q) : timedelta :=
  round_half_even (interval * inject_Z us_per_day).

Definition seconds_until_due (now last : datetime) (interval : pyfloat) : pyfloat :=
  match interval with
  | Finite q => total_seconds (last + days q - now)%Z
  | PInf => PInf
  | NInf => NInf
  | NaN => NaN
  end.

Definition spec_priority (now : datetime) (weight : pyfloat)
    (lastReviewed : option datetime) (interval : pyfloat) : pyfloat :=
  match lastReviewed with
  | None => of_Z 1000000
  | Some last =>
      let secondsUntilDue := seconds_until_due now last interval in
      if (secondsUntilDue <=? Finite 0)%py
      then (abs secondsUntilDue + weight * of_Z 1000)%py
      else
        let hoursUntilDue := py_max (Finite 0.1) (quotient secondsUntilDue (of_Z 3600)) in
        quotient (weight * of_Z 1000) hoursUntilDue
  end.

(** A due time [last + interval days] that Python can hold: the interval
    is a number of at most 999999999 days either way, and the sum lies
    between [datetime.min] and [datetime.max]. *)
Definition due_representable (last : datetime) (interval : pyfloat) : bool :=
  match interval with
  | Finite q =>
      (Z.abs (days q / us_per_day) <=? 999999999)%Z
      && (0 <=? last + days q)%Z && (last + days q <=? datetime_max)%Z
  | PInf | NInf | NaN => false
  end.


(** The sum of a list of rationals. *)
Definition Qtotal (l : list Q) : Q := foldr Qplus 0%Q l.


(** The keys of the images of a directory, in directory order. *)
Definition image_keys (subject : string) (entries : list string) : list string :=
  map (image_key_of subject) (List.filter is_image entries).

(** An item within the ranges of section 3 whose review time, when it has
    one, leaves room for thirty more days before [datetime.max]. *)
Definition review_time_ok (lr : stamp) : bool :=
  match lr with
  | Never => true
  | At t => ((0 <=? t) && (t <=? datetime_max - 30 * us_per_day))%Z
  | Unparsed _ => false
  end.

Definition healthy (it : item) : bool :=
  in_range (Finite 0.1) (Finite 10) it.1.1
  && review_time_ok it.1.2
  && in_range (Finite 0.1) (Finite 30) it.2.

(** An item the selection can take: a weight above zero and, once
    reviewed, a due time that Python can hold. *)
Definition samplable (it : item) : bool :=
  (Finite 0 <? it.1.1)%py
  && match it.1.2 with
     | Never => true
     | At t => due_representable t it.2
     | Unparsed _ => false
     end.

(** A last-reviewed entry that [load_weights] leaves as it is: anything
    but a string that [fromisoformat] would accept. *)
Definition settled (fromisoformat : string → option datetime) (v : stamp) : Prop :=
  ∀ text, v = Unparsed text → fromisoformat text = None.

(** A weights file [load_weights] cannot use. *)
Definition unusable : list file :=
  [Missing; Unreadable; Holds Blank; Holds Malformed; Holds NotADict].

(** The requests that reach the [ReviewSystem] object once it is built:
    [/review/<subject>], [/api/weights/<subject>], the two handlers that
    rescan the directory tree ([/api/create_subject], [/api/import_image])
    and [/api/update_weight]. *)
Inductive operation : Type :=
| Review (now : datetime) (t : tree) (seed : N) (subject : string) (count : Z)
| GetWeights (t : tree) (subject_name : string)
| Rescan (t : tree) (io : write_outcome)
| Feedback (now : datetime) (io : write_outcome) (req : request).

Inductive answer : Type :=
| Images (images : list string)
| Weights (table : list (string * pyfloat))
| Done
| Response (r : response).

Definition perform (isoformat : datetime → string)
    (random_choice : N → nat → Z → list pyfloat → result (list nat))
    (op : operation) : M answer :=
  match op with
  | Review now t seed subject count =>
      images ← select_images_for_review random_choice now t seed subject count;
      mret (Images images)
  | GetWeights t subject_name =>
      table ← api_get_weights t subject_name;
      mret (Weights table)
  | Rescan t io =>
      scan_subjects isoformat t io;;
      mret Done
  | Feedback now io req =>
      r ← api_update_weight isoformat now io req;
      mret (Response r)
  end.

(** The requests on which [api_update_weight] calls [update_weight]: the
    ones with an image key and a familiarity, both non-empty. *)
Definition records_feedback (op : operation) : bool :=
  match op with
  | Feedback _ _ req =>
      match req_image_key req with
      | Some image_key => negb (String.eqb image_key "") && truthy (req_familiarity req)
      | None => false
      end
  | _ => false
  end.

(** The requests that take the set-raw-weight branch, with the weight they
    carry. *)
Definition raw_weight_of (op : operation) : option pyfloat :=
  match op with
  | Feedback _ _ req =>
      match req_image_key req with
      | Some image_key =>
          if negb (String.eqb image_key "") && negb (truthy (req_familiarity req))
          then req_weight req else None
      | None => None
      end
  | _ => None
  end.

(** The store in memory once [api_update_weight] has handled a request, or
    [None] for a request it rejects as incomplete. *)
Definition memory_after_request (now : datetime) (req : request) (s : state) : option state :=
  match req_image_key req with
  | Some image_key =>
      if negb (String.eqb image_key "")
         && (truthy (req_familiarity req) || bool_decide (is_Some (req_weight req)))
      then
        let key := encode_key (subject_mapping s) image_key in
        if truthy (req_familiarity req)
        then Some (after_feedback now key (req_familiarity req) s)
        else (fun weight => set_weights <[key := weight]> s) <$> req_weight req
      else None
  | None => None
  end.

(** An entry that is what it was, or was absent and now holds the default. *)
Definition kept_or_created {A} (d : A) (before after : gmap string A) (key : string) : Prop :=
  after !! key = before !! key ∨ (before !! key = None ∧ after !! key = Some d).

(** The three entries of every key are what they were or freshly created
    with the defaults of section 3. *)
Definition items_kept (s s' : state) : Prop :=
  ∀ key,
    kept_or_created one (weights s) (weights s') key
    ∧ kept_or_created Never (last_reviewed s) (last_reviewed s') key
    ∧ kept_or_created one (review_intervals s) (review_intervals s') key.

(** A method that leaves the object as it found it, whether it returns or
    raises. *)
Definition readonly {A} (m : M A) : Prop := ∀ s, (m s).2 = s.

(** ** More of the program: names and codes *)

(** No ['/'] in the string. *)
Fixpoint no_slash (s : string) : bool :=
  match s with
  | EmptyString => true
  | String c rest => negb (Ascii.eqb c "/"%char) && no_slash rest
  end.

(** What line 573 of [api_update_weight] takes for a subject that is
    already a code: it starts with ['S'] and has four characters. *)
Definition looks_encoded (subject : string) : bool :=
  startswith_S subject && (String.length subject =? 4)%nat.


(** [d.get(key)] on an insertion-ordered dict. *)
Fixpoint dict_get {A} (d : list (string * A)) (key : string) : option A :=
  match d with
  | [] => None
  | (k, v) :: rest => if String.eqb k key then Some v else dict_get rest key
  end.

(** *** [decode_subject_name], lines 138-148, and [get_decoded_subjects],
    lines 150-157 *)

Definition decode_subject_name (encoded_name : string) : M string :=
  mapping ← gets subject_mapping;
  mret (default encoded_name (dict_get mapping encoded_name)).

Definition get_decoded_subjects : M (list string) :=
  mapping ← gets subject_mapping;
  mret (map snd mapping).

(** Heaviest first: no element of the list is followed, at any distance,
    by one whose [key] is strictly greater. *)
Fixpoint descending (key : string → pyfloat) (l : list string) : Prop :=
  match l with
  | [] => True
  | x :: rest => Forall (fun y => (key x <? key y)%py = false) rest ∧ descending key rest
  end.

(** A key with its three entries present. *)
Definition registered (s : state) (key : string) : Prop :=
  is_Some (weights s !! key) ∧ is_Some (last_reviewed s !! key)
  ∧ is_Some (review_intervals s !! key).

(** ** Sample data *)

Definition empty_state : state :=
  {| weights := ∅; last_reviewed := ∅; review_intervals := ∅;
     subject_mapping := []; disk := Missing; stdout := [] |}.

Definition raw_weight_request (key : string) (weight : pyfloat) : request :=
  {| req_image_key := Some key; req_familiarity := None; req_weight := Some weight |}.

Definition feedback_request (key familiarity : string) : request :=
  {| req_image_key := Some key; req_familiarity := Some familiarity; req_weight := None |}.

(** A data directory with one subject, and a store at the bounds of the
    ranges for two of its three images. *)
Definition sample_tree : tree :=
  [("S001", NDir ["a.png"; "b.JPG"; "notes.txt"; "c.gif"]); ("weights.json", NFile)]%string.

Definition sample_now : datetime := (738000 * us_per_day)%Z.

Definition sample_state : state :=
  {| weights := <["S001/a.png" := Finite 0.1]> {["S001/b.JPG" := Finite 10]};
     last_reviewed :=
       <["S001/a.png" := At (sample_now - 2 * us_per_day)%Z]> {["S001/b.JPG" := Never]};
     review_intervals := <["S001/a.png" := Finite 30]> {["S001/b.JPG" := Finite 0.1]};
     subject_mapping := [("S001", "maths")]%string;
     disk := Missing;
     stdout := [] |}.

Definition sample_call (familiarity : option string) : feedback_call :=
  {| call_now := sample_now; call_io := Written; call_key := "S001/a.png";
     call_familiarity := familiarity |}.

Definition sample_calls : list feedback_call :=
  [sample_call (Some "strange"); sample_call (Some "familiar");
   sample_call None; sample_call (Some "familiar")]%string.

(** Eighty-two "blur" answers in a row on a new image. *)
Definition blur_calls : list feedback_call :=
  replicate 82 {| call_now := sample_now; call_io := Written; call_key := "S001/c.gif";
                  call_familiarity := Some "blur"%string |}.

(** ** More of the program: start-up *)

From Stdlib Require DecimalNat.

Definition set_subject_mapping
    (f : list (string * string) → list (string * string)) (s : state) : state :=
  {| weights := weights s; last_reviewed := last_reviewed s;
     review_intervals := review_intervals s; subject_mapping := f (subject_mapping s);
     disk := disk s; stdout := stdout s |}.

(** [d[key] = v] on an insertion-ordered dict: a key already present
    keeps its place. *)
Fixpoint dict_set {A} (d : list (string * A)) (key : string) (v : A) : list (string * A) :=
  match d with
  | [] => [(key, v)]
  | (k, x) :: rest =>
      if String.eqb k key then (k, v) :: rest else (k, x) :: dict_set rest key v
  end.

(** [str.isdigit], exact on ASCII text. *)
Definition is_digit (c : Ascii.ascii) : bool :=
  (48 <=? Ascii.nat_of_ascii c)%nat && (Ascii.nat_of_ascii c <=? 57)%nat.

Fixpoint all_digits (s : string) : bool :=
  match s with
  | EmptyString => true
  | String c rest => is_digit c && all_digits rest
  end.

Definition isdigit (s : string) : bool := negb (String.eqb s "") && all_digits s.

(** [s[1:]]. *)
Definition tail (s : string) : string :=
  match s with
  | EmptyString => EmptyString
  | String _ rest => rest
  end.

(** The test of line 104: an ['S'], four characters, digits after the
    first. *)
Definition is_code (subject : string) : bool :=
  startswith_S subject && (String.length subject =? 4)%nat && isdigit (tail subject).

(** [f"{i:03d}"] from the decimal digits of [i]. *)
Definition zfill3 (digits : string) : string :=
  match String.length digits with
  | 0 => "000"
  | 1 => "00" ++ digits
  | 2 => "0" ++ digits
  | _ => digits
  end%string.

(** [f"S{i:03d}"]. *)
Definition code_of (i : nat) : string :=
  String "S" (zfill3 (DecimalString.NilZero.string_of_uint (Nat.to_uint i))).

(** The names of the directories of [data/], in listing order. *)
Definition directories (t : tree) : list string :=
  omap (fun e : string * node =>
          match e.2 with
          | NDir _ => Some e.1
          | NFile => None
          end) t.

(** What is known of [list(set(...))]: the distinct elements, in an order
    of the interpreter's choosing. *)
Definition set_contract (set_order : list string → list string) : Prop :=
  ∀ l, set_order l ≡ₚ remove_dups l.

(** [d.items()] for a dict whose keys are iterated in the given order. *)
Definition items_in {A} (order : list string) (d : gmap string A) : list (string * A) :=
  omap (fun key => (fun v => (key, v)) <$> d !! key) order.

(** An order of iteration of [d]: each key once. *)
Definition enumerates {A} (order : list string) (d : gmap string A) : Prop :=
  NoDup order ∧ ∀ key, key ∈ order ↔ is_Some (d !! key).

(** The loop [for i, subject in enumerate(subjects)] of
    [create_subject_mapping]. *)
Fixpoint assign_codes (i : nat) (subjects : list string) (mapping : list (string * string))
    : list (string * string) :=
  match subjects with
  | [] => mapping
  | subject :: rest => assign_codes (S i) rest (dict_set mapping (code_of i) subject)
  end.

(** The default item: what the [dict.get] calls read for an absent key. *)
Definition default_item : item := (one, Never, one).

(** A directory whose images all read as never reviewed, with the
    default weight and interval. *)
Definition unlearned (s : state) (subject : string) : Prop :=
  ∀ file, item_of s (image_key_of subject file) = default_item.

(** Every code of the mapping starts with ['S']. *)
Definition codes_start_with_S (mapping : list (string * string)) : Prop :=
  Forall (fun e : string * string => startswith_S e.1 = true) mapping.

(** A key without a subject part, or whose text starts with ['S']. *)
Definition encoded_key (key : string) : Prop :=
  split_once key = None ∨ startswith_S key = true.

Definition keys_encoded (s : state) : Prop :=
  ∀ key,
    is_Some (weights s !! key) ∨ is_Some (last_reviewed s !! key)
    ∨ is_Some (review_intervals s !! key) →
    encoded_key key.

(** A step that touches the mapping at most. *)
Definition mapping_only (s s' : state) : Prop :=
  weights s' = weights s ∧ last_reviewed s' = last_reviewed s
  ∧ review_intervals s' = review_intervals s ∧ disk s' = disk s ∧ stdout s' = stdout s.

(** An iteration order in which the raw key [subject/file] is met after
    the key [code/file], and in which every key with a subject part is
    one the loop has a code for already. *)
Definition raw_key_after_code (mapping : list (string * string)) (order : list string)
    (subject file code : string) : Prop :=
  ∃ before after,
    order = before ++ image_key_of subject file :: after
    ∧ (image_key_of subject file ∉ after)
    ∧ (image_key_of code file ∉ after)
    ∧ ∀ key sub f,
        key ∈ order → split_once key = Some (sub, f) →
        is_code sub = true ∨ is_Some (find_encoded mapping sub).

(** No code of the mapping has a ['/'] in it. *)
Definition codes_without_slash (mapping : list (string * string)) : Prop :=
  Forall (fun e : string * string => no_slash e.1 = true) mapping.

(** The insertion order of a dict once [scan_subjects] has run: the keys
    loaded from the file in the order of the file, then the keys the scan
    added, in the order it met them. *)
Definition startup_order (loaded : list string) (t : tree) : list string :=
  loaded ++ remove_dups (filter (fun key => key ∉ loaded) (scanned_keys t)).

(** A store as the program writes it: the subject part of every key is a
    code. *)
Definition keys_coded (s : state) : Prop :=
  ∀ key sub f,
    is_Some (weights s !! key) ∨ is_Some (last_reviewed s !! key)
    ∨ is_Some (review_intervals s !! key) →
    split_once key = Some (sub, f) → is_code sub = true.

Section Startup.

Variable isoformat : datetime → string.
Variable fromisoformat : string → option datetime.
Variable set_order : list string → list string.

(** *** [get_subjects], lines 296-313.  The listing of [data/] itself does
    not fail: the directory is created when the module is loaded. *)
Definition get_subjects (t : tree) : list string := set_order (directories t).

(** *** [update_weights_with_encoded_names], lines 88-136 *)

(** The local function [encode_subject_name]: it may add a code to
    [self.subject_mapping]. *)
Definition encode_subject_name (key : string) : M string :=
  match split_once key with
  | Some (subject, filename) =>
      if is_code subject then mret key
      else
        mapping ← gets subject_mapping;
        match find_encoded mapping subject with
        | Some encoded => mret (image_key_of encoded filename)
        | None =>
            let encoded_name := code_of (length mapping) in
            modify (set_subject_mapping (fun m => dict_set m encoded_name subject));;
            mret (image_key_of encoded_name filename)
        end
  | None => mret key
  end.

(** One of the three loops [for key, value in d.items(): new[encode(key)] = value]. *)
Fixpoint reencode {A} (items : list (string * A)) (new : gmap string A)
    : M (gmap string A) :=
  match items with
  | [] => mret new
  | (key, value) :: rest =>
      new_key ← encode_subject_name key;
      reencode rest (<[new_key := value]> new)
  end.

(** The three dicts are iterated in their insertion orders, which the
    store of the model does not record: they are arguments. *)
Definition update_weights_with_encoded_names (io : write_outcome)
    (order_w order_lr order_ri : list string) : M unit :=
  w ← gets weights;
  new_weights ← reencode (items_in order_w w) ∅;
  lr ← gets last_reviewed;
  new_last_reviewed ← reencode (items_in order_lr lr) ∅;
  ri ← gets review_intervals;
  new_review_intervals ← reencode (items_in order_ri ri) ∅;
  modify (set_weights (fun _ => new_weights));;
  modify (set_last_reviewed (fun _ => new_last_reviewed));;
  modify (set_review_intervals (fun _ => new_review_intervals));;
  save_weights isoformat io.

(** *** [create_subject_mapping], lines 72-86 *)

Definition create_subject_mapping (t : tree) (io : write_outcome)
    (order_w order_lr order_ri : list string) : M unit :=
  let subjects := get_subjects t in
  modify (set_subject_mapping (assign_codes 0 subjects));;
  update_weights_with_encoded_names io order_w order_lr order_ri.

(** *** [__init__], lines 26-42 *)

Definition init (t : tree) (io_scan io_encode : write_outcome)
    (order_w order_lr order_ri : list string) : M unit :=
  modify reset_store;;
  load_weights fromisoformat;;
  scan_subjects isoformat t io_scan;;
  create_subject_mapping t io_encode order_w order_lr order_ri.

End Startup.

(** The process after a sequence of requests. *)
Definition serve (isoformat : datetime → string)
    (random_choice : N → nat → Z → list pyfloat → result (list nat))
    (ops : list operation) (s : state) : state :=
  fold_left (fun s op => (perform isoformat random_choice op s).2) ops s.

(** ** More of the program: [api_statistics], lines 701-822 *)

(** One value of [subject_stats]. *)
Record subject_stat : Type := {
  file_count : nat;
  subject_total_weight : pyfloat;
  subject_average_weight : pyfloat;
  subject_pending_count : nat;
  subject_mastered_count : nat;
  subject_needs_review_count : nat;
  subject_strange_count : nat
}.

(** The local variables of the handler that the loops update. *)
Record counters : Type := {
  total_files : nat;
  total_weight : pyfloat;
  weight_count : nat;
  total_reviews : nat;
  pending_count : nat;
  mastered_count : nat;
  needs_review_count : nat;
  strange_count : nat;
  intervals : list pyfloat;
  subject_stats : list (string * subject_stat)
}.

(** The locals of the loop over the files of one subject: the four
    per-subject ones, and the three of the handler it updates. *)
Record file_loop : Type := {
  loop_subject_total_weight : pyfloat;
  loop_mastered : nat;
  loop_needs_review : nat;
  loop_strange : nat;
  loop_total_weight : pyfloat;
  loop_weight_count : nat;
  loop_intervals : list pyfloat
}.

(** The object under ["stats"] in the response. *)
Record statistics : Type := {
  stats_total_subjects : nat;
  stats_total_files : nat;
  stats_total_weight : pyfloat;
  stats_average_weight : pyfloat;
  stats_total_reviews : nat;
  stats_pending_count : nat;
  stats_mastered_count : nat;
  stats_needs_review_count : nat;
  stats_strange_count : nat;
  stats_average_interval : pyfloat;
  stats_max_interval : pyfloat;
  stats_min_interval : pyfloat;
  stats_subject_stats : list (string * subject_stat)
}.

Definition MASTERED_THRESHOLD : pyfloat := Finite 0.5.
Definition NEEDS_REVIEW_THRESHOLD : pyfloat := Finite 2.
Definition STRANGE_THRESHOLD : pyfloat := Finite 3.

(** The body of [for file in files], lines 744-770. *)
Definition count_file (s : state) (subject file : string) (l : file_loop) : file_loop :=
  let encoded_subject_name := default subject (find_encoded (subject_mapping s) subject) in
  let file_key := image_key_of encoded_subject_name file in
  let weight := default one (weights s !! file_key) in
  let mastered := (weight <? MASTERED_THRESHOLD)%py in
  let needs_review := negb mastered && (weight <? NEEDS_REVIEW_THRESHOLD)%py in
  let strange := negb mastered && negb needs_review in
  {| loop_subject_total_weight := (loop_subject_total_weight l + weight)%py;
     loop_mastered := if mastered then S (loop_mastered l) else loop_mastered l;
     loop_needs_review :=
       if needs_review then S (loop_needs_review l) else loop_needs_review l;
     loop_strange :=
       if strange
       then (if (weight <? STRANGE_THRESHOLD)%py
             then S (loop_strange l) else S (loop_strange l))
       else loop_strange l;
     loop_total_weight := (loop_total_weight l + weight)%py;
     loop_weight_count := S (loop_weight_count l);
     loop_intervals :=
       match review_intervals s !! file_key with
       | Some interval => loop_intervals l ++ [interval]
       | None => loop_intervals l
       end |}.

(** [x / n if n > 0 else 0]. *)
Definition average (x : pyfloat) (n : nat) : result pyfloat :=
  if (0 <? n)%nat then py_div x (of_Z (Z.of_nat n)) else Ok (Finite 0).

(** [max(xs)] and [min(xs)] on a list that is not empty. *)
Definition py_max_list (xs : list pyfloat) : pyfloat :=
  match xs with
  | [] => Finite 0
  | x :: rest => fold_left py_max rest x
  end.

Definition py_min_list (xs : list pyfloat) : pyfloat :=
  match xs with
  | [] => Finite 0
  | x :: rest => fold_left py_min rest x
  end.

(** The body of [for subject in subjects], lines 730-796. *)
Definition count_subject (t : tree) (c : counters) (subject : string) : M counters :=
  files ← get_all_files_for_subject t subject;
  s ← gets id;
  let l := fold_left (fun l file => count_file s subject file l) files
             {| loop_subject_total_weight := Finite 0;
                loop_mastered := 0; loop_needs_review := 0; loop_strange := 0;
                loop_total_weight := total_weight c;
                loop_weight_count := weight_count c;
                loop_intervals := intervals c |} in
  let subject_pending := 0%nat in
  decoded_subject_name ← decode_subject_name subject;
  average_weight ← lift (average (loop_subject_total_weight l) (length files));
  mret {| total_files := total_files c + length files;
          total_weight := loop_total_weight l;
          weight_count := loop_weight_count l;
          total_reviews :=
            total_reviews c + (loop_mastered l + loop_needs_review l + loop_strange l);
          pending_count := pending_count c + subject_pending;
          mastered_count := mastered_count c + loop_mastered l;
          needs_review_count := needs_review_count c + loop_needs_review l;
          strange_count := strange_count c + loop_strange l;
          intervals := loop_intervals l;
          subject_stats :=
            dict_set (subject_stats c) decoded_subject_name
              {| file_count := length files;
                 subject_total_weight := loop_subject_total_weight l;
                 subject_average_weight := average_weight;
                 subject_pending_count := subject_pending;
                 subject_mastered_count := loop_mastered l;
                 subject_needs_review_count := loop_needs_review l;
                 subject_strange_count := loop_strange l |} |}.

Fixpoint count_subjects (t : tree) (subjects : list string) (c : counters) : M counters :=
  match subjects with
  | [] => mret c
  | subject :: rest => c' ← count_subject t c subject; count_subjects t rest c'
  end.

(** The handler; an exception is its 500 response. *)
Definition api_statistics (set_order : list string → list string) (t : tree)
    : M (list string * statistics) :=
  let subjects := get_subjects set_order t in
  decoded_subjects ← get_decoded_subjects;
  c ← count_subjects t subjects
         {| total_files := 0; total_weight := Finite 0; weight_count := 0;
            total_reviews := 0; pending_count := 0; mastered_count := 0;
            needs_review_count := 0; strange_count := 0; intervals := [];
            subject_stats := [] |};
  global_average_weight ← lift (average (total_weight c) (weight_count c));
  average_interval ← lift (average (py_sum (intervals c)) (length (intervals c)));
  let max_interval := py_max_list (intervals c) in
  let min_interval := py_min_list (intervals c) in
  mret (decoded_subjects,
        {| stats_total_subjects := length subjects;
           stats_total_files := total_files c;
           stats_total_weight := total_weight c;
           stats_average_weight := global_average_weight;
           stats_total_reviews := total_reviews c;
           stats_pending_count := pending_count c;
           stats_mastered_count := mastered_count c;
           stats_needs_review_count := needs_review_count c;
           stats_strange_count := strange_count c;
           stats_average_interval := average_interval;
           stats_max_interval := max_interval;
           stats_min_interval := min_interval;
           stats_subject_stats := subject_stats c |}).

(** * Properties *)

(** ** Comparisons of floats *)

Lemma ltb_Finite a b : (Finite a <? Finite b)%py = true ↔ (a < b)%Q.
Proof.
  unfold ltb. rewrite negb_true_iff, <- not_true_iff_false, Qle_bool_iff.
  split; lra.
Qed.

Lemma ltb_Finite_false a b : (Finite a <? Finite b)%py = false ↔ (b <= a)%Q.
Proof. unfold ltb. by rewrite negb_false_iff, Qle_bool_iff. Qed.

Lemma eqb_Finite a b : (Finite a =? Finite b)%py = true ↔ (a == b)%Q.
Proof. apply Qeq_bool_iff. Qed.

Lemma leb_Finite a b : (Finite a <=? Finite b)%py = true ↔ (a <= b)%Q.
Proof.
  unfold leb. rewrite orb_true_iff, ltb_Finite, eqb_Finite.
  split; [intros []; lra|].
  intros H. destruct (Qlt_le_dec a b); [by left|right; lra].
Qed.

Lemma leb_Finite_false a b : (Finite a <=? Finite b)%py = false ↔ (b < a)%Q.
Proof.
  rewrite <- not_true_iff_false, leb_Finite. split; lra.
Qed.

(** Case analysis on the comparisons of a goal about floats, down to
    linear arithmetic over the rationals. *)
Ltac float_props :=
  repeat match goal with
  | H : (Finite _ <? Finite _)%py = true |- _ => apply ltb_Finite in H
  | H : (Finite _ <? Finite _)%py = false |- _ => apply ltb_Finite_false in H
  | H : (Finite _ <=? Finite _)%py = true |- _ => apply leb_Finite in H
  | H : (Finite _ <=? Finite _)%py = false |- _ => apply leb_Finite_false in H
  | H : (Finite _ =? Finite _)%py = true |- _ => apply eqb_Finite in H
  | |- (Finite _ <? Finite _)%py = true => apply ltb_Finite
  | |- (Finite _ <? Finite _)%py = false => apply ltb_Finite_false
  | |- (Finite _ <=? Finite _)%py = true => apply leb_Finite
  | |- (Finite _ <=? Finite _)%py = false => apply leb_Finite_false
  | |- (Finite _ =? Finite _)%py = true => apply eqb_Finite
  end.

Ltac float_split :=
  repeat match goal with
  | |- context [(Finite ?a <? Finite ?b)%py] =>
      let E := fresh "E" in destruct (Finite a <? Finite b)%py eqn:E
  end.

Ltac float_arith :=
  unfold in_range, py_min, py_max in *; cbn [mul add neg sub abs] in *;
  float_split;
  repeat match goal with
  | |- _ ∧ _ => split
  | |- _ → _ => intro
  | |- _ && _ = true => apply andb_true_iff
  | H : _ ∧ _ |- _ => destruct H
  | H : _ && _ = true |- _ => apply andb_true_iff in H
  end;
  float_props; cbn [same] in *; try done; try lra.

Lemma clamp_weight_clamped x :
  clamped (Finite 0.1) (Finite 10) x (clamp_weight x).
Proof.
  unfold clamped, clamp_weight.
  destruct x as [q| | |]; try (by vm_compute; intuition discriminate).
  float_arith.
Qed.

(** ** The sample library functions meet their contracts *)

Lemma positive_indices_length p : ∀ i, length (positive_indices i p) = count_positive p.
Proof.
  unfold count_positive. induction p as [|x p IH]; intros i; [done|].
  cbn [positive_indices List.filter]. destruct (Finite 0 <? x)%py; cbn [length]; by rewrite IH.
Qed.

Lemma positive_indices_spec p : ∀ i j,
  j ∈ positive_indices i p →
  (i ≤ j)%nat ∧ ∃ x, p !! (j - i)%nat = Some x ∧ (Finite 0 <? x)%py = true.
Proof.
  induction p as [|x p IH]; intros i j Hj; [by apply elem_of_nil in Hj|].
  cbn [positive_indices] in Hj.
  assert (j ∈ positive_indices (S i) p →
          (i ≤ j)%nat ∧ ∃ y, (x :: p) !! (j - i)%nat = Some y ∧ (Finite 0 <? y)%py = true) as Hrest.
  { intros H. destruct (IH _ _ H) as (Hle & y & Hy & Hpos). split; [lia|].
    exists y. split; [|done]. by replace (j - i)%nat with (S (j - S i)) by lia. }
  destruct (Finite 0 <? x)%py eqn:E; [|by apply Hrest].
  apply elem_of_cons in Hj as [->|Hj]; [|by apply Hrest].
  split; [done|]. exists x. by rewrite Nat.sub_diag.
Qed.

Lemma positive_indices_NoDup p : ∀ i, NoDup (positive_indices i p).
Proof.
  induction p as [|x p IH]; intros i; [constructor|].
  cbn [positive_indices]. destruct (Finite 0 <? x)%py; [|apply IH].
  constructor; [|apply IH].
  intros H. apply positive_indices_spec in H as [H _]. lia.
Qed.

Lemma first_fit_choice_contract : choice_contract first_fit_choice.
Proof.
  intros seed n size p. unfold first_fit_choice.
  destruct (choice_acceptable n size p) eqn:E; [|done].
  eexists. split; [done|].
  unfold choice_acceptable in E. rewrite !andb_true_iff in E.
  destruct E as (((((((_ & _) & _) & _) & _) & H0) & _) & Hc).
  apply Z.leb_le in H0, Hc.
  split; [|split].
  - rewrite length_take, positive_indices_length. lia.
  - eapply sublist_NoDup; [apply positive_indices_NoDup|apply sublist_take].
  - apply Forall_take, Forall_forall. intros j Hj.
    apply positive_indices_spec in Hj as (_ & x & Hx & Hpos).
    rewrite Nat.sub_0_r in Hx. by exists x.
Qed.

Lemma decimal_iso_contract : iso_contract decimal_isoformat decimal_fromisoformat.
Proof.
  intros t. unfold decimal_isoformat, decimal_fromisoformat.
  rewrite DecimalString.NilZero.isi.
  - cbn. by rewrite DecimalZ.of_to.
  - destruct t as [|p|p]; try done. cbn. intros [= H].
    by apply DecimalPos.Unsigned.to_uint_nonnil in H.
  - destruct t as [|p|p]; try done. cbn. intros [= H].
    by apply DecimalPos.Unsigned.to_uint_nonnil in H.
Qed.

(** ** Dictionaries *)

Lemma lookup_setdefault {A} k (v : A) (d : gmap string A) :
  setdefault k v d !! k = Some (default v (d !! k)).
Proof.
  unfold setdefault. destruct (d !! k) eqn:E; [by rewrite E|by rewrite lookup_insert_eq].
Qed.

Lemma insert_setdefault {A} k (v x : A) (d : gmap string A) :
  <[k := x]> (setdefault k v d) = <[k := x]> d.
Proof. unfold setdefault. destruct (d !! k); [done|by rewrite insert_insert_eq]. Qed.

Lemma setdefault_insert {A} k (v : A) (d : gmap string A) :
  setdefault k v d = <[k := default v (d !! k)]> d.
Proof.
  unfold setdefault. destruct (d !! k) eqn:E; [by rewrite insert_id|done].
Qed.

(** ** [update_weight] computes the table and saves *)

Lemma save_weights_returns iso io s : (save_weights iso io s).1 = Ok tt.
Proof. by destruct io. Qed.

Lemma save_weights_memory iso io s :
  let s' := (save_weights iso io s).2 in
  weights s' = weights s ∧ last_reviewed s' = last_reviewed s
  ∧ review_intervals s' = review_intervals s ∧ subject_mapping s' = subject_mapping s.
Proof. by destruct io. Qed.

(** Running a method: unfold the monad, read the fields. *)
Ltac run_M :=
  repeat progress
    (unfold mbind, M_bind, mret, M_ret, modify, gets, lift, raise, weight_at, interval_at,
       getitem in *;
     cbn [fst snd weights last_reviewed review_intervals subject_mapping disk stdout
          set_weights set_last_reviewed set_review_intervals set_disk
          print init_item default] in *;
     rewrite ?lookup_setdefault, ?lookup_insert_eq in *).

Lemma update_weight_run iso now io key fam s :
  update_weight iso now io key fam s = save_weights iso io (after_feedback now key fam s).
Proof.
  unfold update_weight, after_feedback, table_interval, table_weight, clamp_weight, item_of.
  destruct (label_is fam "familiar"); [|destruct (label_is fam "blur");
    [|destruct (label_is fam "strange")]];
  run_M; f_equal;
  unfold set_weights, set_last_reviewed, set_review_intervals, init_item; simpl;
  f_equal; rewrite ?insert_insert_eq, ?insert_setdefault; try done.
  apply setdefault_insert.
Qed.

Lemma update_weight_state iso now io key fam s :
  let out := update_weight iso now io key fam s in
  out.1 = Ok tt
  ∧ weights out.2 = weights (after_feedback now key fam s)
  ∧ last_reviewed out.2 = last_reviewed (after_feedback now key fam s)
  ∧ review_intervals out.2 = review_intervals (after_feedback now key fam s)
  ∧ subject_mapping out.2 = subject_mapping s.
Proof.
  cbn zeta. rewrite update_weight_run.
  destruct (save_weights_memory iso io (after_feedback now key fam s)) as (-> & -> & -> & ->).
  by rewrite save_weights_returns.
Qed.

(** ** The update table (C1) *)

(** C1.  For every state of an item and every feedback label,
    [update_weight] returns normally and leaves exactly the store the table
    prescribes: the interval of the key is the table's interval, its
    last-reviewed entry is the current time, and its weight is the table's
    weight clamped to [0.1 .. 10]; no other key is touched. *)
Theorem update_weight_applies_table
    (isoformat : datetime → string) (now : datetime) (io : write_outcome)
    (key : string) (familiarity : option string) (s : state) :
  let out := update_weight isoformat now io key familiarity s in
  let weight := (item_of s key).1.1 in
  let interval := (item_of s key).2 in
  out.1 = Ok tt
  ∧ review_intervals out.2 = <[key := table_interval familiarity interval]> (review_intervals s)
  ∧ last_reviewed out.2 = <[key := At now]> (last_reviewed s)
  ∧ ∃ weight',
      weights out.2 = <[key := weight']> (weights s)
      ∧ clamped (Finite 0.1) (Finite 10) (table_weight familiarity weight) weight'.
Proof.
  cbn zeta.
  destruct (update_weight_state isoformat now io key familiarity s) as (-> & -> & -> & -> & _).
  unfold after_feedback, item_of; cbn.
  repeat split. eexists; split; [done|]. apply clamp_weight_clamped.
Qed.

(** The decay factor to sixteen digits. *)
Example decay_factor_digits :
  (Finite 0.9048374180359595 <=? decay_factor)%py = true
  ∧ (decay_factor <? Finite 0.9048374180359596)%py = true.
Proof. by vm_compute. Qed.

(** The two scenarios of section 8. *)
Example familiar_scenario :
  let s := set_review_intervals <["A" := Finite 1]>
             (set_weights <["A" := Finite 1]> empty_state) in
  item_of (update_weight decimal_isoformat 0%Z Written "A" (Some "familiar") s).2 "A"
  = (decay_factor, At 0%Z, Finite 2).
Proof. by vm_compute. Qed.

Example strange_scenario :
  let s := set_review_intervals <["A" := Finite 2]>
             (set_weights <["A" := Finite 8]> empty_state) in
  let '(weight, _, interval) :=
    item_of (update_weight decimal_isoformat 0%Z Written "A" (Some "strange") s).2 "A" in
  same weight (Finite 10) ∧ same interval (Finite 1).
Proof. by vm_compute. Qed.

(** ** Ranges of weight and interval (C2, C8) *)

Lemma clamp_weight_in_range w :
  in_range (Finite 0.1) (Finite 10) (clamp_weight w) = true.
Proof. apply clamp_weight_clamped. Qed.

Lemma table_interval_at_least fam i :
  (Finite 0.1 <=? i)%py = true → (Finite 0.1 <=? table_interval fam i)%py = true.
Proof.
  unfold table_interval. intros Hi.
  destruct (label_is fam "familiar"); [|destruct (label_is fam "blur");
    [|destruct (label_is fam "strange")]]; try done;
  destruct i as [q| | |]; try done; float_arith.
Qed.

Lemma table_interval_at_most fam i :
  label_is fam "blur" = false →
  (i <=? Finite 30)%py = true → (table_interval fam i <=? Finite 30)%py = true.
Proof.
  unfold table_interval. intros -> Hi.
  destruct (label_is fam "familiar"); [|destruct (label_is fam "strange")]; try done;
  destruct i as [q| | |]; try done; float_arith.
Qed.

Lemma default_in_map {A} (P : A → Prop) (m : gmap string A) k d :
  map_Forall (fun _ => P) m → P d → P (default d (m !! k)).
Proof.
  intros Hm Hd. destruct (m !! k) eqn:E; [by eapply Hm|done].
Qed.

Lemma update_weight_keeps_ranges iso now io key fam s :
  let s' := (update_weight iso now io key fam s).2 in
  weights_in_range s → intervals_at_least s →
  weights_in_range s' ∧ intervals_at_least s'
  ∧ (intervals_at_most s → label_is fam "blur" = false → intervals_at_most s').
Proof.
  cbn zeta. intros Hw Hi.
  destruct (update_weight_state iso now io key fam s) as (_ & Ew & _ & Ei & _).
  unfold weights_in_range, intervals_at_least, intervals_at_most.
  rewrite Ew, Ei. unfold after_feedback, item_of; cbn.
  split; [|split].
  - apply map_Forall_insert_2; [apply clamp_weight_in_range|done].
  - apply map_Forall_insert_2; [|done].
    apply table_interval_at_least.
    by apply (default_in_map (fun i => (Finite 0.1 <=? i)%py = true)).
  - intros Hm Hb. apply map_Forall_insert_2; [|done].
    apply table_interval_at_most; [done|].
    by apply (default_in_map (fun i => (i <=? Finite 30)%py = true)).
Qed.

Lemma label_is_Some_false f l : f ≠ Some l → label_is f l = false.
Proof.
  destruct f as [x|]; [|done]. cbn. intros H.
  apply String.eqb_neq. congruence.
Qed.

(** C8.  From a weight in [0.1 .. 10]: "familiar" never increases the
    stored weight, "strange" never decreases it, "blur" leaves it between
    0.95 times the prior weight and the prior weight, and with any other
    label the stored weight is the prior weight times 0.9, then clamped. *)
Theorem feedback_moves_weight_as_labelled
    (isoformat : datetime → string) (now : datetime) (io : write_outcome)
    (key : string) (familiarity : option string) (s : state) :
  let weight := (item_of s key).1.1 in
  in_range (Finite 0.1) (Finite 10) weight = true →
  ∃ weight',
    weights (update_weight isoformat now io key familiarity s).2 !! key = Some weight'
    ∧ (familiarity = Some "familiar"%string → (weight' <=? weight)%py = true)
    ∧ (familiarity = Some "strange"%string → (weight <=? weight')%py = true)
    ∧ (familiarity = Some "blur"%string →
         (weight * Finite 0.95 <=? weight')%py = true ∧ (weight' <=? weight)%py = true)
    ∧ (familiarity ≠ Some "familiar"%string → familiarity ≠ Some "strange"%string →
       familiarity ≠ Some "blur"%string →
         weight' = clamp_weight (weight * Finite 0.9)).
Proof.
  cbn zeta. intros Hr.
  destruct (update_weight_state isoformat now io key familiarity s) as (_ & -> & _).
  unfold after_feedback, item_of in *; cbn in *.
  rewrite lookup_insert_eq. eexists; split; [done|].
  destruct (default one (weights s !! key)) as [q| | |]; try done.
  unfold clamp_weight, table_weight, decay_factor.
  split; [|split; [|split; [|by intros; rewrite !label_is_Some_false]]]; intros ->;
    cbn [label_is String.eqb Ascii.eqb Bool.eqb]; cbn match; float_arith.
Qed.

Lemma feedback_moves_weight_as_labelled_witness :
  ∃ weight',
    weights (update_weight decimal_isoformat sample_now Written "S001/b.JPG"
               (Some "strange"%string) sample_state).2 !! "S001/b.JPG"%string = Some weight'
    ∧ (Finite 10 <=? weight')%py = true.
Proof.
  destruct (feedback_moves_weight_as_labelled decimal_isoformat sample_now Written
              "S001/b.JPG" (Some "strange"%string) sample_state)
    as (weight' & Hw & _ & Hs & _); [by vm_compute|].
  exists weight'. split; [done|]. by apply Hs.
Defined.

Lemma run_feedback_keeps_ranges iso calls : ∀ s,
  weights_in_range s → intervals_at_least s →
  let s' := run_feedback iso calls s in
  weights_in_range s' ∧ intervals_at_least s'
  ∧ (intervals_at_most s →
     Forall (fun c => call_familiarity c ≠ Some "blur"%string) calls →
     intervals_at_most s').
Proof.
  induction calls as [|c calls IH]; intros s Hw Hl; cbn zeta; [done|].
  cbn [run_feedback fold_left].
  destruct (update_weight_keeps_ranges iso (call_now c) (call_io c) (call_key c)
              (call_familiarity c) s Hw Hl) as (Hw' & Hl' & Hu').
  destruct (IH _ Hw' Hl') as (Hw'' & Hl'' & Hu'').
  split; [done|split; [done|]].
  intros Hu Hall. inversion Hall as [|? ? Hc Hrest]; subst.
  apply Hu''; [|done]. apply Hu'; [done|]. by apply label_is_Some_false.
Qed.

Lemma raw_weight_state iso now io key weight s :
  key ≠ ""%string →
  let out := api_update_weight iso now io (raw_weight_request key weight) s in
  out.1 = Ok Success
  ∧ weights out.2 = <[encode_key (subject_mapping s) key := weight]> (weights s)
  ∧ last_reviewed out.2 = last_reviewed s
  ∧ review_intervals out.2 = review_intervals s.
Proof.
  intros Hk. unfold api_update_weight, raw_weight_request; cbn.
  apply String.eqb_neq in Hk. rewrite Hk. cbn.
  unfold save_weights, try_except. run_M. by destruct io.
Qed.

(** C2, as the code has it.  Along every sequence of [update_weight]
    calls from a store within the ranges, every weight stays in
    [0.1 .. 10] and every interval at or above 0.1; every interval also
    stays at or below 30 as long as no call carries the label "blur".  The
    set-raw-weight path of [api_update_weight] stores the weight it is
    given, unclamped, and touches neither intervals nor review times. *)
Theorem feedback_keeps_ranges
    (isoformat : datetime → string) (calls : list feedback_call) (s : state) :
  weights_in_range s → intervals_at_least s →
  let s' := run_feedback isoformat calls s in
  (weights_in_range s' ∧ intervals_at_least s'
   ∧ (intervals_at_most s →
      Forall (fun c => call_familiarity c ≠ Some "blur"%string) calls →
      intervals_at_most s'))
  ∧ ∀ now io key weight,
      key ≠ ""%string →
      let out := api_update_weight isoformat now io (raw_weight_request key weight) s' in
      out.1 = Ok Success
      ∧ weights out.2 = <[encode_key (subject_mapping s') key := weight]> (weights s')
      ∧ last_reviewed out.2 = last_reviewed s'
      ∧ review_intervals out.2 = review_intervals s'.
Proof.
  intros Hw Hl. cbn zeta. split.
  - by apply run_feedback_keeps_ranges.
  - intros. by apply raw_weight_state.
Qed.

Lemma sample_state_in_range :
  weights_in_range sample_state ∧ intervals_at_least sample_state
  ∧ intervals_at_most sample_state.
Proof.
  repeat split;
    (apply map_Forall_insert_2; [by vm_compute|by apply map_Forall_singleton; vm_compute]).
Qed.

Lemma feedback_keeps_ranges_witness :
  let s' := run_feedback decimal_isoformat sample_calls sample_state in
  weights_in_range s' ∧ intervals_at_least s' ∧ intervals_at_most s'.
Proof.
  destruct sample_state_in_range as (Hw & Hl & Hu).
  destruct (feedback_keeps_ranges decimal_isoformat sample_calls sample_state Hw Hl)
    as [(Hw' & Hl' & Hu') _].
  split; [done|]. split; [done|]. apply Hu'; [done|].
  unfold sample_calls. by repeat constructor.
Defined.

(** The clamping invariant of the specification fails twice from a store
    within the ranges: a "blur" on an interval of 30 days stores 36 days,
    and the set-raw-weight path stores a weight of 100. *)
Lemma blur_and_raw_weight_leave_the_ranges :
  (weights_in_range sample_state ∧ intervals_at_least sample_state
   ∧ intervals_at_most sample_state)
  ∧ (let s' := (update_weight decimal_isoformat sample_now Written "S001/a.png"
                  (Some "blur"%string) sample_state).2 in
     review_intervals s' !! "S001/a.png"%string = Some (Finite 36.0)
     ∧ in_range (Finite 0.1) (Finite 30) (Finite 36.0) = false)
  ∧ (let s' := (api_update_weight decimal_isoformat sample_now Written
                  (raw_weight_request "S001/a.png" (Finite 100)) sample_state).2 in
     weights s' !! "S001/a.png"%string = Some (Finite 100)
     ∧ in_range (Finite 0.1) (Finite 10) (Finite 100) = false).
Proof.
  split; [apply sample_state_in_range|]. split; by vm_compute.
Qed.

(** ** Priorities (C3) *)

Lemma py_div_nonzero x y : is_zero y = false → py_div x y = Ok (quotient x y).
Proof. unfold py_div. by intros ->. Qed.

Lemma py_max_tenth_nonzero x : is_zero (py_max (Finite 0.1) x) = false.
Proof.
  unfold py_max. destruct x as [q| | |]; try done.
  destruct (Finite 0.1 <? Finite q)%py eqn:E; [|done].
  cbn. apply ltb_Finite in E. apply not_true_iff_false. rewrite Qeq_bool_iff. lra.
Qed.

Lemma priority_of_run now img s :
  priority_of now img s
  = (match raw_priority now (item_of s img).1.1 (item_of s img).1.2 (item_of s img).2 with
     | Ok p => Ok (finite_or_one p)
     | Raise e => Raise e
     end, s).
Proof.
  unfold priority_of. run_M. unfold item_of. cbn.
  by destruct (raw_priority _ _ _ _).
Qed.

Lemma timedelta_days_Finite q :
  timedelta_days (Finite q)
  = if (999999999 <? Z.abs (days q / us_per_day))%Z then Raise OverflowError else Ok (days q).
Proof. done. Qed.





(** The scenario of section 8: reviewed two days ago with an interval of
    one day, weight 1: overdue by 86400 seconds, priority 87400. *)
Example overdue_scenario :
  let now := (5 * us_per_day)%Z in
  same (spec_priority now (Finite 1) (Some (now - 2 * us_per_day)%Z) (Finite 1))
    (Finite 87400).
Proof. by vm_compute. Qed.



(** ** Sums and the two divisions (C5) *)

Lemma fold_left_add_Finite qs : ∀ a,
  fold_left add (map Finite qs) (Finite a) = Finite (fold_left Qplus qs a).
Proof. induction qs as [|q qs IH]; intros a; [done|]. cbn. apply IH. Qed.

Lemma fold_left_Qplus_total qs : ∀ a, (fold_left Qplus qs a == a + Qtotal qs)%Q.
Proof.
  induction qs as [|q qs IH]; intros a; cbn [fold_left Qtotal foldr]; [lra|].
  rewrite IH. unfold Qtotal. lra.
Qed.

Lemma py_sum_Finite qs : ∃ t, py_sum (map Finite qs) = Finite t ∧ (t == Qtotal qs)%Q.
Proof.
  unfold py_sum. rewrite fold_left_add_Finite. eexists; split; [done|].
  rewrite fold_left_Qplus_total. lra.
Qed.


Lemma Qtotal_div qs t : (Qtotal (map (fun q => q / t) qs) == Qtotal qs / t)%Q.
Proof.
  induction qs as [|q qs IH]; cbn [map Qtotal foldr]; [by unfold Qdiv; rewrite Qmult_0_l|].
  fold (Qtotal (map (fun q => q / t)%Q qs)). fold (Qtotal qs).
  rewrite IH. unfold Qdiv. ring.
Qed.

Lemma Qtotal_replicate n u : (Qtotal (replicate n u) == inject_Z (Z.of_nat n) * u)%Q.
Proof.
  induction n as [|n IH]; [cbn; ring|].
  cbn [replicate Qtotal foldr]. fold (Qtotal (replicate n u)). rewrite IH.
  rewrite Nat2Z.inj_succ. unfold Z.succ. rewrite inject_Z_plus. ring.
Qed.

Lemma Qtotal_nonneg qs : Forall (fun q => 0 <= q)%Q qs → (0 <= Qtotal qs)%Q.
Proof.
  induction 1 as [|q qs Hq _ IH]; cbn [Qtotal foldr]; [lra|].
  fold (Qtotal qs). lra.
Qed.

Lemma Qtotal_pos qs : qs ≠ [] → Forall (fun q => 0 < q)%Q qs → (0 < Qtotal qs)%Q.
Proof.
  intros Hne Hall. destruct Hall as [|q qs Hq Hall]; [done|].
  cbn [Qtotal foldr]. fold (Qtotal qs).
  assert (0 <= Qtotal qs)%Q; [|lra].
  apply Qtotal_nonneg. eapply Forall_impl; [done|]. cbn. intros; lra.
Qed.

Lemma mapM_div_Finite qs t :
  ¬ (t == 0)%Q →
  mapM (fun p => py_div p (Finite t)) (map Finite qs)
  = Ok (map Finite (map (fun q => q / t)%Q qs)).
Proof.
  intros Ht. induction qs as [|q qs IH]; [done|].
  cbn [map mapM]. rewrite IH. unfold py_div. cbn [is_zero].
  by destruct (Qeq_bool t 0) eqn:E; [apply Qeq_bool_iff in E|].
Qed.

Lemma map_replicate {A B} (f : A → B) n x : map f (replicate n x) = replicate n (f x).
Proof. induction n as [|n IH]; [done|]. cbn. by rewrite IH. Qed.

Lemma uniform_run n :
  n ≠ 0%nat →
  uniform n = Ok (map Finite (replicate n (1 / inject_Z (Z.of_nat n))%Q)).
Proof.
  intros Hn. unfold uniform, py_div, of_Z. cbn [is_zero].
  destruct (Qeq_bool _ 0) eqn:E.
  - apply Qeq_bool_iff in E. unfold Qeq in E. cbn in E. lia.
  - cbn [mbind result_bind mret result_ret quotient]. by rewrite map_replicate.
Qed.

Lemma Qtotal_uniform n :
  n ≠ 0%nat → (Qtotal (replicate n (1 / inject_Z (Z.of_nat n))) == 1)%Q.
Proof.
  intros Hn. rewrite Qtotal_replicate. field.
  intros E. unfold Qeq in E. cbn in E. lia.
Qed.

Lemma zero_unless_finite_Finite qs :
  map zero_unless_finite (map Finite qs) = map Finite qs.
Proof. induction qs as [|q qs IH]; [done|]. cbn. by rewrite IH. Qed.

(** The first division yields finite entries adding up to one. *)
Lemma divide_by_total_run qs :
  qs ≠ [] →
  ∃ ps, divide_by_total (map Finite qs) = Ok (map Finite ps)
        ∧ length ps = length qs
        ∧ (Qtotal ps == 1)%Q
        ∧ (Forall (fun q => 0 < q)%Q qs → Forall (fun q => 0 < q)%Q ps).
Proof.
  intros Hne. unfold divide_by_total.
  destruct (py_sum_Finite qs) as (t & -> & Ht). cbn [isfinite]. rewrite andb_true_r.
  destruct (Finite 0 <? Finite t)%py eqn:E.
  - apply ltb_Finite in E.
    exists (map (fun q => q / t)%Q qs). split; [apply mapM_div_Finite; lra|].
    split; [by rewrite length_map|]. split.
    + rewrite Qtotal_div, <- Ht. field. lra.
    + intros Hall. apply Forall_map. eapply Forall_impl; [done|].
      cbn. intros q Hq. by apply Qlt_shift_div_l; [|rewrite Qmult_0_l].
  - apply ltb_Finite_false in E. rewrite length_map.
    assert (length qs ≠ 0%nat) by by destruct qs.
    exists (replicate (length qs) (1 / inject_Z (Z.of_nat (length qs)))%Q).
    split; [by apply uniform_run|]. split; [by rewrite length_replicate|].
    split; [by apply Qtotal_uniform|].
    intros Hall. pose proof (Qtotal_pos qs Hne Hall). lra.
Qed.

(** So does the second. *)
Lemma renormalise_run ps :
  (Qtotal ps == 1)%Q →
  ∃ ps', renormalise (map Finite ps) = Ok (map Finite ps')
         ∧ length ps' = length ps
         ∧ (Qtotal ps' == 1)%Q
         ∧ (Forall (fun q => 0 < q)%Q ps → Forall (fun q => 0 < q)%Q ps').
Proof.
  intros Hone. unfold renormalise. rewrite zero_unless_finite_Finite.
  destruct (py_sum_Finite ps) as (t & -> & Ht).
  assert (t == 1)%Q as Ht1 by lra.
  destruct (Finite t =? Finite 0)%py eqn:E; [apply eqb_Finite in E; lra|].
  exists (map (fun q => q / t)%Q ps). split; [apply mapM_div_Finite; lra|].
  split; [by rewrite length_map|]. split.
  - rewrite Qtotal_div. rewrite Ht1, Hone. field.
  - intros Hall. apply Forall_map. eapply Forall_impl; [done|].
    cbn. intros q Hq. apply Qlt_shift_div_l; [lra|]. by rewrite Qmult_0_l.
Qed.

Lemma normalise_run qs :
  qs ≠ [] →
  ∃ ps, normalise (map Finite qs) = Ok (map Finite ps)
        ∧ length ps = length qs
        ∧ (Qtotal ps == 1)%Q
        ∧ (Forall (fun q => 0 < q)%Q qs → Forall (fun q => 0 < q)%Q ps).
Proof.
  intros Hne. unfold normalise.
  destruct (divide_by_total_run qs Hne) as (ps & -> & Hlen & Hone & Hpos).
  cbn [mbind result_bind].
  destruct (renormalise_run ps Hone) as (ps' & -> & Hlen' & Hone' & Hpos').
  exists ps'. split; [done|]. split; [congruence|]. split; [done|]. auto.
Qed.

(** For a positive sum the two divisions give [priority / sum]. *)
Lemma Forall2_div_total qs t u :
  ¬ (t == 0)%Q → (t == Qtotal qs)%Q → (u == 1)%Q →
  ∀ l, Forall2 (fun q p => (p == q / Qtotal qs)%Q) l
         (map (fun q => q / u)%Q (map (fun q => q / t)%Q l)).
Proof.
  intros Ht Hqs Hu l. induction l as [|q l IH]; [constructor|].
  cbn [map]. constructor; [|done].
  rewrite Hu, <- Hqs. by field.
Qed.

Lemma normalise_proportional (qs : list Q) :
  (0 < Qtotal qs)%Q →
  ∃ ps, normalise (map Finite qs) = Ok (map Finite ps)
        ∧ Forall2 (fun q p => (p == q / Qtotal qs)%Q) qs ps.
Proof.
  intros Hpos. unfold normalise, divide_by_total.
  destruct (py_sum_Finite qs) as (t & -> & Ht). cbn [isfinite]. rewrite andb_true_r.
  assert (0 < t)%Q as Ht0 by lra.
  destruct (Finite 0 <? Finite t)%py eqn:E; [|apply ltb_Finite_false in E; lra].
  rewrite mapM_div_Finite by lra. cbn [mbind result_bind].
  unfold renormalise. rewrite zero_unless_finite_Finite.
  destruct (py_sum_Finite (map (fun q => q / t)%Q qs)) as (u & -> & Hu).
  assert (u == 1)%Q as Hu1.
  { rewrite Hu, Qtotal_div, <- Ht. field. lra. }
  destruct (Finite u =? Finite 0)%py eqn:E'; [apply eqb_Finite in E'; lra|].
  rewrite mapM_div_Finite by lra.
  eexists. split; [done|]. apply Forall2_div_total; [lra|done|done].
Qed.





(** ** Selection (C4) *)

Lemma insert_desc_perm key x l : insert_desc key x l ≡ₚ x :: l.
Proof.
  induction l as [|y l IH]; [done|]. cbn.
  destruct (_ <? _)%py; [|done]. rewrite IH. apply Permutation_swap.
Qed.

Lemma sort_desc_perm key l : sort_desc key l ≡ₚ l.
Proof.
  induction l as [|x l IH]; [done|]. cbn.
  rewrite insert_desc_perm. by constructor.
Qed.

Lemma image_key_of_inj subject : Inj (=) (=) (image_key_of subject).
Proof.
  intros a b. unfold image_key_of. intros H.
  apply (inj (String.append subject)) in H. by injection H.
Qed.

Lemma image_keys_NoDup subject entries : NoDup entries → NoDup (image_keys subject entries).
Proof.
  intros H. unfold image_keys.
  apply (NoDup_fmap_2 (image_key_of subject)).
  by apply NoDup_ListNoDup, List.NoDup_filter, NoDup_ListNoDup.
Qed.

Lemma round_half_even_bounds q lo hi :
  (inject_Z lo <= q)%Q → (q <= inject_Z hi)%Q →
  (lo ≤ round_half_even q ≤ hi)%Z.
Proof.
  intros Hlo Hhi. unfold round_half_even.
  pose proof (Qfloor_le q) as Hf.
  assert (lo ≤ Qfloor q)%Z as Hl.
  { rewrite <- (Qfloor_Z lo). by apply Qfloor_resp_le. }
  assert (Qfloor q ≤ hi)%Z as Hh.
  { rewrite <- (Qfloor_Z hi). by apply Qfloor_resp_le. }
  assert ((q - inject_Z (Qfloor q) ?= 1 # 2)%Q ≠ Lt → (Qfloor q + 1 ≤ hi)%Z) as Hup.
  { intros Hc. destruct (Z.eq_dec (Qfloor q) hi) as [E|]; [|lia].
    exfalso. apply Hc. rewrite <- Qlt_alt. rewrite E. lra. }
  destruct (q - inject_Z (Qfloor q) ?= 1 # 2)%Q;
    [destruct (Z.even _); [|specialize (Hup ltac:(done))]
    | |specialize (Hup ltac:(done))]; lia.
Qed.

Lemma timedelta_days_in_range q :
  (0 <= q)%Q → (q <= 30)%Q →
  ∃ us, timedelta_days (Finite q) = Ok us ∧ (0 ≤ us ≤ 30 * us_per_day)%Z.
Proof.
  intros H0 H30. unfold timedelta_days.
  set (us := round_half_even (q * inject_Z us_per_day)).
  assert (0 ≤ us ≤ 30 * us_per_day)%Z as Hus.
  { apply round_half_even_bounds.
    - change (inject_Z 0) with 0%Q. change (inject_Z us_per_day) with 86400000000%Q. nra.
    - change (inject_Z (30 * us_per_day)) with (30 * 86400000000)%Q.
      change (inject_Z us_per_day) with 86400000000%Q. nra. }
  exists us. split; [|done].
  assert (0 ≤ us / us_per_day ≤ 30)%Z.
  { split; [apply Z.div_pos; [lia|done]|].
    apply Z.div_le_upper_bound; [done|]. lia. }
  destruct (Z.ltb_spec 999999999 (Z.abs (us / us_per_day))); [lia|done].
Qed.

Lemma raw_priority_positive now weight lr interval :
  healthy (weight, lr, interval) = true →
  ∃ q, raw_priority now weight lr interval = Ok (Finite q) ∧ (0 < q)%Q.
Proof.
  unfold healthy. cbn [fst snd]. rewrite !andb_true_iff. intros [[Hw Ht] Hi].
  destruct weight as [w| | |]; try done. destruct interval as [i| | |]; try done.
  unfold in_range in *. apply andb_true_iff in Hw as [Hw1 Hw2], Hi as [Hi1 Hi2].
  float_props.
  destruct lr as [|t|]; [by eexists; split; [done|] | |done].
  cbn [review_time_ok] in Ht. cbn [raw_priority].
  destruct (timedelta_days_in_range i) as (us & -> & Hus); [lra|lra|].
  cbn [mbind result_bind]. unfold datetime_add.
  destruct ((0 <=? t + us) && (t + us <=? datetime_max))%Z eqn:E.
  2:{ apply andb_false_iff in E. apply andb_true_iff in Ht. lia. }
  cbn [mbind result_bind]. unfold total_seconds. cbn zeta.
  match goal with |- context [(Finite ?y <=? Finite 0)%py] => generalize y; intros x end.
  destruct (Finite x <=? Finite 0)%py eqn:Ex.
  - unfold of_Z. cbn [abs add mul mbind result_bind].
    eexists; split; [done|]. pose proof (Qabs_nonneg x).
    change (inject_Z 1000) with 1000%Q. nra.
  - apply leb_Finite_false in Ex.
    rewrite py_div_nonzero by done. cbn [mbind result_bind].
    rewrite py_div_nonzero by apply py_max_tenth_nonzero.
    unfold of_Z, py_max. cbn [quotient].
    change (inject_Z 3600) with 3600%Q. change (inject_Z 1000) with 1000%Q.
    destruct (_ <? _)%py eqn:Eh; cbn [mul quotient]; (eexists; split; [done|]).
    + apply ltb_Finite in Eh. apply Qlt_shift_div_l; lra.
    + apply Qlt_shift_div_l; lra.
Qed.

Lemma priorities_run now s images :
  (∀ img, img ∈ images → healthy (item_of s img) = true) →
  ∃ qs, mapM (priority_of now) images s = (Ok (map Finite qs), s)
        ∧ length qs = length images
        ∧ Forall (fun q => 0 < q)%Q qs.
Proof.
  induction images as [|img images IH]; intros Hh; [by exists []|].
  destruct IH as (qs & Hqs & Hlen & Hpos); [intros; apply Hh; by right|].
  destruct (raw_priority_positive now (item_of s img).1.1 (item_of s img).1.2
              (item_of s img).2) as (q & Hq & Hq0).
  { rewrite <- (Hh img) by by left. by destruct (item_of s img) as [[??]?]. }
  exists (q :: qs). split; [|split; [cbn; lia|by constructor]].
  cbn [mapM]. unfold mbind at 1, M_bind at 1. rewrite priority_of_run, Hq.
  cbn [finite_or_one isfinite]. unfold mbind at 1, M_bind at 1. by rewrite Hqs.
Qed.

Lemma get_images_for_subject_run t subject entries s :
  entries_of t subject = Ok entries →
  ∃ images, get_images_for_subject t subject s = (Ok images, s)
            ∧ images ≡ₚ image_keys subject entries.
Proof.
  intros He. unfold get_images_for_subject, listdir. run_M. rewrite He.
  eexists; split; [done|]. apply sort_desc_perm.
Qed.

Lemma count_positive_all qs :
  Forall (fun q => 0 < q)%Q qs → count_positive (map Finite qs) = length qs.
Proof.
  induction 1 as [|q qs Hq _ IH]; [done|].
  unfold count_positive in *. cbn [map List.filter].
  apply ltb_Finite in Hq. rewrite Hq. cbn [length]. by rewrite IH.
Qed.

Lemma distribution_acceptable qs count :
  qs ≠ [] → (Qtotal qs == 1)%Q → Forall (fun q => 0 < q)%Q qs → (0 ≤ count)%Z →
  choice_acceptable (length qs) (Z.min count (Z.of_nat (length qs))) (map Finite qs) = true.
Proof.
  intros Hne Hone Hpos Hcount. unfold choice_acceptable.
  destruct (py_sum_Finite qs) as (t & -> & Ht).
  rewrite count_positive_all by done. rewrite length_map.
  repeat (apply andb_true_intro; split).
  - apply Nat.eqb_refl.
  - apply orb_true_iff. left. apply Nat.ltb_lt. destruct qs; [done|cbn; lia].
  - done.
  - apply forallb_forall. intros x Hx. apply in_map_iff in Hx as (q & <- & Hq).
    apply negb_true_iff, ltb_Finite_false.
    rewrite List.Forall_forall in Hpos. specialize (Hpos q Hq). lra.
  - apply negb_true_iff. unfold atol. cbn [sub add neg abs].
    apply ltb_Finite_false.
    assert (t + - (1) == 0)%Q as -> by lra. done.
  - apply Z.leb_le. lia.
  - apply Z.leb_le. lia.
  - apply Z.leb_le. lia.
Qed.

Lemma negative_size_unacceptable n size p :
  (size < 0)%Z → choice_acceptable n size p = false.
Proof.
  intros H. unfold choice_acceptable.
  assert ((0 <=? size)%Z = false) as -> by by apply Z.leb_gt.
  by rewrite !andb_false_r.
Qed.

Lemma pick_run (images : list string) (idx : list nat) :
  Forall (fun i => i < length images)%nat idx →
  ∃ selected, pick images idx = Ok selected
              ∧ Forall2 (fun i x => images !! i = Some x) idx selected.
Proof.
  unfold pick. induction 1 as [|i idx Hi _ (selected & IH & Hsel)]; [by exists []|].
  destruct (lookup_lt_is_Some_2 images i Hi) as [x Hx].
  exists (x :: selected). split; [|by constructor].
  cbn [mapM]. rewrite Hx. cbn [mbind result_bind]. by rewrite IH.
Qed.

Lemma picked_elem_of (images : list string) (idx : list nat) (selected : list string) x :
  Forall2 (fun i x => images !! i = Some x) idx selected →
  x ∈ selected → ∃ i, i ∈ idx ∧ images !! i = Some x.
Proof.
  induction 1 as [|i y idx selected Hy _ IH]; intros Hx; [by apply elem_of_nil in Hx|].
  apply elem_of_cons in Hx as [->|Hx].
  - exists i. split; [by left|done].
  - destruct (IH Hx) as (j & Hj & Hjx). exists j. split; [by right|done].
Qed.

Lemma picked_NoDup (images : list string) (idx : list nat) (selected : list string) :
  NoDup images → NoDup idx →
  Forall2 (fun i x => images !! i = Some x) idx selected →
  NoDup selected.
Proof.
  intros Himages Hidx Hsel. induction Hsel as [|i x idx selected Hx Hsel IH]; [constructor|].
  apply NoDup_cons in Hidx as [Hi Hidx]. constructor; [|by apply IH].
  intros Hin. destruct (picked_elem_of _ _ _ _ Hsel Hin) as (j & Hj & Hjx).
  assert (i = j) as -> by by apply (NoDup_lookup images i j x).
  done.
Qed.

Lemma bind_run {A B} (m : M A) (k : A → M B) s a s' :
  m s = (Ok a, s') → (m ≫= k) s = k a s'.
Proof. unfold mbind, M_bind. by intros ->. Qed.

Lemma select_run rc now t seed subject count s entries :
  choice_contract rc →
  entries_of t subject = Ok entries →
  NoDup entries →
  (∀ img, img ∈ image_keys subject entries → healthy (item_of s img) = true) →
  let keys := image_keys subject entries in
  ∃ r,
    select_images_for_review rc now t seed subject count s = (r, s)
    ∧ (keys = [] → r = Ok [])
    ∧ ((0 ≤ count)%Z →
       ∃ selected,
         r = Ok selected
         ∧ length selected = Z.to_nat (Z.min count (Z.of_nat (length keys)))
         ∧ NoDup selected
         ∧ selected ⊆ keys)
    ∧ ((count < 0)%Z → keys ≠ [] → r = Raise ValueError).
Proof.
  intros Hrc He Hnd Hh. cbn zeta. unfold select_images_for_review.
  destruct (get_images_for_subject_run t subject entries s He) as (images & Hrun & Hperm).
  rewrite (bind_run _ _ _ _ _ Hrun).
  destruct images as [|img0 images'] eqn:Eimg.
  { apply Permutation_nil_l in Hperm as <-. exists (Ok []). split; [done|]. split; [done|].
    split; [|done].
    intros _. exists []. cbn. repeat split; [lia|constructor|done]. }
  rewrite <- Eimg in *. assert (images ≠ []) as Hne by by rewrite Eimg.
  clear Eimg img0 images'.
  destruct (priorities_run now s images) as (qs & Hqs & Hlen & Hpos).
  { intros img Himg. apply Hh. by rewrite <- Hperm. }
  rewrite (bind_run _ _ _ _ _ Hqs).
  assert (qs ≠ []) as Hqne by (intros ->; by destruct images).
  destruct (normalise_run qs Hqne) as (ps & Hps & Hplen & Hone & Hppos).
  unfold lift at 1. rewrite Hps. unfold mbind at 1, M_bind at 1.
  unfold mbind, M_bind, lift.
  exists (rc seed (length images) (Z.min count (Z.of_nat (length images))) (map Finite ps)
          ≫= pick images).
  split; [by destruct (rc _ _ _ _) as [idx|]|].
  split; [intros Hk; rewrite Hk in Hperm; by apply Permutation_nil_r in Hperm|].
  pose proof (Hrc seed (length images) (Z.min count (Z.of_nat (length images)))
                (map Finite ps)) as Hc.
  split; [|intros Hneg _; rewrite negative_size_unacceptable in Hc by lia; by rewrite Hc].
  intros Hcount.
  assert (ps ≠ []) as Hpne by (intros ->; by destruct qs).
  pose proof (distribution_acceptable ps count Hpne Hone (Hppos Hpos) Hcount) as Hacc.
  rewrite Hplen, Hlen in Hacc.
  rewrite Hacc in Hc. destruct Hc as (idx & -> & Hilen & Hind & Hidx).
  destruct (pick_run images idx) as (selected & Hpick & Hsel).
  { eapply Forall_impl; [done|]. cbn. intros i (x & Hx & _).
    apply lookup_lt_Some in Hx. rewrite length_map in Hx. lia. }
  cbn [mbind result_bind]. rewrite Hpick. exists selected. split; [done|].
  assert (NoDup images) as Hnd'.
  { rewrite Hperm. by apply image_keys_NoDup. }
  split; [|split].
  - rewrite <- (Forall2_length _ _ _ Hsel), Hilen. by rewrite Hperm.
  - by eapply picked_NoDup.
  - intros x Hx. destruct (picked_elem_of _ _ _ _ Hsel Hx) as (i & _ & Hi).
    rewrite <- Hperm. by eapply list_elem_of_lookup_2.
Qed.

(** ** Selection over any store it can take *)

Lemma healthy_samplable it : healthy it = true → samplable it = true.
Proof.
  destruct it as [[w lr] i]. unfold healthy, samplable. cbn [fst snd].
  rewrite !andb_true_iff. intros [[Hw Ht] Hi].
  destruct w as [w| | |]; try done. destruct i as [i| | |]; try done.
  unfold in_range in *. apply andb_true_iff in Hw as [Hw1 Hw2], Hi as [Hi1 Hi2].
  float_props. split; [apply ltb_Finite; lra|].
  destruct lr as [|t|]; [done| |done]. cbn [review_time_ok] in Ht.
  apply andb_true_iff in Ht as [Ht0 Htmax]. apply Z.leb_le in Ht0, Htmax.
  destruct (timedelta_days_in_range i) as (us & Hus & Hrange); [lra|lra|].
  rewrite timedelta_days_Finite in Hus.
  destruct (Z.ltb_spec 999999999 (Z.abs (days i / us_per_day))) as [|Hd]; [done|].
  injection Hus as <-. unfold due_representable.
  rewrite !andb_true_iff, !Z.leb_le. unfold datetime_max in *. lia.
Qed.





(** ** Degenerate priorities (C5) *)




Lemma healthy_all s keys :
  forallb (fun img => healthy (item_of s img)) keys = true →
  ∀ img, img ∈ keys → healthy (item_of s img) = true.
Proof.
  intros H img Himg. rewrite forallb_forall in H. by apply H, list_elem_of_In.
Qed.



(** Whatever sample NumPy would draw, it refuses a negative size: with a
    negative count and at least one image the selection raises. *)
Lemma negative_count_rejected rc now t seed subject count s entries :
  choice_contract rc →
  entries_of t subject = Ok entries →
  NoDup entries →
  forallb (fun img => healthy (item_of s img)) (image_keys subject entries) = true →
  image_keys subject entries ≠ [] →
  (count < 0)%Z →
  (select_images_for_review rc now t seed subject count s).1 = Raise ValueError.
Proof.
  intros Hrc He Hnd Hh Hne Hneg.
  destruct (select_run rc now t seed subject count s entries Hrc He Hnd
              (healthy_all _ _ Hh)) as (r & -> & _ & _ & Hraise).
  by apply Hraise.
Qed.


(** An interval that "blur" has multiplied past the range eventually
    pushes the next review beyond [datetime.max]: from then on every
    selection in the subject raises. *)
Example repeated_blur_breaks_selection :
  let s := run_feedback decimal_isoformat blur_calls sample_state in
  (∃ i, review_intervals s !! "S001/c.gif"%string = Some (Finite i) ∧ (3000000 < i)%Q)
  ∧ (select_images_for_review first_fit_choice sample_now sample_tree 7 "S001" 2 s).1
    = Raise OverflowError.
Proof.
  split; [|by vm_compute].
  eexists. split; [by vm_compute|]. by vm_compute.
Qed.

(** ** Persistence (C6, C7, C9) *)

Lemma parse_serialise iso fromiso v :
  iso_contract iso fromiso → settled fromiso v →
  parse_stamp fromiso (serialise_stamp iso v) = v.
Proof.
  intros Hiso Hv. destruct v as [|t|text]; cbn; [done|by rewrite Hiso|].
  by rewrite (Hv text).
Qed.

Lemma load_document_serialise iso fromiso s s0 :
  iso_contract iso fromiso →
  map_Forall (fun _ => settled fromiso) (last_reviewed s) →
  let s' := load_document fromiso (serialise iso s) s0 in
  weights s' = weights s ∧ last_reviewed s' = last_reviewed s
  ∧ review_intervals s' = review_intervals s.
Proof.
  intros Hiso Hs. cbn. repeat split.
  rewrite <- map_fmap_compose. rewrite <- (map_fmap_id (last_reviewed s)) at 2.
  apply map_fmap_ext. intros key v Hv. cbn. apply (parse_serialise iso); [done|].
  by apply (Hs key).
Qed.

(** C6.  Whatever the store holds, the bounds 0.1, 10.0 and 30.0 and a
    last-reviewed [None] included, a process that loads the file written by
    [save_weights] holds the same weight, the same last-reviewed entry and
    the same interval under every key; a review time comes back through
    its ISO-8601 string unchanged. *)
Theorem save_then_load_round_trip
    (isoformat : datetime → string) (fromisoformat : string → option datetime)
    (s fresh : state) :
  iso_contract isoformat fromisoformat →
  map_Forall (fun _ => settled fromisoformat) (last_reviewed s) →
  let saved := save_weights isoformat Written s in
  let loaded := load_weights fromisoformat (set_disk (disk saved.2) fresh) in
  saved.1 = Ok tt
  ∧ loaded.1 = Ok tt
  ∧ weights loaded.2 = weights s
  ∧ last_reviewed loaded.2 = last_reviewed s
  ∧ review_intervals loaded.2 = review_intervals s
  ∧ ∀ key, item_of loaded.2 key = item_of s key.
Proof.
  intros Hiso Hs. cbn zeta.
  unfold save_weights, try_except, load_weights. run_M.
  destruct (load_document_serialise isoformat fromisoformat s (set_disk
              (Holds (Document (serialise isoformat s))) fresh) Hiso Hs) as (Hw & Hl & Hi).
  repeat split; try done.
  intros key. unfold item_of. by rewrite Hw, Hl, Hi.
Qed.

Lemma save_then_load_round_trip_witness :
  item_of (load_weights decimal_fromisoformat
             (set_disk (disk (save_weights decimal_isoformat Written sample_state).2)
                empty_state)).2 "S001/a.png"
  = (Finite 0.1, At (sample_now - 2 * us_per_day)%Z, Finite 30).
Proof.
  refine (eq_trans (proj2 (proj2 (proj2 (proj2 (proj2
    (save_then_load_round_trip decimal_isoformat decimal_fromisoformat sample_state
       empty_state decimal_iso_contract _))))) "S001/a.png"%string) _).
  - apply map_Forall_insert_2; [done|]. by apply map_Forall_singleton.
  - by vm_compute.
Defined.

(** C7.  A weights file that is missing, unreadable, empty, not valid
    JSON or not a JSON object is loaded as the empty store: the three
    mappings are empty, the call returns normally, and one line is
    printed. *)
Theorem unusable_file_loads_empty
    (fromisoformat : string → option datetime) (s : state) :
  disk s ∈ unusable →
  let out := load_weights fromisoformat s in
  out.1 = Ok tt
  ∧ weights out.2 = ∅
  ∧ last_reviewed out.2 = ∅
  ∧ review_intervals out.2 = ∅
  ∧ subject_mapping out.2 = []
  ∧ disk out.2 = disk s
  ∧ ∃ n, stdout out.2 = stdout s ++ [n].
Proof.
  intros H. cbn zeta. unfold unusable in H.
  repeat (apply elem_of_cons in H as [E|H]); [..|by apply elem_of_nil in H];
  unfold load_weights; run_M; rewrite E; cbn; rewrite ?E; repeat split; by eexists.
Qed.

Lemma unusable_file_loads_empty_witness :
  let out := load_weights decimal_fromisoformat (set_disk (Holds Malformed) sample_state) in
  out.1 = Ok tt
  ∧ weights out.2 = ∅
  ∧ last_reviewed out.2 = ∅
  ∧ review_intervals out.2 = ∅
  ∧ subject_mapping out.2 = []
  ∧ disk out.2 = Holds Malformed
  ∧ ∃ n, stdout out.2 = [] ++ [n].
Proof.
  apply (unusable_file_loads_empty decimal_fromisoformat
           (set_disk (Holds Malformed) sample_state)).
  cbn. unfold unusable. by repeat constructor.
Defined.

Lemma load_weights_returns fromiso s : (load_weights fromiso s).1 = Ok tt.
Proof.
  unfold load_weights. run_M. by destruct (disk s) as [| |[| | |d]].
Qed.

Lemma save_weights_run iso io s :
  save_weights iso io s
  = (Ok tt,
     match io with
     | Written => set_disk (Holds (Document (serialise iso s))) s
     | Refused => print SaveError s
     | Interrupted => print SaveError (set_disk (Holds Malformed) s)
     end).
Proof. by destruct io. Qed.

Lemma api_update_weight_run iso now io req s :
  api_update_weight iso now io req s
  = match memory_after_request now req s with
    | Some s' => (Ok Success, (save_weights iso io s').2)
    | None => (Ok Incomplete, s)
    end.
Proof.
  unfold api_update_weight, memory_after_request.
  destruct (req_image_key req) as [image_key|]; [|done].
  destruct (negb (String.eqb image_key "")); [|done]. cbn [andb].
  destruct (truthy (req_familiarity req)) eqn:Ef; cbn [orb].
  - run_M. by rewrite update_weight_run, save_weights_run.
  - destruct (req_weight req) as [w|]; [|done]. cbn. run_M.
    by rewrite save_weights_run.
Qed.

Lemma memory_after_request_frame now req s s' :
  memory_after_request now req s = Some s' →
  stdout s' = stdout s ∧ disk s' = disk s ∧ subject_mapping s' = subject_mapping s.
Proof.
  unfold memory_after_request.
  destruct (req_image_key req) as [image_key|]; [|done].
  destruct (_ && _); [|done].
  destruct (truthy _); [by intros [= <-]|].
  destruct (req_weight req); [by intros [= <-]|done].
Qed.

(** C9, as the code has it.  When the write fails, [save_weights] prints
    the error and returns normally: the caller of [api_update_weight] gets
    the same response as after a successful write, success included, the
    store in memory is the updated one, and the file is left as it was or
    truncated. *)
Theorem write_failure_is_only_printed
    (isoformat : datetime → string) (now : datetime) (io : write_outcome)
    (req : request) (s : state) :
  io ≠ Written →
  let out := api_update_weight isoformat now io req s in
  let ok := api_update_weight isoformat now Written req s in
  out.1 = ok.1
  ∧ weights out.2 = weights ok.2
  ∧ last_reviewed out.2 = last_reviewed ok.2
  ∧ review_intervals out.2 = review_intervals ok.2
  ∧ (out.1 = Ok Success →
       stdout out.2 = stdout s ++ [SaveError]
       ∧ disk out.2 = match io with Interrupted => Holds Malformed | _ => disk s end).
Proof.
  intros Hio. cbn zeta. rewrite !api_update_weight_run.
  destruct (memory_after_request now req s) as [s'|] eqn:Es'; [|done].
  cbn [fst snd].
  destruct (save_weights_memory isoformat io s') as (-> & -> & -> & _).
  destruct (save_weights_memory isoformat Written s') as (-> & -> & -> & _).
  destruct (memory_after_request_frame _ _ _ _ Es') as (Hout & Hdisk & _).
  repeat split; try done; rewrite save_weights_run; by destruct io; cbn; rewrite ?Hout, ?Hdisk.
Qed.

Lemma write_failure_is_only_printed_witness :
  let out := api_update_weight decimal_isoformat sample_now Refused
               (feedback_request "S001/a.png" "familiar") sample_state in
  let ok := api_update_weight decimal_isoformat sample_now Written
              (feedback_request "S001/a.png" "familiar") sample_state in
  out.1 = ok.1
  ∧ weights out.2 = weights ok.2
  ∧ last_reviewed out.2 = last_reviewed ok.2
  ∧ review_intervals out.2 = review_intervals ok.2
  ∧ (out.1 = Ok Success →
       stdout out.2 = stdout sample_state ++ [SaveError]
       ∧ disk out.2 = disk sample_state).
Proof.
  apply (write_failure_is_only_printed decimal_isoformat sample_now Refused
           (feedback_request "S001/a.png" "familiar") sample_state).
  discriminate.
Defined.

(** The failure signal of the specification does not exist: the write is
    refused, nothing reaches the file, and the response is still the
    success response. *)
Lemma refused_write_answers_success :
  let out := api_update_weight decimal_isoformat sample_now Refused
               (feedback_request "S001/a.png" "familiar") sample_state in
  out.1 = Ok Success
  ∧ disk out.2 = disk sample_state
  ∧ stdout out.2 = [SaveError]
  ∧ last_reviewed out.2 !! "S001/a.png"%string = Some (At sample_now).
Proof. by vm_compute. Qed.


(** ** What changes an item (C10) *)

Lemma readonly_ret {A} (a : A) : readonly (mret a).
Proof. done. Qed.

Lemma readonly_gets {A} (f : state → A) : readonly (gets f).
Proof. done. Qed.

Lemma readonly_lift {A} (r : result A) : readonly (lift r).
Proof. done. Qed.

Lemma readonly_bind {A B} (m : M A) (k : A → M B) :
  readonly m → (∀ a, readonly (k a)) → readonly (m ≫= k).
Proof.
  intros Hm Hk s. unfold mbind, M_bind. specialize (Hm s).
  destruct (m s) as [[a|e] s1]; cbn in *; subst; [apply Hk|done].
Qed.

Lemma readonly_mapM {A B} (f : A → M B) l :
  (∀ a, readonly (f a)) → readonly (mapM f l).
Proof.
  intros Hf. induction l as [|a l IH]; [done|]. cbn [mapM].
  apply readonly_bind; [done|]. intros b.
  apply readonly_bind; [done|]. intros k. done.
Qed.

Lemma readonly_listdir t name : readonly (listdir t name).
Proof. apply readonly_lift. Qed.

Lemma readonly_priority_of now img : readonly (priority_of now img).
Proof. intros s. by rewrite priority_of_run. Qed.

Lemma readonly_get_images t subject : readonly (get_images_for_subject t subject).
Proof.
  apply readonly_bind; [apply readonly_listdir|]. intros files.
  apply readonly_bind; [apply readonly_gets|]. intros w. done.
Qed.

Lemma readonly_select rc now t seed subject count :
  readonly (select_images_for_review rc now t seed subject count).
Proof.
  apply readonly_bind; [apply readonly_get_images|]. intros [|img images]; [done|].
  apply readonly_bind; [apply readonly_mapM, readonly_priority_of|]. intros priorities.
  apply readonly_bind; [apply readonly_lift|]. intros probabilities.
  apply readonly_bind; [apply readonly_lift|]. intros idx.
  apply readonly_lift.
Qed.

Lemma readonly_get_all_files t subject : readonly (get_all_files_for_subject t subject).
Proof.
  apply readonly_bind; [apply readonly_gets|]. intros mapping.
  apply readonly_bind; [apply readonly_listdir|]. intros files.
  apply readonly_bind; [apply readonly_gets|]. intros w. done.
Qed.

Lemma readonly_api_get_weights t subject_name : readonly (api_get_weights t subject_name).
Proof.
  apply readonly_bind; [apply readonly_gets|]. intros mapping.
  apply readonly_bind; [apply readonly_get_all_files|]. intros files.
  apply readonly_bind; [apply readonly_gets|]. intros w. done.
Qed.

Lemma kept_or_created_refl {A} (d : A) m key : kept_or_created d m m key.
Proof. by left. Qed.

Lemma kept_or_created_setdefault {A} (d : A) m k key :
  kept_or_created d m (setdefault k d m) key.
Proof.
  unfold kept_or_created, setdefault.
  destruct (m !! k) eqn:E; [by left|].
  destruct (decide (k = key)) as [->|Hne].
  - right. by rewrite lookup_insert_eq.
  - left. by rewrite lookup_insert_ne.
Qed.

Lemma kept_or_created_trans {A} (d : A) m1 m2 m3 key :
  kept_or_created d m1 m2 key → kept_or_created d m2 m3 key → kept_or_created d m1 m3 key.
Proof.
  unfold kept_or_created. intros [H1|[H1 H1']] [H2|[H2 H2']].
  - left. congruence.
  - right. split; congruence.
  - right. split; congruence.
  - congruence.
Qed.

Lemma items_kept_refl s : items_kept s s.
Proof. intros key. repeat split; apply kept_or_created_refl. Qed.

Lemma items_kept_trans s1 s2 s3 : items_kept s1 s2 → items_kept s2 s3 → items_kept s1 s3.
Proof.
  intros H12 H23 key. destruct (H12 key) as (?&?&?), (H23 key) as (?&?&?).
  repeat split; by eapply kept_or_created_trans.
Qed.

Lemma items_kept_init_item k s : items_kept s (init_item k s).
Proof. intros key. repeat split; apply kept_or_created_setdefault. Qed.

Lemma items_kept_scan keys : ∀ s,
  items_kept s (fold_left (fun s key => init_item key s) keys s).
Proof.
  induction keys as [|k keys IH]; intros s; [apply items_kept_refl|].
  cbn [fold_left]. eapply items_kept_trans; [apply items_kept_init_item|apply IH].
Qed.

Lemma items_kept_item_of s s' key : items_kept s s' → item_of s' key = item_of s key.
Proof.
  intros H. destruct (H key) as (Hw & Hl & Hi). unfold item_of.
  destruct Hw as [->|[-> ->]], Hl as [->|[-> ->]], Hi as [->|[-> ->]]; done.
Qed.

Lemma items_kept_save iso io s : items_kept s (save_weights iso io s).2.
Proof.
  destruct (save_weights_memory iso io s) as (Hw & Hl & Hi & _).
  intros key. rewrite Hw, Hl, Hi. repeat split; apply kept_or_created_refl.
Qed.

Lemma perform_quiet iso rc op s :
  records_feedback op = false → raw_weight_of op = None →
  items_kept s (perform iso rc op s).2
  ∧ match op with
    | Review _ _ _ _ _ | GetWeights _ _ => (perform iso rc op s).2 = s
    | _ => True
    end.
Proof.
  intros Hrec Hraw.
  destruct op as [now t seed subject count|t subject_name|t io|now io req]; cbn [perform].
  - assert (((select_images_for_review rc now t seed subject count
                ≫= fun images => mret (Images images)) s).2 = s) as ->.
    { apply (readonly_bind _ _ (readonly_select _ _ _ _ _ _)). by intros. }
    split; [apply items_kept_refl|done].
  - assert (((api_get_weights t subject_name
                ≫= fun table => mret (Weights table)) s).2 = s) as ->.
    { apply (readonly_bind _ _ (readonly_api_get_weights _ _)). by intros. }
    split; [apply items_kept_refl|done].
  - split; [|done]. unfold scan_subjects. run_M.
    rewrite save_weights_run. cbn [snd].
    eapply items_kept_trans; [apply items_kept_scan|].
    match goal with |- items_kept ?a _ =>
      pose proof (items_kept_save iso io a) as H; by rewrite save_weights_run in H end.
  - split; [|done]. unfold mbind, M_bind. rewrite api_update_weight_run.
    assert (memory_after_request now req s = None) as ->; [|apply items_kept_refl].
    unfold memory_after_request. cbn in Hrec, Hraw.
    destruct (req_image_key req) as [image_key|]; [|done].
    destruct (negb (String.eqb image_key "")); [|done]. cbn [andb] in *.
    rewrite Hrec in *. cbn [negb orb] in *. by rewrite Hraw.
Qed.

Lemma perform_raw_weight iso rc op s weight :
  raw_weight_of op = Some weight →
  ∃ key,
    weights (perform iso rc op s).2 = <[key := weight]> (weights s)
    ∧ last_reviewed (perform iso rc op s).2 = last_reviewed s
    ∧ review_intervals (perform iso rc op s).2 = review_intervals s.
Proof.
  destruct op as [| | |now io req]; try done. cbn [raw_weight_of perform].
  intros Hraw. unfold mbind, M_bind. rewrite api_update_weight_run.
  unfold memory_after_request.
  destruct (req_image_key req) as [image_key|]; [|done].
  destruct (negb (String.eqb image_key "")); [|done]. cbn [andb] in *.
  destruct (truthy (req_familiarity req)); [done|]. cbn [negb orb] in *.
  rewrite Hraw. cbn.
  exists (encode_key (subject_mapping s) image_key).
  match goal with |- context [save_weights iso io ?a] =>
    destruct (save_weights_memory iso io a) as (Hw & Hl & Hi & _) end.
  cbn [snd]. by rewrite Hw, Hl, Hi.
Qed.

(** C10, as the code has it.  Of the requests served once the object is
    built, the ones that do not reach [update_weight] never change an
    interval or a last-reviewed entry: each is what it was or has just
    been created with its default.  The same holds of the weights, with
    one exception: the set-raw-weight branch of [api_update_weight]
    overwrites the weight of one key with the weight it is given.  A review
    selection and the read accessor leave the whole object untouched. *)
Theorem only_feedback_and_raw_weight_change_items
    (isoformat : datetime → string)
    (random_choice : N → nat → Z → list pyfloat → result (list nat))
    (op : operation) (s : state) :
  records_feedback op = false →
  let s' := (perform isoformat random_choice op s).2 in
  (∀ key, kept_or_created Never (last_reviewed s) (last_reviewed s') key
          ∧ kept_or_created one (review_intervals s) (review_intervals s') key)
  ∧ match raw_weight_of op with
    | Some weight => ∃ key, weights s' = <[key := weight]> (weights s)
    | None =>
        (∀ key, kept_or_created one (weights s) (weights s') key)
        ∧ (∀ key, item_of s' key = item_of s key)
    end
  ∧ match op with
    | Review _ _ _ _ _ | GetWeights _ _ => s' = s
    | _ => True
    end.
Proof.
  intros Hrec. cbn zeta.
  destruct (raw_weight_of op) as [weight|] eqn:Hraw.
  - destruct (perform_raw_weight isoformat random_choice op s weight Hraw)
      as (key & Hw & -> & ->).
    split; [by intros; split; apply kept_or_created_refl|].
    split; [by exists key|]. by destruct op.
  - destruct (perform_quiet isoformat random_choice op s Hrec Hraw) as [Hkept Hsame].
    split; [intros key; by destruct (Hkept key) as (_ & ? & ?)|].
    split; [|done]. split.
    + intros key. by destruct (Hkept key) as (? & _).
    + intros key. by apply items_kept_item_of.
Qed.

Lemma only_feedback_and_raw_weight_change_items_witness :
  let s' := (perform decimal_isoformat first_fit_choice (Rescan sample_tree Written)
               sample_state).2 in
  item_of s' "S001/a.png" = item_of sample_state "S001/a.png"
  ∧ item_of s' "S001/c.gif" = (one, Never, one).
Proof.
  destruct (only_feedback_and_raw_weight_change_items decimal_isoformat first_fit_choice
              (Rescan sample_tree Written) sample_state) as (_ & (_ & Hitem) & _);
    [reflexivity|].
  cbn zeta. by rewrite !Hitem.
Defined.

(** [update_weight] is not the only place where a weight changes: a
    request that carries a weight and no familiarity never reaches it, and
    changes the weight of an existing item. *)
Lemma raw_weight_changes_an_item :
  let op := Feedback sample_now Written (raw_weight_request "S001/a.png" (Finite 100)) in
  let s' := (perform decimal_isoformat first_fit_choice op sample_state).2 in
  records_feedback op = false
  ∧ item_of sample_state "S001/a.png"
    = (Finite 0.1, At (sample_now - 2 * us_per_day)%Z, Finite 30)
  ∧ item_of s' "S001/a.png"
    = (Finite 100, At (sample_now - 2 * us_per_day)%Z, Finite 30).
Proof. by vm_compute. Qed.

(** * Further properties of the program *)

(** ** Keys and subject codes *)

Lemma split_once_image_key_of a b :
  no_slash a = true → split_once (image_key_of a b) = Some (a, b).
Proof.
  unfold image_key_of. induction a as [|c a IH]; intros Ha; [done|].
  cbn in Ha. apply andb_true_iff in Ha as [Hc Ha]. apply negb_true_iff in Hc.
  change (split_once (String c (a +:+ "/" +:+ b)) = Some (String c a, b)).
  cbn [split_once]. rewrite Hc. by rewrite IH.
Qed.

Lemma split_once_Some s : ∀ a b,
  split_once s = Some (a, b) → s = image_key_of a b ∧ no_slash a = true.
Proof.
  unfold image_key_of. induction s as [|c s IH]; intros a b; [done|]. cbn.
  destruct (Ascii.eqb c "/") eqn:Ec.
  - intros [= <- <-]. apply Ascii.eqb_eq in Ec as ->. done.
  - destruct (split_once s) as [[a' b']|]; [|done]. intros [= <- <-].
    destruct (IH a' b' eq_refl) as [-> Ha]. cbn [no_slash]. by rewrite Ec.
Qed.

(** X1.  [split('/', 1)] undoes the f-string that builds an image key:
    a key splits into a subject and a file name exactly when it is
    [subject/file] for a subject without slash. *)
Theorem split_once_inverts_image_key (s a b : string) :
  split_once s = Some (a, b) ↔ s = image_key_of a b ∧ no_slash a = true.
Proof.
  split; [apply split_once_Some|]. intros [-> Ha]. by apply split_once_image_key_of.
Qed.

Lemma find_encoded_elem_of mapping subject code :
  find_encoded mapping subject = Some code → (code, subject) ∈ mapping.
Proof.
  induction mapping as [|[e o] mapping IH]; [done|]. cbn.
  destruct (String.eqb o subject) eqn:E.
  - intros [= ->]. apply String.eqb_eq in E as ->. by left.
  - intros H. right. by apply IH.
Qed.

Lemma encode_key_of_encoded mapping code file :
  looks_encoded code = true → no_slash code = true →
  encode_key mapping (image_key_of code file) = image_key_of code file.
Proof.
  intros Hc Hs. unfold encode_key. rewrite split_once_image_key_of by done.
  unfold looks_encoded in Hc. apply andb_true_iff in Hc as [-> ->]. done.
Qed.

(** X2.  Encoding a key twice is encoding it once, as long as every code
    of the mapping is of the form [api_update_weight] recognises (an ['S']
    and three more characters, no slash). *)
Theorem encode_key_idempotent (mapping : list (string * string)) (image_key : string) :
  forallb (fun entry => looks_encoded entry.1 && no_slash entry.1) mapping = true →
  encode_key mapping (encode_key mapping image_key) = encode_key mapping image_key.
Proof.
  intros Hm. unfold encode_key at 2 3.
  destruct (split_once image_key) as [[subject file]|] eqn:Es; [|by unfold encode_key; rewrite Es].
  destruct (negb (startswith_S subject) || negb (String.length subject =? 4)%nat) eqn:Et;
    [|by unfold encode_key; rewrite Es, Et].
  destruct (find_encoded mapping subject) as [code|] eqn:Ec;
    [|by unfold encode_key; rewrite Es, Et, Ec].
  apply find_encoded_elem_of, list_elem_of_In in Ec.
  rewrite forallb_forall in Hm. specialize (Hm _ Ec). cbn in Hm.
  apply andb_true_iff in Hm as [Hl Hs]. by apply encode_key_of_encoded.
Qed.

Lemma encode_key_idempotent_witness :
  encode_key [("S000", "maths"); ("S001", "physics")]%string
    (encode_key [("S000", "maths"); ("S001", "physics")]%string "physics/notes.png")
  = "S001/notes.png"%string.
Proof.
  rewrite (encode_key_idempotent [("S000", "maths"); ("S001", "physics")]%string
             "physics/notes.png" eq_refl).
  reflexivity.
Defined.

Lemma dict_get_elem_of {A} (d : list (string * A)) key v :
  NoDup (map fst d) → (key, v) ∈ d → dict_get d key = Some v.
Proof.
  induction d as [|[k x] d IH]; intros Hnd Hin; [by apply elem_of_nil in Hin|].
  cbn in *. apply NoDup_cons in Hnd as [Hk Hnd].
  apply elem_of_cons in Hin as [[= -> ->]|Hin]; [by rewrite String.eqb_refl|].
  destruct (String.eqb k key) eqn:E; [|by apply IH].
  apply String.eqb_eq in E as ->. exfalso. apply Hk.
  apply list_elem_of_In, in_map_iff. exists (key, v). split; [done|by apply list_elem_of_In].
Qed.

(** X3.  [decode_subject_name] inverts the lookup of a subject's code:
    the code the mapping gives for a subject decodes to that subject (the
    codes, keys of a dict, being distinct), and a name that is no code
    decodes to itself. *)
Theorem decode_inverts_code_lookup (s : state) (subject code name : string) :
  NoDup (map fst (subject_mapping s)) →
  (find_encoded (subject_mapping s) subject = Some code →
   decode_subject_name code s = (Ok subject, s))
  ∧ (dict_get (subject_mapping s) name = None →
     decode_subject_name name s = (Ok name, s)).
Proof.
  intros Hnd. unfold decode_subject_name. run_M. split.
  - intros Hc. apply find_encoded_elem_of in Hc.
    by rewrite (dict_get_elem_of _ _ _ Hnd Hc).
  - by intros ->.
Qed.

Lemma decode_inverts_code_lookup_witness :
  decode_subject_name "S001" sample_state = (Ok "maths"%string, sample_state).
Proof.
  refine (proj1 (decode_inverts_code_lookup sample_state "maths" "S001" "" _) _).
  - apply (bool_decide_unpack (NoDup _)). by vm_compute.
  - reflexivity.
Defined.

(** ** Requests to [api_update_weight] *)


(** X5.  When a request carries both a familiarity and a weight, the
    weight is ignored: the request is handled as feedback. *)
Theorem familiarity_overrides_weight
    (isoformat : datetime → string) (now : datetime) (io : write_outcome)
    (key familiarity : string) (weight : pyfloat) (s : state) :
  familiarity ≠ ""%string →
  api_update_weight isoformat now io
    {| req_image_key := Some key; req_familiarity := Some familiarity;
       req_weight := Some weight |} s
  = api_update_weight isoformat now io (feedback_request key familiarity) s.
Proof.
  intros Hf. rewrite !api_update_weight_run. unfold memory_after_request, feedback_request.
  cbn [req_image_key req_familiarity req_weight].
  assert (truthy (Some familiarity) = true) as ->.
  { cbn. by apply negb_true_iff, String.eqb_neq. }
  cbn [orb]. by rewrite !andb_true_r.
Qed.

Lemma familiarity_overrides_weight_witness :
  api_update_weight decimal_isoformat sample_now Written
    {| req_image_key := Some "S001/a.png"%string; req_familiarity := Some "blur"%string;
       req_weight := Some (Finite 7) |} sample_state
  = api_update_weight decimal_isoformat sample_now Written
      (feedback_request "S001/a.png" "blur") sample_state.
Proof.
  apply (familiarity_overrides_weight decimal_isoformat sample_now Written
           "S001/a.png" "blur" (Finite 7) sample_state).
  discriminate.
Defined.

(** ** What a selection reads *)

Lemma insert_desc_ext f g x l :
  f x = g x → (∀ y, y ∈ l → f y = g y) → insert_desc f x l = insert_desc g x l.
Proof.
  intros Hx. induction l as [|y l IH]; intros Hl; [done|]. cbn.
  rewrite Hx, (Hl y) by by left. destruct (_ <? _)%py; [|done].
  f_equal. apply IH. intros z Hz. apply Hl. by right.
Qed.

Lemma sort_desc_ext f g l :
  (∀ x, x ∈ l → f x = g x) → sort_desc f l = sort_desc g l.
Proof.
  induction l as [|x l IH]; intros Hl; [done|].
  change (insert_desc f x (sort_desc f l) = insert_desc g x (sort_desc g l)).
  rewrite <- IH by (intros y Hy; apply Hl; by right).
  apply insert_desc_ext; [apply Hl; by left|].
  intros y Hy. apply Hl. right. by rewrite <- (sort_desc_perm f l).
Qed.

Lemma item_of_weight s s' key :
  item_of s' key = item_of s key →
  default one (weights s' !! key) = default one (weights s !! key).
Proof. unfold item_of. by intros [= -> _ _]. Qed.

Lemma bind_readonly {A B} (m : M A) (k : A → M B) s :
  readonly m →
  (m ≫= k) s = match (m s).1 with
               | Ok a => k a s
               | Raise e => (Raise e, s)
               end.
Proof.
  intros Hm. unfold mbind, M_bind. specialize (Hm s).
  destruct (m s) as [[a|e] s1]; cbn in *; by subst.
Qed.

Lemma priorities_ext now images s s' :
  (∀ img, img ∈ images → item_of s' img = item_of s img) →
  (mapM (priority_of now) images s').1 = (mapM (priority_of now) images s).1.
Proof.
  induction images as [|img images IH]; intros H; [done|].
  cbn [mapM].
  rewrite !(bind_readonly (priority_of now img)) by apply readonly_priority_of.
  rewrite !priority_of_run, (H img) by by left. cbn [fst].
  destruct (raw_priority _ _ _ _) as [p|e]; [|done].
  rewrite !(bind_readonly (mapM (priority_of now) images))
    by apply readonly_mapM, readonly_priority_of.
  rewrite IH by (intros; apply H; by right).
  by destruct (mapM (priority_of now) images s).1.
Qed.

Lemma get_images_ext t subject s s' :
  (∀ file, item_of s' (image_key_of subject file) = item_of s (image_key_of subject file)) →
  (get_images_for_subject t subject s').1 = (get_images_for_subject t subject s).1.
Proof.
  intros H. unfold get_images_for_subject, listdir. run_M.
  destruct (entries_of t subject) as [files|e]; [|done]. cbn [fst]. f_equal.
  apply sort_desc_ext. intros x Hx. apply list_elem_of_In, in_map_iff in Hx as (f & <- & _).
  apply item_of_weight, H.
Qed.

Lemma get_images_keys t subject s images img :
  (get_images_for_subject t subject s).1 = Ok images → img ∈ images →
  ∃ file, img = image_key_of subject file.
Proof.
  unfold get_images_for_subject, listdir. run_M.
  destruct (entries_of t subject) as [files|e]; [|done]. cbn [fst]. intros [= <-] Hin.
  rewrite sort_desc_perm in Hin.
  apply list_elem_of_In, in_map_iff in Hin as (f & <- & _). by exists f.
Qed.

Lemma select_ext rc now t seed subject count s s' :
  (∀ file, item_of s' (image_key_of subject file) = item_of s (image_key_of subject file)) →
  (select_images_for_review rc now t seed subject count s').1
  = (select_images_for_review rc now t seed subject count s).1.
Proof.
  intros H. unfold select_images_for_review.
  rewrite !(bind_readonly (get_images_for_subject t subject)) by apply readonly_get_images.
  rewrite (get_images_ext t subject s s' H).
  destruct (get_images_for_subject t subject s).1 as [images|e] eqn:Ei; [|done].
  destruct images as [|img0 images'] eqn:E; [done|]. rewrite <- E in *. clear E.
  rewrite !(bind_readonly (mapM (priority_of now) images))
    by apply readonly_mapM, readonly_priority_of.
  rewrite (priorities_ext now images s s').
  2:{ intros img Hin. destruct (get_images_keys _ _ _ _ _ Ei Hin) as [f ->]. apply H. }
  destruct (mapM (priority_of now) images s).1 as [priorities|]; [|done].
  unfold mbind, M_bind, lift.
  destruct (normalise priorities); [|done].
  by destruct (rc _ _ _ _).
Qed.

(** X6.  A selection reads the store only at the keys [subject/file] of
    the subject it is given: two stores that agree on the items under
    those keys give the same result, sample or exception. *)
Theorem selection_reads_only_its_subject
    (random_choice : N → nat → Z → list pyfloat → result (list nat))
    (now : datetime) (t : tree) (seed : N) (subject : string) (count : Z)
    (s s' : state) :
  (∀ file, item_of s' (image_key_of subject file) = item_of s (image_key_of subject file)) →
  (select_images_for_review random_choice now t seed subject count s').1
  = (select_images_for_review random_choice now t seed subject count s).1.
Proof. apply select_ext. Qed.

Lemma image_key_of_inj2 a b a' b' :
  no_slash a = true → no_slash a' = true →
  image_key_of a b = image_key_of a' b' → a = a' ∧ b = b'.
Proof.
  intros Ha Ha' H. apply (split_once_image_key_of a b) in Ha.
  apply (split_once_image_key_of a' b') in Ha'. rewrite H in Ha.
  rewrite Ha in Ha'. by injection Ha'.
Qed.

Lemma encode_key_of_directory mapping subject file code :
  no_slash subject = true → looks_encoded subject = false →
  find_encoded mapping subject = Some code →
  encode_key mapping (image_key_of subject file) = image_key_of code file.
Proof.
  intros Hs Hl Hc. unfold encode_key. rewrite split_once_image_key_of by done.
  unfold looks_encoded in Hl. apply andb_false_iff in Hl.
  rewrite Hc. by destruct Hl as [->| ->]; rewrite ?orb_true_r.
Qed.

Lemma image_key_of_nonempty a b : image_key_of a b ≠ ""%string.
Proof. unfold image_key_of. by destruct a. Qed.

(** X7.  Feedback sent under a directory name that has a code is stored
    under the code: the three entries of [code/file] are updated, no item
    [subject/...] of the directory changes, and so every later selection
    for that directory is what it would have been without the feedback. *)
Theorem feedback_under_directory_name_is_invisible
    (isoformat : datetime → string)
    (random_choice : N → nat → Z → list pyfloat → result (list nat))
    (now : datetime) (io : write_outcome)
    (subject file familiarity code : string) (s : state) :
  no_slash subject = true →
  looks_encoded subject = false →
  familiarity ≠ ""%string →
  find_encoded (subject_mapping s) subject = Some code →
  no_slash code = true →
  code ≠ subject →
  let out := api_update_weight isoformat now io
               (feedback_request (image_key_of subject file) familiarity) s in
  out.1 = Ok Success
  ∧ last_reviewed out.2 !! image_key_of code file = Some (At now)
  ∧ (∀ file', item_of out.2 (image_key_of subject file')
              = item_of s (image_key_of subject file'))
  ∧ ∀ now' t seed count,
      (select_images_for_review random_choice now' t seed subject count out.2).1
      = (select_images_for_review random_choice now' t seed subject count s).1.
Proof.
  intros Hs Hl Hf Hc Hcs Hne. cbn zeta. rewrite api_update_weight_run.
  unfold memory_after_request, feedback_request.
  cbn [req_image_key req_familiarity req_weight].
  assert (truthy (Some familiarity) = true) as ->.
  { cbn. by apply negb_true_iff, String.eqb_neq. }
  assert (String.eqb (image_key_of subject file) "" = false) as ->.
  { apply String.eqb_neq, image_key_of_nonempty. }
  cbn [negb andb orb fst snd].
  rewrite (encode_key_of_directory _ _ _ _ Hs Hl Hc).
  set (m := after_feedback now (image_key_of code file) (Some familiarity) s).
  destruct (save_weights_memory isoformat io m) as (Hw & Hlr & Hi & _).
  assert (∀ file', item_of (save_weights isoformat io m).2 (image_key_of subject file')
                   = item_of s (image_key_of subject file')) as Hitems.
  { intros file'. unfold item_of. rewrite Hw, Hlr, Hi. unfold m, after_feedback, item_of.
    cbn [weights last_reviewed review_intervals].
    assert (image_key_of code file ≠ image_key_of subject file') as Hk.
    { intros H. by apply image_key_of_inj2 in H as [? _]. }
    by rewrite !lookup_insert_ne. }
  split; [done|]. split; [|split; [done|]].
  - rewrite Hlr. unfold m, after_feedback, item_of. cbn [last_reviewed].
    by rewrite lookup_insert_eq.
  - intros. by apply select_ext.
Qed.

Lemma feedback_under_directory_name_is_invisible_witness :
  let s := set_disk Missing
             {| weights := ∅; last_reviewed := ∅; review_intervals := ∅;
                subject_mapping := [("S000", "maths")]%string;
                disk := Missing; stdout := [] |} in
  let out := api_update_weight decimal_isoformat sample_now Written
               (feedback_request (image_key_of "maths" "a.png") "strange") s in
  last_reviewed out.2 !! image_key_of "S000" "a.png" = Some (At sample_now)
  ∧ item_of out.2 (image_key_of "maths" "a.png") = (one, Never, one).
Proof.
  cbn zeta.
  destruct (feedback_under_directory_name_is_invisible decimal_isoformat first_fit_choice
              sample_now Written "maths" "a.png" "strange" "S000"
              (set_disk Missing
                 {| weights := ∅; last_reviewed := ∅; review_intervals := ∅;
                    subject_mapping := [("S000", "maths")]%string;
                    disk := Missing; stdout := [] |}))
    as (_ & Hlr & Hitem & _); [done..|].
  split; [exact Hlr|]. by rewrite Hitem.
Defined.

Lemma selection_reads_only_its_subject_witness :
  (select_images_for_review first_fit_choice sample_now sample_tree 7 "S001" 2
     (set_weights <["S002/z.png" := Finite 5]> sample_state)).1
  = (select_images_for_review first_fit_choice sample_now sample_tree 7 "S001" 2
       sample_state).1.
Proof.
  apply (selection_reads_only_its_subject first_fit_choice sample_now sample_tree 7
           "S001" 2 sample_state (set_weights <["S002/z.png" := Finite 5]> sample_state)).
  intros file. unfold item_of. cbn [weights last_reviewed review_intervals set_weights].
  rewrite lookup_insert_ne; [done|].
  intros H. by apply (image_key_of_inj2 "S002" "z.png" "S001" file) in H as [? _].
Defined.

(** ** Listings and scans *)

Lemma not_ltb_trans a b c :
  isnan b = false → (a <? b)%py = false → (b <? c)%py = false → (a <? c)%py = false.
Proof.
  destruct a, b, c; try (cbn; done). intros _ H1 H2.
  float_props. lra.
Qed.

Lemma insert_desc_sorted key x l :
  (∀ y, y ∈ l → isnan (key y) = false) →
  descending key l → descending key (insert_desc key x l).
Proof.
  intros Hnan. induction l as [|y rest IH]; cbn [insert_desc descending].
  - done.
  - intros [Hy Hs]. destruct (key x <? key y)%py eqn:E; cbn [descending].
    + split.
      * apply Forall_forall. intros z Hz.
        rewrite insert_desc_perm in Hz. apply elem_of_cons in Hz as [->|Hz].
        -- destruct (key y), (key x); try (cbn in E |- *; done). float_props. lra.
        -- rewrite Forall_forall in Hy. by apply Hy.
      * apply IH; [|done]. intros z Hz. apply Hnan. by right.
    + split; [|done].
      apply Forall_cons. split; [done|].
      apply Forall_forall. intros z Hz. rewrite Forall_forall in Hy.
      apply (not_ltb_trans _ (key y)); [|done|by apply Hy].
      apply Hnan. by left.
Qed.

Lemma sort_desc_sorted key l :
  (∀ y, y ∈ l → isnan (key y) = false) →
  descending key (sort_desc key l).
Proof.
  induction l as [|x l IH]; intros Hnan; [done|].
  change (sort_desc key (x :: l)) with (insert_desc key x (sort_desc key l)).
  apply insert_desc_sorted.
  - intros y Hy. rewrite sort_desc_perm in Hy. apply Hnan. by right.
  - apply IH. intros y Hy. apply Hnan. by right.
Qed.

(** X8.  The listing of a subject's images holds exactly the image files
    of its directory, each under its key [subject/file], and — no stored
    weight being [nan] — orders them heaviest first: no image comes before
    one of strictly greater weight.  The store is left as it was. *)
Theorem images_are_listed_heaviest_first
    (t : tree) (subject : string) (entries : list string) (s : state) :
  entries_of t subject = Ok entries →
  (∀ key w, weights s !! key = Some w → isnan w = false) →
  ∃ images,
    get_images_for_subject t subject s = (Ok images, s)
    ∧ images ≡ₚ image_keys subject entries
    ∧ (∀ key, key ∈ images ↔
         ∃ file, file ∈ entries ∧ is_image file = true ∧ key = image_key_of subject file)
    ∧ descending (fun key => (item_of s key).1.1) images.
Proof.
  intros Hdir Hnan.
  unfold get_images_for_subject, listdir. rewrite Hdir.
  eexists. split; [reflexivity|]. split; [apply sort_desc_perm|]. split.
  - intros key. rewrite sort_desc_perm, list_elem_of_fmap. split.
    + intros (file & -> & Hfile). apply list_elem_of_In, filter_In in Hfile as [? ?].
      exists file. split; [by apply list_elem_of_In|]. by split.
    + intros (file & Hfile & Himg & ->). exists file. split; [done|].
      apply list_elem_of_In, filter_In. split; [by apply list_elem_of_In|done].
  - apply sort_desc_sorted. intros y _.
    destruct (weights s !! y) as [w|] eqn:E; cbn; [by apply (Hnan y)|done].
Qed.

Lemma images_are_listed_heaviest_first_witness :
  ∃ images,
    get_images_for_subject sample_tree "S001" sample_state = (Ok images, sample_state)
    ∧ images ≡ₚ image_keys "S001" ["a.png"; "b.JPG"; "notes.txt"; "c.gif"]%string
    ∧ descending (fun key => (item_of sample_state key).1.1) images.
Proof.
  destruct (images_are_listed_heaviest_first sample_tree "S001"
              ["a.png"; "b.JPG"; "notes.txt"; "c.gif"]%string sample_state)
    as (images & Hrun & Hperm & _ & Hsorted).
  - reflexivity.
  - intros key w. cbn [weights sample_state].
    intros H. apply lookup_insert_Some in H as [[_ <-]|[_ H]]; [done|].
    apply lookup_singleton_Some in H as [_ <-]. done.
  - by exists images.
Defined.

Lemma setdefault_present {A} k (v : A) (d : gmap string A) :
  is_Some (d !! k) → setdefault k v d = d.
Proof. unfold setdefault. by intros [x ->]. Qed.

Lemma setdefault_is_Some {A} k k' (v : A) (d : gmap string A) :
  is_Some (d !! k') → is_Some (setdefault k v d !! k').
Proof.
  unfold setdefault. destruct (d !! k) eqn:E; [done|].
  intros H. destruct (decide (k = k')) as [->|Hne];
    [by rewrite lookup_insert_eq|by rewrite lookup_insert_ne].
Qed.

Lemma setdefault_other {A} k k' (v : A) (d : gmap string A) :
  k ≠ k' → setdefault k v d !! k' = d !! k'.
Proof.
  unfold setdefault. destruct (d !! k); [done|]. intros. by rewrite lookup_insert_ne.
Qed.

Lemma init_item_registers k s : registered (init_item k s) k.
Proof.
  unfold registered, init_item.
  cbn [weights last_reviewed review_intervals set_weights set_last_reviewed
       set_review_intervals].
  by rewrite !lookup_setdefault.
Qed.

Lemma init_item_keeps_registered k k' s : registered s k' → registered (init_item k s) k'.
Proof.
  unfold registered, init_item.
  cbn [weights last_reviewed review_intervals set_weights set_last_reviewed
       set_review_intervals].
  intros (? & ? & ?). repeat split; by apply setdefault_is_Some.
Qed.

Lemma init_item_registered k s : registered s k → init_item k s = s.
Proof.
  unfold registered, init_item, set_weights, set_last_reviewed, set_review_intervals.
  destruct s as [w lr ri m d o]. cbn [weights last_reviewed review_intervals].
  intros (? & ? & ?). cbn. by rewrite !setdefault_present.
Qed.

Lemma scan_keeps_registered keys : ∀ s k,
  registered s k → registered (fold_left (fun s key => init_item key s) keys s) k.
Proof.
  induction keys as [|x keys IH]; intros s k H; [done|].
  cbn [fold_left]. by apply IH, init_item_keeps_registered.
Qed.

Lemma scan_registers keys : ∀ s k,
  k ∈ keys → registered (fold_left (fun s key => init_item key s) keys s) k.
Proof.
  induction keys as [|x keys IH]; intros s k H; [by apply elem_of_nil in H|].
  cbn [fold_left]. apply elem_of_cons in H as [->|H].
  - apply scan_keeps_registered, init_item_registers.
  - by apply IH.
Qed.

Lemma scan_registered keys : ∀ s,
  (∀ k, k ∈ keys → registered s k) →
  fold_left (fun s key => init_item key s) keys s = s.
Proof.
  induction keys as [|x keys IH]; intros s H; [done|].
  cbn [fold_left]. rewrite init_item_registered by (apply H; by left).
  apply IH. intros k Hk. apply H. by right.
Qed.

Lemma scan_frame keys : ∀ s k,
  k ∉ keys →
  let s' := fold_left (fun s key => init_item key s) keys s in
  weights s' !! k = weights s !! k ∧ last_reviewed s' !! k = last_reviewed s !! k
  ∧ review_intervals s' !! k = review_intervals s !! k.
Proof.
  induction keys as [|x keys IH]; intros s k H; [done|].
  cbn [fold_left]. apply not_elem_of_cons in H as [Hne H].
  destruct (IH (init_item x s) k H) as (-> & -> & ->).
  unfold init_item.
  cbn [weights last_reviewed review_intervals set_weights set_last_reviewed
       set_review_intervals].
  by rewrite !setdefault_other.
Qed.

Lemma scanned_keys_elem_of t dir entries file :
  (dir, NDir entries) ∈ t → file ∈ entries → image_key_of dir file ∈ scanned_keys t.
Proof.
  intros Ht Hf. unfold scanned_keys. apply list_elem_of_In, in_concat.
  exists (map (image_key_of dir) entries). split.
  - apply in_map_iff. exists (dir, NDir entries). split; [done|by apply list_elem_of_In].
  - apply in_map, list_elem_of_In, Hf.
Qed.

Lemma scan_subjects_state iso t io s :
  scan_subjects iso t io s
  = save_weights iso io (fold_left (fun s key => init_item key s) (scanned_keys t) s).
Proof. done. Qed.

(** X9.  A scan returns normally whatever becomes of the write; afterwards
    every file of every directory of the tree — image or not — has its
    three entries, every item reads as before (fresh entries hold the
    defaults), the entries of keys outside the tree are untouched, and a
    second scan of the same tree changes nothing in memory. *)
Theorem scan_registers_every_file_once
    (isoformat : datetime → string) (t : tree) (io : write_outcome) (s : state) :
  let s1 := (scan_subjects isoformat t io s).2 in
  (scan_subjects isoformat t io s).1 = Ok tt
  ∧ (∀ dir entries file,
       (dir, NDir entries) ∈ t → file ∈ entries → registered s1 (image_key_of dir file))
  ∧ (∀ key, item_of s1 key = item_of s key)
  ∧ (∀ key, key ∉ scanned_keys t →
       weights s1 !! key = weights s !! key
       ∧ last_reviewed s1 !! key = last_reviewed s !! key
       ∧ review_intervals s1 !! key = review_intervals s !! key)
  ∧ ∀ io',
      let s2 := (scan_subjects isoformat t io' s1).2 in
      weights s2 = weights s1 ∧ last_reviewed s2 = last_reviewed s1
      ∧ review_intervals s2 = review_intervals s1.
Proof.
  cbn zeta. rewrite scan_subjects_state.
  set (m := fold_left (fun s key => init_item key s) (scanned_keys t) s).
  destruct (save_weights_memory isoformat io m) as (Hw & Hl & Hi & _).
  assert (∀ k, registered m k → registered (save_weights isoformat io m).2 k) as Hreg.
  { unfold registered. by rewrite Hw, Hl, Hi. }
  split; [apply save_weights_returns|]. split; [|split; [|split]].
  - intros dir entries file Ht Hf. apply Hreg, scan_registers.
    by eapply scanned_keys_elem_of.
  - intros key. apply items_kept_item_of.
    eapply items_kept_trans; [apply items_kept_scan|apply items_kept_save].
  - intros key Hkey. rewrite Hw, Hl, Hi. by apply scan_frame.
  - intros io'. rewrite scan_subjects_state.
    rewrite scan_registered by (intros k Hk; by apply Hreg, scan_registers).
    destruct (save_weights_memory isoformat io' (save_weights isoformat io m).2)
      as (Hw' & Hl' & Hi' & _).
    by rewrite Hw', Hl', Hi'.
Qed.

(** ** The store across restarts *)

Lemma parse_stamp_settled fromiso v : settled fromiso (parse_stamp fromiso v).
Proof.
  intros text. destruct v as [s|]; cbn; [|done].
  destruct (fromiso s) eqn:E; [done|]. by intros [= <-].
Qed.

Lemma load_weights_settled fromiso s :
  map_Forall (fun _ => settled fromiso) (last_reviewed (load_weights fromiso s).2).
Proof.
  unfold load_weights. run_M.
  destruct (disk s) as [| |[| | |d]]; cbn; try apply map_Forall_empty.
  intros key v Hv. apply lookup_fmap_Some in Hv as (x & <- & _).
  apply parse_stamp_settled.
Qed.

Lemma setdefault_settled fromiso key m :
  map_Forall (fun _ => settled fromiso) m →
  map_Forall (fun _ => settled fromiso) (setdefault key Never m).
Proof.
  intros H. unfold setdefault. destruct (m !! key); [done|].
  by apply map_Forall_insert_2.
Qed.

Lemma scan_settled fromiso keys : ∀ s,
  map_Forall (fun _ => settled fromiso) (last_reviewed s) →
  map_Forall (fun _ => settled fromiso)
    (last_reviewed (fold_left (fun s key => init_item key s) keys s)).
Proof.
  induction keys as [|k keys IH]; intros s H; [done|].
  cbn [fold_left]. apply IH. unfold init_item.
  cbn [last_reviewed set_weights set_last_reviewed set_review_intervals].
  by apply setdefault_settled.
Qed.

Lemma after_feedback_settled fromiso now key fam s :
  map_Forall (fun _ => settled fromiso) (last_reviewed s) →
  map_Forall (fun _ => settled fromiso) (last_reviewed (after_feedback now key fam s)).
Proof.
  intros H. unfold after_feedback. destruct (item_of s key) as [[w lr] i].
  cbn [last_reviewed]. by apply map_Forall_insert_2.
Qed.

Lemma memory_after_request_settled fromiso now req s s' :
  memory_after_request now req s = Some s' →
  map_Forall (fun _ => settled fromiso) (last_reviewed s) →
  map_Forall (fun _ => settled fromiso) (last_reviewed s').
Proof.
  unfold memory_after_request.
  destruct (req_image_key req) as [image_key|]; [|done].
  destruct (_ && _); [|done].
  destruct (truthy _).
  - intros [= <-]. apply after_feedback_settled.
  - destruct (req_weight req); [|done]. by intros [= <-].
Qed.

Lemma perform_settled fromiso iso rc op s :
  map_Forall (fun _ => settled fromiso) (last_reviewed s) →
  map_Forall (fun _ => settled fromiso) (last_reviewed (perform iso rc op s).2).
Proof.
  intros H.
  destruct op as [now t seed subject count|t subject_name|t io|now io req]; cbn [perform].
  - assert (((select_images_for_review rc now t seed subject count
                ≫= fun images => mret (Images images)) s).2 = s) as ->; [|done].
    apply (readonly_bind _ _ (readonly_select _ _ _ _ _ _)). by intros.
  - assert (((api_get_weights t subject_name
                ≫= fun table => mret (Weights table)) s).2 = s) as ->; [|done].
    apply (readonly_bind _ _ (readonly_api_get_weights _ _)). by intros.
  - unfold mbind, M_bind. rewrite scan_subjects_state.
    set (m := fold_left _ _ _).
    pose proof (save_weights_memory iso io m) as (_ & Hl & _).
    pose proof (save_weights_returns iso io m) as Hr.
    destruct (save_weights iso io m) as [r s']. cbn [fst snd] in *. subst r.
    cbn [snd mret M_ret]. rewrite Hl. by apply scan_settled.
  - unfold mbind, M_bind. rewrite api_update_weight_run.
    destruct (memory_after_request now req s) as [s'|] eqn:E; [|done].
    cbn [fst snd mret M_ret].
    destruct (save_weights_memory iso io s') as (_ & Hl & _). rewrite Hl.
    by eapply memory_after_request_settled.
Qed.

Lemma save_load_fields iso fromiso s fresh :
  iso_contract iso fromiso →
  map_Forall (fun _ => settled fromiso) (last_reviewed s) →
  let loaded := (load_weights fromiso
                   (set_disk (disk (save_weights iso Written s).2) fresh)).2 in
  weights loaded = weights s ∧ last_reviewed loaded = last_reviewed s
  ∧ review_intervals loaded = review_intervals s
  ∧ subject_mapping loaded = subject_mapping s.
Proof.
  intros Hiso Hs. cbn zeta.
  unfold save_weights, try_except, load_weights. run_M.
  destruct (load_document_serialise iso fromiso s (set_disk
              (Holds (Document (serialise iso s))) fresh) Hiso Hs) as (Hw & Hl & Hi).
  by repeat split.
Qed.

(** X10.  From a weights file with entries of the types the program
    writes — numbers for the weights and intervals, strings or [null] for
    the review times — or from a file it cannot use, [load_weights]
    leaves a store the codec can carry: a last-reviewed string is kept
    only if [fromisoformat] rejects it.  So a process that saves what it
    loaded, and another that loads that file, hold the same four
    mappings.  (A weight or interval that is not a number, which
    [load_weights] would keep and [save_weights] drop, is not among these
    files.) *)
Theorem loaded_store_survives_a_restart
    (isoformat : datetime → string) (fromisoformat : string → option datetime)
    (s fresh : state) :
  iso_contract isoformat fromisoformat →
  let s1 := (load_weights fromisoformat s).2 in
  let s2 := (load_weights fromisoformat
               (set_disk (disk (save_weights isoformat Written s1).2) fresh)).2 in
  map_Forall (fun _ => settled fromisoformat) (last_reviewed s1)
  ∧ weights s2 = weights s1
  ∧ last_reviewed s2 = last_reviewed s1
  ∧ review_intervals s2 = review_intervals s1
  ∧ subject_mapping s2 = subject_mapping s1.
Proof.
  intros Hiso. cbn zeta. split; [apply load_weights_settled|].
  apply save_load_fields; [done|apply load_weights_settled].
Qed.

Lemma loaded_store_survives_a_restart_witness :
  let bad := {| doc_subject_mapping := [("S000", "maths")]%string;
                doc_weights := Object {["S000/a.png"%string := Finite 2]};
                doc_last_reviewed := Object {["S000/a.png"%string := Some "yesterday"%string]};
                doc_review_intervals := Null |} in
  let s1 := (load_weights decimal_fromisoformat
               (set_disk (Holds (Document bad)) empty_state)).2 in
  let s2 := (load_weights decimal_fromisoformat
               (set_disk (disk (save_weights decimal_isoformat Written s1).2)
                  empty_state)).2 in
  last_reviewed s1 !! "S000/a.png"%string = Some (Unparsed "yesterday")
  ∧ last_reviewed s2 = last_reviewed s1.
Proof.
  cbn zeta. split; [by vm_compute|].
  apply (loaded_store_survives_a_restart decimal_isoformat decimal_fromisoformat
           (set_disk (Holds (Document
              {| doc_subject_mapping := [("S000", "maths")]%string;
                 doc_weights := Object {["S000/a.png"%string := Finite 2]};
                 doc_last_reviewed :=
                   Object {["S000/a.png"%string := Some "yesterday"%string]};
                 doc_review_intervals := Null |})) empty_state)
           empty_state decimal_iso_contract).
Defined.

(** X11.  That property is an invariant of the running process: a review
    selection, the weights table, a rescan and a feedback request each
    leave a store in which every kept last-reviewed string is one
    [fromisoformat] rejects. *)
Theorem requests_keep_the_store_loadable
    (fromisoformat : string → option datetime) (isoformat : datetime → string)
    (random_choice : N → nat → Z → list pyfloat → result (list nat))
    (op : operation) (s : state) :
  map_Forall (fun _ => settled fromisoformat) (last_reviewed s) →
  map_Forall (fun _ => settled fromisoformat)
    (last_reviewed (perform isoformat random_choice op s).2).
Proof. apply perform_settled. Qed.

Lemma requests_keep_the_store_loadable_witness :
  map_Forall (fun _ => settled decimal_fromisoformat)
    (last_reviewed (perform decimal_isoformat first_fit_choice
                      (Feedback sample_now Written
                         (feedback_request "S001/c.gif" "blur")) sample_state).2).
Proof.
  apply (requests_keep_the_store_loadable decimal_fromisoformat decimal_isoformat
           first_fit_choice
           (Feedback sample_now Written (feedback_request "S001/c.gif" "blur"))
           sample_state).
  apply map_Forall_insert_2; [done|]. by apply map_Forall_singleton.
Defined.

(** X12.  Feedback whose write succeeds is on disk: a process that loads
    the file afterwards reads, under the key the request was stored at, the
    weight and interval of the update table and the time of the request,
    and under every other key the item the first process held. *)
Theorem feedback_survives_a_restart
    (isoformat : datetime → string) (fromisoformat : string → option datetime)
    (now : datetime) (image_key familiarity : string) (s fresh : state) :
  iso_contract isoformat fromisoformat →
  map_Forall (fun _ => settled fromisoformat) (last_reviewed s) →
  image_key ≠ ""%string → familiarity ≠ ""%string →
  let key := encode_key (subject_mapping s) image_key in
  let out := api_update_weight isoformat now Written
               (feedback_request image_key familiarity) s in
  let loaded := (load_weights fromisoformat (set_disk (disk out.2) fresh)).2 in
  item_of loaded key
  = (clamp_weight (table_weight (Some familiarity) (item_of s key).1.1),
     At now,
     table_interval (Some familiarity) (item_of s key).2)
  ∧ ∀ other, other ≠ key → item_of loaded other = item_of s other.
Proof.
  intros Hiso Hs Hk Hf. cbn zeta. rewrite api_update_weight_run.
  unfold memory_after_request, feedback_request.
  cbn [req_image_key req_familiarity req_weight].
  assert (truthy (Some familiarity) = true) as ->.
  { cbn. by apply negb_true_iff, String.eqb_neq. }
  assert (String.eqb image_key "" = false) as -> by by apply String.eqb_neq.
  cbn [negb andb orb fst snd].
  set (key := encode_key (subject_mapping s) image_key).
  pose proof (after_feedback_settled fromisoformat now key (Some familiarity) s Hs) as Hs'.
  destruct (save_load_fields isoformat fromisoformat _ fresh Hiso Hs')
    as (Hw & Hl & Hi & _).
  unfold item_of at 1 4. rewrite Hw, Hl, Hi.
  unfold after_feedback. destruct (item_of s key) as [[w lr] i] eqn:E.
  cbn [weights last_reviewed review_intervals fst snd]. split.
  - by rewrite !lookup_insert_eq.
  - intros other Hne. rewrite !lookup_insert_ne by done. done.
Qed.

Lemma feedback_survives_a_restart_witness :
  let out := api_update_weight decimal_isoformat sample_now Written
               (feedback_request "S001/b.JPG" "strange") sample_state in
  let loaded := (load_weights decimal_fromisoformat
                   (set_disk (disk out.2) empty_state)).2 in
  item_of loaded "S001/b.JPG" = (Finite 10, At sample_now, Finite 0.1).
Proof.
  cbn zeta.
  refine (eq_trans (proj1
    (feedback_survives_a_restart decimal_isoformat decimal_fromisoformat sample_now
       "S001/b.JPG" "strange" sample_state empty_state decimal_iso_contract _ _ _)) _);
    [|done|done|by vm_compute].
  apply map_Forall_insert_2; [done|]. by apply map_Forall_singleton.
Defined.

(** X25.  A write that fails after the file was opened costs the whole
    store at the next start: the process that wrote keeps its mappings
    and prints the error, and a process that loads the file it left holds
    four empty mappings, whatever [scan_subjects], [update_weight] or the
    handler was saving. *)
Theorem interrupted_write_empties_the_next_start
    (isoformat : datetime → string) (fromisoformat : string → option datetime)
    (s fresh : state) :
  let saved := save_weights isoformat Interrupted s in
  let loaded := load_weights fromisoformat (set_disk (disk saved.2) fresh) in
  saved.1 = Ok tt
  ∧ (∀ key, item_of saved.2 key = item_of s key)
  ∧ stdout saved.2 = stdout s ++ [SaveError]
  ∧ loaded.1 = Ok tt
  ∧ weights loaded.2 = ∅
  ∧ last_reviewed loaded.2 = ∅
  ∧ review_intervals loaded.2 = ∅
  ∧ subject_mapping loaded.2 = [].
Proof.
  cbn zeta. rewrite save_weights_run. cbn [fst snd disk print set_disk].
  unfold load_weights. run_M. by repeat split.
Qed.

(** ** More on selections *)



Lemma total_seconds_sign d : (total_seconds d <=? Finite 0)%py = (d <=? 0)%Z.
Proof.
  unfold total_seconds.
  assert (inject_Z d / inject_Z us_per_second == inject_Z d * (1 # 1000000))%Q as Hx
    by done.
  destruct (d <=? 0)%Z eqn:E.
  - apply leb_Finite. apply Z.leb_le in E. rewrite Hx.
    rewrite Zle_Qle in E. change (inject_Z 0) with 0%Q in E. lra.
  - apply leb_Finite_false. apply Z.leb_gt in E. rewrite Hx.
    rewrite Zlt_Qlt in E. change (inject_Z 0) with 0%Q in E. lra.
Qed.

(** X14.  An item within the ranges always gets a positive priority.
    Before it is due the priority is at most [10000 * weight], so at most
    a tenth of the 1000000 of an image never reviewed; once it is due the
    priority is at least [1000 * weight]. *)
Theorem priority_bounds
    (now : datetime) (w : Q) (t : datetime) (interval : pyfloat) (delta : timedelta) :
  healthy (Finite w, At t, interval) = true →
  timedelta_days interval = Ok delta →
  ∃ p, raw_priority now (Finite w) (At t) interval = Ok (Finite p)
       ∧ (0 < p)%Q
       ∧ ((now < t + delta)%Z → (p <= 10000 * w)%Q ∧ (p <= 100000)%Q)
       ∧ ((t + delta ≤ now)%Z → (1000 * w <= p)%Q).
Proof.
  unfold healthy. cbn [fst snd]. rewrite !andb_true_iff. intros [[Hw Ht] Hi] Hd.
  destruct interval as [i| | |]; try done.
  unfold in_range in *. apply andb_true_iff in Hw as [Hw1 Hw2], Hi as [Hi1 Hi2].
  float_props.
  cbn [review_time_ok] in Ht. cbn [raw_priority].
  destruct (timedelta_days_in_range i) as (us & Hus' & Hus); [lra|lra|].
  rewrite Hus' in Hd. injection Hd as <-. rewrite Hus'.
  cbn [mbind result_bind]. unfold datetime_add.
  destruct ((0 <=? t + us) && (t + us <=? datetime_max))%Z eqn:E.
  2:{ apply andb_false_iff in E. apply andb_true_iff in Ht. lia. }
  cbn [mbind result_bind]. cbn zeta. rewrite total_seconds_sign.
  unfold total_seconds.
  match goal with |- context [Finite (?y / inject_Z us_per_second)%Q] =>
    assert (y / inject_Z us_per_second == y * (1 # 1000000))%Q as Hx by done;
    generalize dependent (y / inject_Z us_per_second)%Q; intros x Hx end.
  destruct (t + us - now <=? 0)%Z eqn:Ex.
  - apply Z.leb_le in Ex.
    unfold of_Z. cbn [abs add mul mbind result_bind].
    eexists; split; [done|]. pose proof (Qabs_nonneg x).
    change (inject_Z 1000) with 1000%Q.
    split; [nra|]. split; [lia|]. intros _. nra.
  - apply Z.leb_gt in Ex.
    assert (0 < x)%Q as Hx0.
    { rewrite Hx. rewrite Zlt_Qlt in Ex. change (inject_Z 0) with 0%Q in Ex. lra. }
    rewrite py_div_nonzero by done. cbn [mbind result_bind].
    rewrite py_div_nonzero by apply py_max_tenth_nonzero.
    unfold of_Z, py_max. cbn [quotient].
    change (inject_Z 3600) with 3600%Q. change (inject_Z 1000) with 1000%Q.
    destruct (_ <? _)%py eqn:Eh; cbn [mul quotient]; (eexists; split; [done|]).
    + apply ltb_Finite in Eh. split; [apply Qlt_shift_div_l; lra|].
      split; [|lia]. intros _.
      assert (w * 1000 / (x / 3600) <= 10000 * w)%Q; [|split; lra].
      apply Qle_shift_div_r; [lra|]. nra.
    + split; [apply Qlt_shift_div_l; lra|].
      split; [|lia]. intros _.
      assert (w * 1000 / 0.1 <= 10000 * w)%Q; [|split; lra].
      apply Qle_shift_div_r; [lra|]. nra.
Qed.

Lemma priority_bounds_witness :
  ∃ p, raw_priority sample_now (Finite 0.1) (At (sample_now - 2 * us_per_day)%Z) (Finite 30)
       = Ok (Finite p)
       ∧ (0 < p)%Q ∧ (p <= 100000)%Q.
Proof.
  destruct (priority_bounds sample_now 0.1 (sample_now - 2 * us_per_day)%Z (Finite 30)
              (30 * us_per_day)%Z) as (p & Hp & Hpos & Hnot_due & _);
    [by vm_compute|by vm_compute|].
  exists p. split; [done|]. split; [done|]. apply Hnot_due. by vm_compute.
Defined.

(** X15.  Asking for at least as many images as the directory holds
    returns every image of the subject exactly once. *)
Theorem large_count_returns_every_image
    (random_choice : N → nat → Z → list pyfloat → result (list nat))
    (now : datetime) (t : tree) (seed : N) (subject : string) (count : Z)
    (s : state) (entries : list string) :
  choice_contract random_choice →
  entries_of t subject = Ok entries →
  NoDup entries →
  forallb (fun img => healthy (item_of s img)) (image_keys subject entries) = true →
  (Z.of_nat (length (image_keys subject entries)) ≤ count)%Z →
  ∃ selected,
    (select_images_for_review random_choice now t seed subject count s).1 = Ok selected
    ∧ selected ≡ₚ image_keys subject entries.
Proof.
  intros Hrc He Hnd Hh Hcount.
  destruct (select_run random_choice now t seed subject count s entries Hrc He Hnd
              (healthy_all _ _ Hh)) as (r & -> & _ & Hsel & _).
  destruct Hsel as (selected & -> & Hlen & Hnd' & Hsub); [lia|].
  exists selected. split; [done|].
  apply submseteq_length_Permutation.
  - by apply NoDup_submseteq.
  - rewrite Hlen. lia.
Qed.

Lemma large_count_returns_every_image_witness :
  ∃ selected,
    (select_images_for_review first_fit_choice sample_now sample_tree 7 "S001" 30
       sample_state).1 = Ok selected
    ∧ selected ≡ₚ ["S001/a.png"; "S001/b.JPG"; "S001/c.gif"]%string.
Proof.
  apply (large_count_returns_every_image first_fit_choice sample_now sample_tree 7 "S001"
           30 sample_state ["a.png"; "b.JPG"; "notes.txt"; "c.gif"]%string).
  - apply first_fit_choice_contract.
  - reflexivity.
  - apply (bool_decide_unpack (NoDup _)). by vm_compute.
  - by vm_compute.
  - by vm_compute.
Defined.

Lemma raw_priority_unparsed now weight text interval :
  ∃ e, raw_priority now weight (Unparsed text) interval = Raise e.
Proof.
  cbn [raw_priority]. destruct (timedelta_days interval); cbn; by eexists.
Qed.

Lemma mapM_raises {A B} (f : A → M B) (x : A) (l : list A) (s : state) :
  (∀ y, readonly (f y)) →
  x ∈ l → (∃ e, (f x s).1 = Raise e) → ∃ e, (mapM f l s).1 = Raise e.
Proof.
  intros Hro Hx Hraise. induction l as [|y l IH]; [by apply elem_of_nil in Hx|].
  cbn [mapM]. unfold mbind at 1, M_bind at 1.
  pose proof (Hro y s) as Hs.
  destruct (f y s) as [[b|e] s'] eqn:E; cbn [snd] in Hs; subst s'; [|by exists e].
  apply elem_of_cons in Hx as [->|Hx].
  { destruct Hraise as [e He]. by rewrite E in He. }
  destruct (IH Hx) as [e He]. unfold mbind, M_bind.
  destruct (mapM f l s) as [[bs|e'] s'']; cbn [fst] in He; [done|by exists e'].
Qed.

(** X16.  One last-reviewed text that the loader could not parse disables
    the review of its subject: while the store keeps it, every selection
    for that subject raises, whatever the count, the time and the other
    items are. *)
Theorem unparsed_review_time_blocks_the_subject
    (random_choice : N → nat → Z → list pyfloat → result (list nat))
    (now : datetime) (t : tree) (seed : N) (subject : string) (count : Z)
    (s : state) (entries : list string) (file text : string) :
  entries_of t subject = Ok entries →
  file ∈ entries →
  is_image file = true →
  last_reviewed s !! image_key_of subject file = Some (Unparsed text) →
  ∃ e, (select_images_for_review random_choice now t seed subject count s).1 = Raise e.
Proof.
  intros He Hf Himg Hlr. unfold select_images_for_review.
  destruct (get_images_for_subject_run t subject entries s He) as (images & Hrun & Hperm).
  rewrite (bind_run _ _ _ _ _ Hrun).
  assert (image_key_of subject file ∈ images) as Hin.
  { rewrite Hperm. unfold image_keys. apply list_elem_of_In, in_map, filter_In.
    split; [by apply list_elem_of_In|done]. }
  destruct images as [|img0 images'] eqn:Eimg; [by apply elem_of_nil in Hin|].
  rewrite <- Eimg in *. clear Eimg.
  destruct (mapM_raises (priority_of now) (image_key_of subject file) images s)
    as [e He']; [apply readonly_priority_of|done| |].
  - rewrite priority_of_run. cbn [fst].
    assert ((item_of s (image_key_of subject file)).1.2 = Unparsed text) as ->.
    { unfold item_of. cbn [fst snd]. by rewrite Hlr. }
    destruct (raw_priority_unparsed now (item_of s (image_key_of subject file)).1.1
                text (item_of s (image_key_of subject file)).2) as [e ->].
    by exists e.
  - exists e. unfold mbind at 1, M_bind at 1.
    destruct (mapM (priority_of now) images s) as [[qs|e'] s']; cbn [fst] in He'; [done|].
    by injection He' as ->.
Qed.

Lemma unparsed_review_time_blocks_the_subject_witness :
  let bad := {| doc_subject_mapping := [];
                doc_weights := Absent;
                doc_last_reviewed := Object {["S001/a.png"%string := Some "yesterday"%string]};
                doc_review_intervals := Absent |} in
  let s := (load_weights decimal_fromisoformat
              (set_disk (Holds (Document bad)) empty_state)).2 in
  ∃ e, (select_images_for_review first_fit_choice sample_now sample_tree 7 "S001" 2 s).1
       = Raise e.
Proof.
  cbn zeta.
  apply (unparsed_review_time_blocks_the_subject first_fit_choice sample_now sample_tree 7
           "S001" 2 _ ["a.png"; "b.JPG"; "notes.txt"; "c.gif"]%string "a.png" "yesterday").
  - reflexivity.
  - by left.
  - reflexivity.
  - by vm_compute.
Defined.

(** ** The weights table *)

Lemma api_get_weights_run t name code entries s :
  find_encoded (subject_mapping s) name = Some code →
  resolve_subject (subject_mapping s) code = (name, code) →
  entries_of t name = Ok entries →
  api_get_weights t name s
  = (Ok (map (fun file => (file, default one (weights s !! image_key_of code file)))
           (sort_desc (fun x => default one (weights s !! image_key_of code x)) entries)),
     s).
Proof.
  intros Hc Hr He. unfold api_get_weights, get_all_files_for_subject, listdir. run_M.
  rewrite Hc. cbn [default]. unfold id. rewrite Hr. cbn [fst snd]. by rewrite He.
Qed.

(** X17.  The weights table follows the feedback: after feedback sent
    under a directory name that has a code, the table of that directory
    lists each of its files once and shows, for the file of the request,
    the weight of the update table — the entry stored under the code. *)
Theorem weights_table_shows_the_feedback
    (isoformat : datetime → string) (now : datetime) (io : write_outcome) (t : tree)
    (name code file familiarity : string) (entries : list string) (s : state) :
  no_slash name = true →
  looks_encoded name = false →
  familiarity ≠ ""%string →
  find_encoded (subject_mapping s) name = Some code →
  resolve_subject (subject_mapping s) code = (name, code) →
  entries_of t name = Ok entries →
  file ∈ entries →
  let s' := (api_update_weight isoformat now io
               (feedback_request (image_key_of name file) familiarity) s).2 in
  ∃ table,
    (api_get_weights t name s').1 = Ok table
    ∧ map fst table ≡ₚ entries
    ∧ (file, clamp_weight (table_weight (Some familiarity)
                             (item_of s (image_key_of code file)).1.1)) ∈ table.
Proof.
  intros Hs Hl Hf Hc Hr He Hfile. cbn zeta. rewrite api_update_weight_run.
  unfold memory_after_request, feedback_request.
  cbn [req_image_key req_familiarity req_weight].
  assert (truthy (Some familiarity) = true) as ->.
  { cbn. by apply negb_true_iff, String.eqb_neq. }
  assert (String.eqb (image_key_of name file) "" = false) as ->.
  { apply String.eqb_neq, image_key_of_nonempty. }
  cbn [negb andb orb fst snd].
  rewrite (encode_key_of_directory _ _ _ _ Hs Hl Hc).
  set (m := after_feedback now (image_key_of code file) (Some familiarity) s).
  destruct (save_weights_memory isoformat io m) as (Hw & _ & _ & Hm).
  assert (subject_mapping m = subject_mapping s) as Hm'.
  { unfold m, after_feedback. by destruct (item_of s _) as [[??]?]. }
  rewrite (api_get_weights_run t name code entries) by (by rewrite ?Hm, ?Hm').
  eexists. split; [done|]. split.
  - rewrite map_map. cbn [fst]. rewrite map_id. apply sort_desc_perm.
  - apply list_elem_of_In, in_map_iff. exists file. split.
    + f_equal. rewrite Hw. unfold m, after_feedback.
      destruct (item_of s (image_key_of code file)) as [[w lr] i].
      cbn [weights fst]. by rewrite lookup_insert_eq.
    + apply list_elem_of_In. by rewrite sort_desc_perm.
Qed.

Lemma weights_table_shows_the_feedback_witness :
  let s := {| weights := ∅; last_reviewed := ∅; review_intervals := ∅;
              subject_mapping := [("S000", "maths")]%string;
              disk := Missing; stdout := [] |} in
  let t := [("maths", NDir ["a.png"; "notes.txt"])]%string in
  let s' := (api_update_weight decimal_isoformat sample_now Written
               (feedback_request (image_key_of "maths" "a.png") "strange") s).2 in
  ∃ table,
    (api_get_weights t "maths" s').1 = Ok table
    ∧ map fst table ≡ₚ ["a.png"; "notes.txt"]%string
    ∧ ("a.png"%string, Finite 1.5) ∈ table.
Proof.
  cbn zeta.
  destruct (weights_table_shows_the_feedback decimal_isoformat sample_now Written
              [("maths", NDir ["a.png"; "notes.txt"])]%string
              "maths" "S000" "a.png" "strange" ["a.png"; "notes.txt"]%string
              {| weights := ∅; last_reviewed := ∅; review_intervals := ∅;
                 subject_mapping := [("S000", "maths")]%string;
                 disk := Missing; stdout := [] |})
    as (table & Hrun & Hperm & Hin); [done..|by left|].
  exists table. split; [done|]. split; [done|].
  assert (clamp_weight (table_weight (Some "strange"%string) one) = Finite 1.5) as E
    by by vm_compute.
  by rewrite <- E.
Defined.

(** ** Start-up and the codes of the subjects *)

Lemma startswith_S_image_key_of a b : startswith_S (image_key_of a b) = startswith_S a.
Proof. by destruct a. Qed.

Lemma split_once_image_key_is_Some a b : split_once (image_key_of a b) ≠ None.
Proof.
  unfold image_key_of. induction a as [|c a IH]; [done|].
  change (split_once (String c (a +:+ "/" +:+ b)) ≠ None). cbn [split_once].
  destruct (Ascii.eqb c "/"); [done|]. by destruct (split_once (a +:+ "/" +:+ b)) as [[??]|].
Qed.

Lemma startswith_S_code_of i : startswith_S (code_of i) = true.
Proof. done. Qed.

Lemma dict_set_codes m code subject :
  startswith_S code = true → codes_start_with_S m → codes_start_with_S (dict_set m code subject).
Proof.
  intros Hc. unfold codes_start_with_S. induction m as [|[k x] m IH]; intros Hm; cbn [dict_set].
  - by repeat constructor.
  - apply Forall_cons in Hm as [Hk Hm].
    destruct (String.eqb k code); constructor; auto.
Qed.

Lemma assign_codes_codes subjects : ∀ i m,
  codes_start_with_S m → codes_start_with_S (assign_codes i subjects m).
Proof.
  induction subjects as [|x subjects IH]; intros i m Hm; [done|].
  cbn [assign_codes]. apply IH, dict_set_codes; [apply startswith_S_code_of|done].
Qed.

Lemma find_encoded_code m subject code :
  codes_start_with_S m → find_encoded m subject = Some code → startswith_S code = true.
Proof.
  intros Hm Hf. apply find_encoded_elem_of in Hf.
  unfold codes_start_with_S in Hm. rewrite Forall_forall in Hm. by apply (Hm (code, subject)).
Qed.


Lemma mapping_only_refl s : mapping_only s s.
Proof. by repeat split. Qed.

Lemma mapping_only_trans s1 s2 s3 :
  mapping_only s1 s2 → mapping_only s2 s3 → mapping_only s1 s3.
Proof.
  unfold mapping_only. intros (?&?&?&?&?) (?&?&?&?&?). repeat split; congruence.
Qed.

Lemma encode_subject_name_run key s :
  codes_start_with_S (subject_mapping s) →
  ∃ new_key s',
    encode_subject_name key s = (Ok new_key, s')
    ∧ codes_start_with_S (subject_mapping s')
    ∧ encoded_key new_key
    ∧ mapping_only s s'.
Proof.
  intros Hm. unfold encode_subject_name.
  destruct (split_once key) as [[subject filename]|] eqn:Es.
  2:{ exists key, s. split; [done|]. split; [done|]. split; [by left|apply mapping_only_refl]. }
  apply split_once_Some in Es as [-> Hns].
  destruct (is_code subject) eqn:Ec.
  { eexists _, s. split; [done|]. split; [done|]. split; [|apply mapping_only_refl].
    right. rewrite startswith_S_image_key_of.
    unfold is_code in Ec. by apply andb_true_iff in Ec as [[-> _]%andb_true_iff _]. }
  run_M. destruct (find_encoded (subject_mapping s) subject) as [encoded|] eqn:Ef.
  - eexists _, s. split; [done|]. split; [done|]. split; [|apply mapping_only_refl].
    right. rewrite startswith_S_image_key_of. by eapply find_encoded_code.
  - eexists _, _. split; [done|]. split; [|split; [|done]].
    + cbn. by apply dict_set_codes.
    + right. by rewrite startswith_S_image_key_of.
Qed.

Lemma reencode_run {A} (items : list (string * A)) : ∀ (new : gmap string A) s,
  codes_start_with_S (subject_mapping s) →
  (∀ key, is_Some (new !! key) → encoded_key key) →
  ∃ new' s',
    reencode items new s = (Ok new', s')
    ∧ codes_start_with_S (subject_mapping s')
    ∧ (∀ key, is_Some (new' !! key) → encoded_key key)
    ∧ mapping_only s s'.
Proof.
  induction items as [|[key value] items IH]; intros new s Hm Hnew.
  { exists new, s. split; [done|]. split; [done|]. split; [done|apply mapping_only_refl]. }
  cbn [reencode].
  destruct (encode_subject_name_run key s Hm) as (new_key & s1 & Hrun & Hm1 & Hk & Hs1).
  rewrite (bind_run _ _ _ _ _ Hrun).
  destruct (IH (<[new_key := value]> new) s1 Hm1) as (new' & s' & Hrun' & Hm' & Hnew' & Hs').
  { intros k Hk'. destruct (decide (new_key = k)) as [<-|Hne]; [done|].
    rewrite lookup_insert_ne in Hk' by done. by apply Hnew. }
  exists new', s'. split; [done|]. split; [done|]. split; [done|].
  by eapply mapping_only_trans.
Qed.

Lemma update_weights_with_encoded_names_state iso io ow olr ori s :
  codes_start_with_S (subject_mapping s) →
  ∃ nw nlr nri s3,
    update_weights_with_encoded_names iso io ow olr ori s
    = save_weights iso io
        (set_review_intervals (fun _ => nri)
           (set_last_reviewed (fun _ => nlr) (set_weights (fun _ => nw) s3)))
    ∧ codes_start_with_S (subject_mapping s3)
    ∧ (∀ key, is_Some (nw !! key) → encoded_key key)
    ∧ (∀ key, is_Some (nlr !! key) → encoded_key key)
    ∧ (∀ key, is_Some (nri !! key) → encoded_key key)
    ∧ mapping_only s s3.
Proof.
  intros Hm. unfold update_weights_with_encoded_names.
  unfold mbind at 1, M_bind at 1, gets at 1.
  destruct (reencode_run (items_in ow (weights s)) ∅ s Hm)
    as (nw & s1 & Hrun1 & Hm1 & Hnw & Hs1); [by intros k [? ?%lookup_empty_Some]|].
  rewrite (bind_run _ _ _ _ _ Hrun1).
  unfold mbind at 1, M_bind at 1, gets at 1.
  destruct (reencode_run (items_in olr (last_reviewed s1)) ∅ s1 Hm1)
    as (nlr & s2 & Hrun2 & Hm2 & Hnlr & Hs2); [by intros k [? ?%lookup_empty_Some]|].
  rewrite (bind_run _ _ _ _ _ Hrun2).
  unfold mbind at 1, M_bind at 1, gets at 1.
  destruct (reencode_run (items_in ori (review_intervals s2)) ∅ s2 Hm2)
    as (nri & s3 & Hrun3 & Hm3 & Hnri & Hs3); [by intros k [? ?%lookup_empty_Some]|].
  rewrite (bind_run _ _ _ _ _ Hrun3).
  exists nw, nlr, nri, s3. split; [done|]. repeat split; try done;
    destruct Hs1 as (?&?&?&?&?), Hs2 as (?&?&?&?&?), Hs3 as (?&?&?&?&?); congruence.
Qed.

Lemma update_weights_with_encoded_names_run iso io ow olr ori s :
  codes_start_with_S (subject_mapping s) →
  let out := update_weights_with_encoded_names iso io ow olr ori s in
  out.1 = Ok tt ∧ codes_start_with_S (subject_mapping out.2) ∧ keys_encoded out.2.
Proof.
  intros Hm. cbn zeta.
  destruct (update_weights_with_encoded_names_state iso io ow olr ori s Hm)
    as (nw & nlr & nri & s3 & -> & Hm3 & Hnw & Hnlr & Hnri & _).
  match goal with |- context [save_weights iso io ?a] =>
    pose proof (save_weights_memory iso io a) as (Hw & Hl & Hi & Hmp);
    pose proof (save_weights_returns iso io a) as Hr;
    destruct (save_weights iso io a) as [r s'] end.
  cbn [fst snd] in *. subst r. split; [done|]. split; [by rewrite Hmp|].
  intros key. rewrite Hw, Hl, Hi. cbn. intros [H|[H|H]]; auto.
Qed.

Lemma scan_mapping keys : ∀ s,
  subject_mapping (fold_left (fun s key => init_item key s) keys s) = subject_mapping s.
Proof.
  induction keys as [|k keys IH]; intros s; [done|]. cbn [fold_left]. by rewrite IH.
Qed.

Lemma scan_subjects_mapping iso t io s :
  subject_mapping (scan_subjects iso t io s).2 = subject_mapping s.
Proof.
  rewrite scan_subjects_state.
  match goal with |- context [save_weights iso io ?a] =>
    destruct (save_weights_memory iso io a) as (_ & _ & _ & ->) end.
  apply scan_mapping.
Qed.

Lemma load_weights_mapping fromiso s :
  subject_mapping (load_weights fromiso s).2
  = match disk s with
    | Holds (Document d) => doc_subject_mapping d
    | _ => []
    end.
Proof. unfold load_weights. run_M. by destruct (disk s) as [| |[| | |d]]. Qed.

Lemma init_state iso fromiso set_order t io_scan io_encode ow olr ori s0 :
  init iso fromiso set_order t io_scan io_encode ow olr ori s0
  = update_weights_with_encoded_names iso io_encode ow olr ori
      (set_subject_mapping (assign_codes 0 (get_subjects set_order t))
         (scan_subjects iso t io_scan (load_weights fromiso (reset_store s0)).2).2).
Proof.
  unfold init, create_subject_mapping.
  unfold mbind at 1, M_bind at 1, modify at 1.
  unfold mbind at 1, M_bind at 1.
  pose proof (load_weights_returns fromiso (reset_store s0)) as Hl.
  destruct (load_weights fromiso (reset_store s0)) as [r1 s1]. cbn [fst snd] in *. subst r1.
  unfold mbind at 1, M_bind at 1.
  pose proof (scan_subjects_state iso t io_scan s1) as Hs.
  pose proof (save_weights_returns iso io_scan
                (fold_left (fun s key => init_item key s) (scanned_keys t) s1)) as Hr.
  rewrite <- Hs in Hr.
  destruct (scan_subjects iso t io_scan s1) as [r2 s2]. cbn [fst snd] in *. subst r2.
  done.
Qed.

Lemma keys_encoded_unlearned s subject :
  keys_encoded s → startswith_S subject = false → unlearned s subject.
Proof.
  intros Hk Hs file.
  assert (¬ encoded_key (image_key_of subject file)) as Hne.
  { intros [H|H]; [by apply split_once_image_key_is_Some in H|].
    rewrite startswith_S_image_key_of in H. congruence. }
  unfold item_of, default_item.
  destruct (weights s !! image_key_of subject file) eqn:Ew;
    [exfalso; apply Hne, Hk; left; by rewrite Ew|].
  destruct (last_reviewed s !! image_key_of subject file) eqn:El;
    [exfalso; apply Hne, Hk; right; left; by rewrite El|].
  destruct (review_intervals s !! image_key_of subject file) eqn:Ei;
    [exfalso; apply Hne, Hk; right; right; by rewrite Ei|].
  done.
Qed.

(** X18.  From a weights file as the program writes it — its
    ["subject_mapping"] an object whose codes start with ['S'] — or from
    a file [load_weights] cannot use, start-up completes and leaves no key
    with a subject part other than under a name that starts with ['S'],
    in whatever order the three dicts are iterated.  So for a directory
    whose name does not start with ['S'], every image reads as never
    reviewed with the default weight and interval, whatever the file held
    for it and whatever the scan found.  (A file whose
    ["subject_mapping"] is [null] or not an object is not among these:
    on it line 83 raises as soon as [data/] has a directory.) *)
Theorem start_up_encodes_every_key
    (isoformat : datetime → string) (fromisoformat : string → option datetime)
    (set_order : list string → list string) (t : tree)
    (io_scan io_encode : write_outcome) (order_w order_lr order_ri : list string)
    (s0 : state) :
  (∀ d, disk s0 = Holds (Document d) → codes_start_with_S (doc_subject_mapping d)) →
  let out := init isoformat fromisoformat set_order t io_scan io_encode
               order_w order_lr order_ri s0 in
  out.1 = Ok tt
  ∧ codes_start_with_S (subject_mapping out.2)
  ∧ keys_encoded out.2
  ∧ ∀ subject, startswith_S subject = false → unlearned out.2 subject.
Proof.
  intros Hdoc. cbn zeta. rewrite init_state.
  match goal with |- context [update_weights_with_encoded_names _ _ _ _ _ ?a] =>
    destruct (update_weights_with_encoded_names_run isoformat io_encode
                order_w order_lr order_ri a) as (Hr & Hm & Hk) end.
  { cbn [subject_mapping set_subject_mapping]. apply assign_codes_codes.
    rewrite scan_subjects_mapping, load_weights_mapping.
    cbn [disk reset_store].
    destruct (disk s0) as [| |[| | |d]] eqn:E; try by constructor.
    by apply Hdoc. }
  split; [done|]. split; [done|]. split; [done|].
  intros subject Hs. by apply keys_encoded_unlearned.
Qed.

Lemma start_up_encodes_every_key_witness :
  let learned := {| doc_subject_mapping := [("S000", "maths")]%string;
                    doc_weights := Object {["S000/a.png"%string := Finite 5]};
                    doc_last_reviewed := Object {["S000/a.png"%string := None]};
                    doc_review_intervals := Object {["S000/a.png"%string := Finite 8]} |} in
  let t := [("maths", NDir ["a.png"])]%string in
  let order := ["S000/a.png"; "maths/a.png"]%string in
  let out := init decimal_isoformat decimal_fromisoformat id t Written Written
               order order order
               (set_disk (Holds (Document learned)) empty_state) in
  out.1 = Ok tt ∧ unlearned out.2 "maths".
Proof.
  cbn zeta.
  destruct (start_up_encodes_every_key decimal_isoformat decimal_fromisoformat id
              [("maths", NDir ["a.png"])]%string Written Written
              ["S000/a.png"; "maths/a.png"]%string ["S000/a.png"; "maths/a.png"]%string
              ["S000/a.png"; "maths/a.png"]%string
              (set_disk (Holds (Document
                 {| doc_subject_mapping := [("S000", "maths")]%string;
                    doc_weights := Object {["S000/a.png"%string := Finite 5]};
                    doc_last_reviewed := Object {["S000/a.png"%string := None]};
                    doc_review_intervals := Object {["S000/a.png"%string := Finite 8]} |}))
                 empty_state))
    as (Hr & _ & _ & Hun).
  - intros d [= <-]. by repeat constructor.
  - split; [done|]. by apply Hun.
Defined.

Lemma perform_mapping iso rc op s :
  subject_mapping (perform iso rc op s).2 = subject_mapping s.
Proof.
  destruct op as [now t seed subject count|t subject_name|t io|now io req]; cbn [perform].
  - assert (((select_images_for_review rc now t seed subject count
                ≫= fun images => mret (Images images)) s).2 = s) as ->; [|done].
    apply (readonly_bind _ _ (readonly_select _ _ _ _ _ _)). by intros.
  - assert (((api_get_weights t subject_name
                ≫= fun table => mret (Weights table)) s).2 = s) as ->; [|done].
    apply (readonly_bind _ _ (readonly_api_get_weights _ _)). by intros.
  - unfold mbind, M_bind.
    pose proof (scan_subjects_mapping iso t io s) as Hm.
    destruct (scan_subjects iso t io s) as [[[]|e] s']; by cbn in *.
  - unfold mbind, M_bind. rewrite api_update_weight_run.
    destruct (memory_after_request now req s) as [s'|] eqn:E; [|done].
    cbn [fst snd mret M_ret].
    destruct (save_weights_memory iso io s') as (_ & _ & _ & ->).
    by apply memory_after_request_frame in E as (_ & _ & ->).
Qed.

Lemma encode_key_avoids m image_key subject file :
  startswith_S subject = false → no_slash subject = true →
  codes_start_with_S m → is_Some (find_encoded m subject) →
  encode_key m image_key ≠ image_key_of subject file.
Proof.
  intros Hs Hns Hm [code Hc]. unfold encode_key.
  assert (∀ a b, startswith_S a = true → image_key_of a b ≠ image_key_of subject file)
    as Hstart.
  { intros a b Ha E. apply (f_equal startswith_S) in E.
    rewrite !startswith_S_image_key_of in E. congruence. }
  destruct (split_once image_key) as [[sub f]|] eqn:Es.
  - apply split_once_Some in Es as [-> Hsub].
    destruct (negb (startswith_S sub) || negb (String.length sub =? 4)%nat) eqn:Ec.
    + destruct (find_encoded m sub) as [enc|] eqn:Ef.
      * apply Hstart. by eapply find_encoded_code.
      * intros E. apply image_key_of_inj2 in E as [-> _]; [|done..]. congruence.
    + apply Hstart. apply orb_false_iff in Ec as [Ec _]. by apply negb_false_iff in Ec.
  - intros ->. by rewrite split_once_image_key_of in Es.
Qed.

Lemma perform_unlearned iso rc op s subject :
  startswith_S subject = false → no_slash subject = true →
  codes_start_with_S (subject_mapping s) →
  is_Some (find_encoded (subject_mapping s) subject) →
  ∀ file, item_of (perform iso rc op s).2 (image_key_of subject file)
          = item_of s (image_key_of subject file).
Proof.
  intros Hs Hns Hm Hc file.
  destruct (records_feedback op || bool_decide (is_Some (raw_weight_of op))) eqn:E.
  2:{ apply orb_false_iff in E as [E1 E2].
      apply items_kept_item_of, perform_quiet; [done|].
      apply bool_decide_eq_false in E2. destruct (raw_weight_of op); [|done].
      by destruct E2. }
  destruct op as [| | |now io req]; try done. clear E. cbn [perform].
  unfold mbind, M_bind. rewrite api_update_weight_run.
  unfold memory_after_request.
  destruct (req_image_key req) as [image_key|]; [|done].
  destruct (_ && _); [|done].
  pose proof (encode_key_avoids (subject_mapping s) image_key subject file Hs Hns Hm Hc)
    as Hne.
  set (key := encode_key (subject_mapping s) image_key) in *.
  destruct (truthy (req_familiarity req)).
  - cbn [fst snd mret M_ret].
    match goal with |- context [save_weights iso io ?a] =>
      destruct (save_weights_memory iso io a) as (Hw & Hl & Hi & _) end.
    unfold item_of at 1. rewrite Hw, Hl, Hi. unfold after_feedback.
    destruct (item_of s key) as [[w lr] i].
    cbn [weights last_reviewed review_intervals]. by rewrite !lookup_insert_ne.
  - destruct (req_weight req) as [weight|]; [|done]. cbn [fmap option_fmap option_map].
    cbn [fst snd mret M_ret].
    match goal with |- context [save_weights iso io ?a] =>
      destruct (save_weights_memory iso io a) as (Hw & Hl & Hi & _) end.
    unfold item_of. rewrite Hw, Hl, Hi.
    cbn [weights last_reviewed review_intervals set_weights]. by rewrite lookup_insert_ne.
Qed.

Lemma serve_unlearned iso rc ops subject : ∀ s,
  startswith_S subject = false → no_slash subject = true →
  codes_start_with_S (subject_mapping s) →
  is_Some (find_encoded (subject_mapping s) subject) →
  subject_mapping (serve iso rc ops s) = subject_mapping s
  ∧ ∀ file, item_of (serve iso rc ops s) (image_key_of subject file)
            = item_of s (image_key_of subject file).
Proof.
  induction ops as [|op ops IH]; intros s Hs Hns Hm Hc; [done|].
  unfold serve. cbn [fold_left]. fold (serve iso rc ops (perform iso rc op s).2).
  destruct (IH (perform iso rc op s).2) as [IHm IHi]; [done|done|..].
  - by rewrite perform_mapping.
  - by rewrite perform_mapping.
  - rewrite IHm, perform_mapping. split; [done|].
    intros file. rewrite IHi. by apply perform_unlearned.
Qed.

(** X19.  Requests never teach the selection anything about a directory
    that has a code.  For a directory whose name does not start with
    ['S'], once its images read as never reviewed — as they do after
    start-up — they still do after any sequence of selections, weight
    tables, rescans and feedback requests, whatever keys these carry; and
    a selection for it then returns what it would return over an empty
    store. *)
Theorem requests_never_reach_a_coded_directory
    (isoformat : datetime → string)
    (random_choice : N → nat → Z → list pyfloat → result (list nat))
    (ops : list operation) (s : state) (subject : string) :
  startswith_S subject = false →
  no_slash subject = true →
  codes_start_with_S (subject_mapping s) →
  is_Some (find_encoded (subject_mapping s) subject) →
  unlearned s subject →
  let s' := serve isoformat random_choice ops s in
  unlearned s' subject
  ∧ ∀ now t seed count,
      (select_images_for_review random_choice now t seed subject count s').1
      = (select_images_for_review random_choice now t seed subject count empty_state).1.
Proof.
  intros Hs Hns Hm Hc Hun. cbn zeta.
  destruct (serve_unlearned isoformat random_choice ops subject s Hs Hns Hm Hc) as [_ Hi].
  assert (unlearned (serve isoformat random_choice ops s) subject) as Hun'.
  { intros file. by rewrite Hi. }
  split; [done|]. intros now t seed count. apply select_ext.
  intros file. by rewrite Hun'.
Qed.

Lemma requests_never_reach_a_coded_directory_witness :
  let s := {| weights := ∅; last_reviewed := ∅; review_intervals := ∅;
              subject_mapping := [("S000", "maths")]%string;
              disk := Missing; stdout := [] |} in
  let ops := [Feedback sample_now Written (feedback_request "maths/a.png" "strange");
              Rescan [("maths", NDir ["a.png"])]%string Written;
              Feedback sample_now Written (raw_weight_request "maths/a.png" (Finite 9))] in
  unlearned (serve decimal_isoformat first_fit_choice ops s) "maths".
Proof.
  cbn zeta.
  apply (requests_never_reach_a_coded_directory decimal_isoformat first_fit_choice
           [Feedback sample_now Written (feedback_request "maths/a.png" "strange");
            Rescan [("maths", NDir ["a.png"])]%string Written;
            Feedback sample_now Written (raw_weight_request "maths/a.png" (Finite 9))]
           {| weights := ∅; last_reviewed := ∅; review_intervals := ∅;
              subject_mapping := [("S000", "maths")]%string;
              disk := Missing; stdout := [] |} "maths").
  - reflexivity.
  - reflexivity.
  - by repeat constructor.
  - by eexists.
  - intros file. done.
Defined.

Lemma priorities_unlearned now s subject files :
  unlearned s subject →
  mapM (priority_of now) (map (image_key_of subject) files) s
  = (Ok (map Finite (replicate (length files) 1000000%Q)), s).
Proof.
  intros Hun. induction files as [|file files IH]; [done|].
  cbn [map mapM length replicate]. unfold mbind at 1, M_bind at 1.
  rewrite priority_of_run, (Hun file). cbn [default_item fst snd raw_priority].
  unfold mbind at 1, M_bind at 1. rewrite IH. done.
Qed.

(** X24.  So such a directory is sampled uniformly: when every image of
    the subject reads as never reviewed, each of the [n] images gets the
    priority 1000000 and the probability [1/n], and the selection is what
    the sampler draws from that distribution. *)
Theorem unlearned_directory_is_sampled_uniformly
    (random_choice : N → nat → Z → list pyfloat → result (list nat))
    (now : datetime) (t : tree) (seed : N) (subject : string) (count : Z)
    (s : state) (entries : list string) :
  unlearned s subject →
  entries_of t subject = Ok entries →
  image_keys subject entries ≠ [] →
  ∃ images ps,
    images ≡ₚ image_keys subject entries
    ∧ length ps = length images
    ∧ Forall (fun p => (p == 1 / inject_Z (Z.of_nat (length images)))%Q) ps
    ∧ select_images_for_review random_choice now t seed subject count s
      = (random_choice seed (length images) (Z.min count (Z.of_nat (length images)))
           (map Finite ps) ≫= pick images, s).
Proof.
  intros Hun He Hne. unfold select_images_for_review.
  destruct (get_images_for_subject_run t subject entries s He) as (images & Hrun & Hperm).
  rewrite (bind_run _ _ _ _ _ Hrun).
  assert (∃ files, images = map (image_key_of subject) files) as [files Hfiles].
  { assert (Forall (fun img => ∃ f, img = image_key_of subject f) images) as Hall.
    { rewrite Hperm. unfold image_keys. apply Forall_forall. intros img Himg.
      apply list_elem_of_fmap in Himg as (f & -> & _). by exists f. }
    clear -Hall. induction Hall as [|img images [f ->] _ [files ->]]; [by exists []|].
    by exists (f :: files). }
  assert (images ≠ []) as Hine.
  { intros ->. by apply Permutation_nil_l in Hperm. }
  destruct images as [|img0 images'] eqn:Eimg; [done|]. rewrite <- Eimg in *.
  assert (length files = length images) as Hlen by (by rewrite Hfiles, length_map).
  assert (mapM (priority_of now) images s
          = (Ok (map Finite (replicate (length files) 1000000%Q)), s)) as Hq.
  { rewrite Hfiles. by apply priorities_unlearned. }
  rewrite (bind_run _ _ _ _ _ Hq).
  assert (0 < length images)%nat as Hpos by (rewrite Eimg; cbn; lia).
  assert (Qtotal (replicate (length files) 1000000%Q)
          == inject_Z (Z.of_nat (length files)) * 1000000)%Q as Htotal
    by apply Qtotal_replicate.
  assert (0 < inject_Z (Z.of_nat (length files)))%Q as Hn.
  { change 0%Q with (inject_Z 0). rewrite <- Zlt_Qlt. lia. }
  destruct (normalise_proportional (replicate (length files) 1000000%Q))
    as (ps & Hps & Hprop); [rewrite Htotal; nra|].
  unfold lift at 1. unfold mbind at 1, M_bind at 1. rewrite Hps.
  exists images, ps. split; [done|].
  assert (length ps = length images) as Hpl.
  { rewrite <- (Forall2_length _ _ _ Hprop), length_replicate. done. }
  split; [done|]. split.
  - apply Forall_forall. intros p Hp.
    apply list_elem_of_lookup in Hp as [i Hi].
    destruct (Forall2_lookup_r _ _ _ _ _ Hprop Hi) as (q & Hqi & Hpq).
    apply lookup_replicate in Hqi as [-> _]. rewrite Hpq, Htotal, Hlen. field.
    rewrite <- Hlen. lra.
  - unfold mbind, M_bind, lift.
    by destruct (random_choice _ _ _ _) as [idx|].
Qed.

Lemma unlearned_directory_is_sampled_uniformly_witness :
  ∃ images ps,
    images ≡ₚ image_keys "S001" ["a.png"; "b.JPG"; "notes.txt"; "c.gif"]%string
    ∧ length ps = length images
    ∧ Forall (fun p => (p == 1 / inject_Z (Z.of_nat (length images)))%Q) ps
    ∧ select_images_for_review first_fit_choice sample_now sample_tree 7 "S001" 2 empty_state
      = (first_fit_choice 7 (length images) (Z.min 2 (Z.of_nat (length images)))
           (map Finite ps) ≫= pick images, empty_state).
Proof.
  apply (unlearned_directory_is_sampled_uniformly first_fit_choice sample_now sample_tree 7
           "S001" 2 empty_state ["a.png"; "b.JPG"; "notes.txt"; "c.gif"]%string).
  - by intros file.
  - reflexivity.
  - by vm_compute.
Defined.

(** ** Every directory gets a code *)

Lemma zfill3_value (u : Decimal.uint) :
  Nat.of_uint <$> DecimalString.NilEmpty.uint_of_string
                    (zfill3 (DecimalString.NilZero.string_of_uint u))
  = Some (Nat.of_uint u).
Proof.
  assert (u = Decimal.Nil ∨ DecimalString.NilZero.string_of_uint u
                            = DecimalString.NilEmpty.string_of_uint u) as [->| ->];
    [destruct u; by auto|done|].
  pose proof (DecimalString.NilEmpty.usu u) as Hp.
  unfold zfill3.
  destruct (String.length (DecimalString.NilEmpty.string_of_uint u)) as [|[|[|n]]] eqn:E.
  - destruct (DecimalString.NilEmpty.string_of_uint u); [|done].
    cbn in Hp. by injection Hp as <-.
  - change (Nat.of_uint <$> DecimalString.NilEmpty.uint_of_string
              (String "0" (String "0" (DecimalString.NilEmpty.string_of_uint u)))
            = Some (Nat.of_uint u)).
    cbn [DecimalString.NilEmpty.uint_of_string]. by rewrite Hp.
  - change (Nat.of_uint <$> DecimalString.NilEmpty.uint_of_string
              (String "0" (DecimalString.NilEmpty.string_of_uint u))
            = Some (Nat.of_uint u)).
    cbn [DecimalString.NilEmpty.uint_of_string]. by rewrite Hp.
  - by rewrite Hp.
Qed.

Lemma code_of_value i :
  Nat.of_uint <$> DecimalString.NilEmpty.uint_of_string (tail (code_of i)) = Some i.
Proof.
  unfold code_of. cbn [tail]. rewrite zfill3_value.
  by rewrite DecimalNat.Unsigned.of_to.
Qed.

Lemma code_of_inj i j : code_of i = code_of j → i = j.
Proof.
  intros E. pose proof (code_of_value i) as Hi. rewrite E, code_of_value in Hi.
  by injection Hi.
Qed.

Lemma dict_set_keys {A} (m : list (string * A)) key v :
  map fst (dict_set m key v) = map fst m ∨ map fst (dict_set m key v) = map fst m ++ [key].
Proof.
  induction m as [|[k x] m IH]; cbn [dict_set]; [by right|].
  destruct (String.eqb k key) eqn:E; [by left|].
  cbn [map fst]. destruct IH as [->| ->]; [by left|by right].
Qed.

Lemma dict_set_key_elem_of {A} (m : list (string * A)) key v :
  key ∈ map fst (dict_set m key v).
Proof.
  induction m as [|[k x] m IH]; cbn [dict_set]; [by left|].
  destruct (String.eqb k key) eqn:E.
  - apply String.eqb_eq in E as ->. by left.
  - by right.
Qed.

Lemma dict_set_NoDup {A} (m : list (string * A)) key v :
  NoDup (map fst m) → NoDup (map fst (dict_set m key v)).
Proof.
  induction m as [|[k x] m IH]; cbn [dict_set]; intros Hnd.
  - cbn. apply NoDup_singleton.
  - destruct (String.eqb k key) eqn:E; [done|].
    cbn [map fst] in *. apply NoDup_cons in Hnd as [Hk Hnd].
    apply NoDup_cons. split; [|by apply IH].
    destruct (dict_set_keys m key v) as [->| ->]; [done|].
    rewrite elem_of_app, list_elem_of_singleton. intros [?| ->]; [done|].
    by rewrite String.eqb_refl in E.
Qed.

Lemma dict_set_elem_of {A} (m : list (string * A)) key v : (key, v) ∈ dict_set m key v.
Proof.
  induction m as [|[k x] m IH]; cbn [dict_set]; [by left|].
  destruct (String.eqb k key) eqn:E.
  - apply String.eqb_eq in E as ->. by left.
  - by right.
Qed.

Lemma dict_set_keeps {A} (m : list (string * A)) key v k x :
  k ≠ key → (k, x) ∈ m → (k, x) ∈ dict_set m key v.
Proof.
  intros Hne. induction m as [|[k' x'] m IH]; cbn [dict_set]; intros Hin;
    [by apply elem_of_nil in Hin|].
  destruct (String.eqb k' key) eqn:E.
  - apply String.eqb_eq in E as ->.
    apply elem_of_cons in Hin as [[= -> ->]|Hin]; [done|by right].
  - apply elem_of_cons in Hin as [[= -> ->]|Hin]; [by left|right; by apply IH].
Qed.

Lemma dict_set_length {A} (m : list (string * A)) key v :
  (length m ≤ length (dict_set m key v))%nat.
Proof.
  induction m as [|[k x] m IH]; cbn [dict_set length]; [lia|].
  destruct (String.eqb k key); cbn [length]; lia.
Qed.

Lemma find_encoded_is_Some m code subject :
  (code, subject) ∈ m → is_Some (find_encoded m subject).
Proof.
  induction m as [|[e o] m IH]; intros Hin; [by apply elem_of_nil in Hin|].
  cbn [find_encoded]. destruct (String.eqb o subject) eqn:E; [done|].
  apply elem_of_cons in Hin as [[= -> ->]|Hin]; [by rewrite String.eqb_refl in E|by apply IH].
Qed.

Lemma assign_codes_NoDup subjects : ∀ i m,
  NoDup (map fst m) → NoDup (map fst (assign_codes i subjects m)).
Proof.
  induction subjects as [|x subjects IH]; intros i m Hm; [done|].
  cbn [assign_codes]. by apply IH, dict_set_NoDup.
Qed.

Lemma assign_codes_keeps subjects : ∀ i m k x,
  (∀ j, (i ≤ j)%nat → code_of j ≠ k) → (k, x) ∈ m → (k, x) ∈ assign_codes i subjects m.
Proof.
  induction subjects as [|y subjects IH]; intros i m k x Hk Hin; [done|].
  cbn [assign_codes]. apply IH; [intros j Hj; apply Hk; lia|].
  apply dict_set_keeps; [|done]. intros ->. by apply (Hk i).
Qed.

Lemma assign_codes_elem_of subjects : ∀ i m j x,
  subjects !! j = Some x → (code_of (i + j), x) ∈ assign_codes i subjects m.
Proof.
  induction subjects as [|y subjects IH]; intros i m j x Hj; [done|].
  cbn [assign_codes]. destruct j as [|j]; cbn in Hj.
  - injection Hj as ->. rewrite Nat.add_0_r. apply assign_codes_keeps.
    + intros j Hj E. apply code_of_inj in E. lia.
    + apply dict_set_elem_of.
  - replace (i + S j)%nat with (S i + j)%nat by lia. by apply IH.
Qed.

Lemma encode_subject_name_mapping (P : list (string * string) → Prop) key s :
  (∀ m y, P m → P (dict_set m (code_of (length m)) y)) →
  P (subject_mapping s) → P (subject_mapping (encode_subject_name key s).2).
Proof.
  intros Hstep Hs. unfold encode_subject_name.
  destruct (split_once key) as [[subject filename]|]; [|done].
  destruct (is_code subject); [done|]. run_M.
  destruct (find_encoded (subject_mapping s) subject); [done|]. cbn. by apply Hstep.
Qed.

Lemma reencode_mapping {A} (P : list (string * string) → Prop) (items : list (string * A)) :
  (∀ m y, P m → P (dict_set m (code_of (length m)) y)) →
  ∀ new s, P (subject_mapping s) → P (subject_mapping (reencode items new s).2).
Proof.
  intros Hstep. induction items as [|[key value] items IH]; intros new s Hs; [done|].
  cbn [reencode]. unfold mbind, M_bind.
  pose proof (encode_subject_name_mapping P key s Hstep Hs) as H1.
  destruct (encode_subject_name key s) as [[new_key|e] s1]; cbn [snd] in H1; [|done].
  by apply IH.
Qed.

Lemma update_weights_with_encoded_names_mapping (P : list (string * string) → Prop)
    iso io ow olr ori s :
  (∀ m y, P m → P (dict_set m (code_of (length m)) y)) →
  P (subject_mapping s) →
  P (subject_mapping (update_weights_with_encoded_names iso io ow olr ori s).2).
Proof.
  intros Hstep Hs. unfold update_weights_with_encoded_names.
  unfold mbind at 1, M_bind at 1, gets at 1.
  pose proof (reencode_mapping P (items_in ow (weights s)) Hstep ∅ s Hs) as H1.
  unfold mbind at 1, M_bind at 1.
  destruct (reencode (items_in ow (weights s)) ∅ s) as [[nw|e] s1]; cbn [snd] in H1; [|done].
  unfold mbind at 1, M_bind at 1, gets at 1.
  pose proof (reencode_mapping P (items_in olr (last_reviewed s1)) Hstep ∅ s1 H1) as H2.
  unfold mbind at 1, M_bind at 1.
  destruct (reencode (items_in olr (last_reviewed s1)) ∅ s1) as [[nlr|e] s2];
    cbn [snd] in H2; [|done].
  unfold mbind at 1, M_bind at 1, gets at 1.
  pose proof (reencode_mapping P (items_in ori (review_intervals s2)) Hstep ∅ s2 H2) as H3.
  unfold mbind at 1, M_bind at 1.
  destruct (reencode (items_in ori (review_intervals s2)) ∅ s2) as [[nri|e] s3];
    cbn [snd] in H3; [|done].
  unfold mbind, M_bind, modify. cbn beta iota.
  match goal with |- context [save_weights iso io ?a] =>
    destruct (save_weights_memory iso io a) as (_ & _ & _ & ->) end.
  done.
Qed.

Lemma coded_subjects_step (subjects : list string) (m : list (string * string)) y :
  NoDup (map fst m) ∧ (∀ j x, subjects !! j = Some x → (code_of j, x) ∈ m) →
  NoDup (map fst (dict_set m (code_of (length m)) y))
  ∧ (∀ j x, subjects !! j = Some x → (code_of j, x) ∈ dict_set m (code_of (length m)) y).
Proof.
  intros [Hnd Hin]. split; [by apply dict_set_NoDup|].
  assert (length subjects ≤ length m)%nat as Hlen.
  { assert (length (map code_of (seq 0 (length subjects))) ≤ length (map fst m))%nat as H;
      [|by rewrite !length_map, length_seq in H].
    apply submseteq_length, NoDup_submseteq.
    - apply NoDup_fmap_2; [intros i j; apply code_of_inj|apply NoDup_seq].
    - intros k Hk. apply list_elem_of_fmap in Hk as (j & -> & Hj).
      apply elem_of_seq in Hj. destruct (lookup_lt_is_Some_2 subjects j) as [x Hx]; [lia|].
      apply list_elem_of_fmap. exists (code_of j, x). split; [done|]. by eapply Hin. }
  intros j x Hj. apply dict_set_keeps; [|by eapply Hin].
  intros E. apply code_of_inj in E. apply lookup_lt_Some in Hj. lia.
Qed.

Lemma NoDup_fst_inj {A B} (m : list (A * B)) k x y :
  NoDup (map fst m) → (k, x) ∈ m → (k, y) ∈ m → x = y.
Proof.
  induction m as [|[k' z] m IH]; intros Hnd Hx Hy; [by apply elem_of_nil in Hx|].
  cbn in Hnd. apply NoDup_cons in Hnd as [Hk Hnd].
  apply elem_of_cons in Hx as [[= -> ->]|Hx], Hy as [[= ->]|Hy]; try done.
  - exfalso. apply Hk, list_elem_of_fmap. by exists (k', y).
  - subst. exfalso. apply Hk, list_elem_of_fmap. by exists (k', x).
  - by apply IH.
Qed.

(** X20.  From a weights file whose ["subject_mapping"] is an object, as
    the program writes it, or from a file [load_weights] cannot use,
    start-up gives every directory of [data/] a code: afterwards the
    mapping has one entry per code, the lookup of a directory name finds
    a code, and two names never share one.  (A file whose
    ["subject_mapping"] is [null] or not an object is not among these:
    on it line 83 raises and no directory gets a code.) *)
Theorem every_directory_gets_a_code
    (isoformat : datetime → string) (fromisoformat : string → option datetime)
    (set_order : list string → list string) (t : tree)
    (io_scan io_encode : write_outcome) (order_w order_lr order_ri : list string)
    (s0 : state) :
  set_contract set_order →
  (∀ d, disk s0 = Holds (Document d) → NoDup (map fst (doc_subject_mapping d))) →
  let m := subject_mapping (init isoformat fromisoformat set_order t io_scan io_encode
                              order_w order_lr order_ri s0).2 in
  NoDup (map fst m)
  ∧ (∀ subject entries, (subject, NDir entries) ∈ t → is_Some (find_encoded m subject))
  ∧ (∀ a b code, find_encoded m a = Some code → find_encoded m b = Some code → a = b).
Proof.
  intros Hset Hdoc. cbn zeta. rewrite init_state.
  set (subjects := get_subjects set_order t).
  match goal with |- context [update_weights_with_encoded_names _ _ _ _ _ ?a] =>
    pose proof (update_weights_with_encoded_names_mapping
                  (fun m => NoDup (map fst m)
                            ∧ ∀ j x, subjects !! j = Some x → (code_of j, x) ∈ m)
                  isoformat io_encode order_w order_lr order_ri a
                  (coded_subjects_step subjects)) as [Hnd Hin] end.
  { cbn [subject_mapping set_subject_mapping].
    rewrite scan_subjects_mapping, load_weights_mapping. cbn [disk reset_store].
    split.
    - apply assign_codes_NoDup. destruct (disk s0) as [| |[| | |d]] eqn:E;
        try apply NoDup_nil_2. by apply Hdoc.
    - intros j x Hj. by apply (assign_codes_elem_of subjects 0). }
  split; [done|]. split.
  - intros subject entries Hsub.
    assert (subject ∈ subjects) as Hs.
    { unfold subjects, get_subjects. rewrite (Hset _), elem_of_remove_dups.
      unfold directories. apply list_elem_of_omap. by exists (subject, NDir entries). }
    apply list_elem_of_lookup in Hs as [j Hj].
    eapply find_encoded_is_Some. by eapply Hin.
  - intros a b code Ha Hb. apply find_encoded_elem_of in Ha, Hb.
    by eapply NoDup_fst_inj.
Qed.

Lemma every_directory_gets_a_code_witness :
  let t := [("maths", NDir ["a.png"]); ("physics", NDir []); ("weights.json", NFile)]%string in
  let m := subject_mapping (init decimal_isoformat decimal_fromisoformat remove_dups t
                              Written Written [] [] [] empty_state).2 in
  is_Some (find_encoded m "physics").
Proof.
  cbn zeta.
  refine (proj1 (proj2 (every_directory_gets_a_code decimal_isoformat decimal_fromisoformat
           remove_dups
           [("maths", NDir ["a.png"]); ("physics", NDir []); ("weights.json", NFile)]%string
           Written Written [] [] [] empty_state _ _)) "physics"%string [] _).
  - by intros l.
  - by intros d [=].
  - right. by left.
Defined.

(** ** What a restart does to the items *)

Lemma encode_known key s :
  (∀ sub f, split_once key = Some (sub, f) →
            is_code sub = true ∨ is_Some (find_encoded (subject_mapping s) sub)) →
  ∃ new_key,
    encode_subject_name key s = (Ok new_key, s)
    ∧ (new_key = key
       ∨ ∃ sub f enc, key = image_key_of sub f ∧ no_slash sub = true
                      ∧ find_encoded (subject_mapping s) sub = Some enc
                      ∧ new_key = image_key_of enc f).
Proof.
  intros Hk. unfold encode_subject_name.
  destruct (split_once key) as [[sub f]|] eqn:Es; [|exists key; split; [done|by left]].
  destruct (is_code sub) eqn:Ec; [exists key; split; [done|by left]|].
  destruct (Hk sub f eq_refl) as [?|[enc Henc]]; [congruence|].
  run_M. rewrite Henc. exists (image_key_of enc f). split; [done|]. right.
  apply split_once_Some in Es as [-> ?]. by exists sub, f, enc.
Qed.

Lemma encode_raw_key s subject file code :
  is_code subject = false → no_slash subject = true →
  find_encoded (subject_mapping s) subject = Some code →
  encode_subject_name (image_key_of subject file) s = (Ok (image_key_of code file), s).
Proof.
  intros Hc Hs Hf. unfold encode_subject_name.
  rewrite split_once_image_key_of by done. rewrite Hc. run_M. by rewrite Hf.
Qed.

Lemma codes_without_slash_find m subject code :
  codes_without_slash m → find_encoded m subject = Some code → no_slash code = true.
Proof.
  intros Hm Hf. apply find_encoded_elem_of in Hf.
  unfold codes_without_slash in Hm. rewrite Forall_forall in Hm. by apply (Hm (code, subject)).
Qed.

Lemma encode_misses key s subject file code :
  NoDup (map fst (subject_mapping s)) →
  codes_without_slash (subject_mapping s) →
  find_encoded (subject_mapping s) subject = Some code →
  (∀ sub f, split_once key = Some (sub, f) →
            is_code sub = true ∨ is_Some (find_encoded (subject_mapping s) sub)) →
  key ≠ image_key_of subject file → key ≠ image_key_of code file →
  ∃ new_key, encode_subject_name key s = (Ok new_key, s)
             ∧ new_key ≠ image_key_of code file.
Proof.
  intros Hnd Hslash Hf Hk Hne1 Hne2.
  destruct (encode_known key s Hk) as (new_key & Hrun & [->|Hcase]);
    [by exists key|].
  destruct Hcase as (sub & f & enc & -> & Hsub & Henc & ->).
  exists (image_key_of enc f). split; [done|]. intros E.
  apply image_key_of_inj2 in E as [-> ->];
    [|by eapply codes_without_slash_find..].
  apply find_encoded_elem_of in Hf, Henc.
  by rewrite (NoDup_fst_inj _ _ _ _ Hnd Hf Henc) in Hne1.
Qed.

Lemma reencode_known {A} (items : list (string * A)) s : ∀ new,
  (∀ key sub f, key ∈ map fst items → split_once key = Some (sub, f) →
                is_code sub = true ∨ is_Some (find_encoded (subject_mapping s) sub)) →
  ∃ new', reencode items new s = (Ok new', s).
Proof.
  induction items as [|[key value] items IH]; intros new Hk; [by exists new|].
  cbn [reencode].
  destruct (encode_known key s) as (new_key & Hrun & _).
  { intros sub f. apply Hk. by left. }
  rewrite (bind_run _ _ _ _ _ Hrun). apply IH.
  intros k sub f Hin. apply Hk. by right.
Qed.

Lemma reencode_misses {A} (items : list (string * A)) s subject file code : ∀ new,
  NoDup (map fst (subject_mapping s)) →
  codes_without_slash (subject_mapping s) →
  find_encoded (subject_mapping s) subject = Some code →
  (∀ key sub f, key ∈ map fst items → split_once key = Some (sub, f) →
                is_code sub = true ∨ is_Some (find_encoded (subject_mapping s) sub)) →
  image_key_of subject file ∉ map fst items →
  image_key_of code file ∉ map fst items →
  ∃ new', reencode items new s = (Ok new', s)
          ∧ new' !! image_key_of code file = new !! image_key_of code file.
Proof.
  intros new Hnd Hslash Hf. revert new.
  induction items as [|[key value] items IH]; intros new Hk Hn1 Hn2; [by exists new|].
  cbn [reencode]. cbn [map fst] in Hn1, Hn2.
  apply not_elem_of_cons in Hn1 as [Hn1 Hn1'], Hn2 as [Hn2 Hn2'].
  destruct (encode_misses key s subject file code) as (new_key & Hrun & Hne); try done.
  { intros sub f. apply Hk. by left. }
  rewrite (bind_run _ _ _ _ _ Hrun).
  destruct (IH (<[new_key := value]> new)) as (new' & Hrun' & Hl); try done.
  { intros k sub f Hin. apply Hk. by right. }
  exists new'. split; [done|]. rewrite Hl. by rewrite lookup_insert_ne.
Qed.

Lemma items_in_keys {A} (order : list string) (d : gmap string A) key :
  key ∈ map fst (items_in order d) → key ∈ order.
Proof.
  intros H. apply list_elem_of_fmap in H as ([k v] & -> & H).
  apply list_elem_of_omap in H as (k' & Hk' & E).
  destruct (d !! k'); [|done]. cbn in E. by injection E as -> ->.
Qed.

Lemma reencode_overwrites {A} (d : gmap string A) (order : list string) s
    subject file code v :
  NoDup (map fst (subject_mapping s)) →
  codes_without_slash (subject_mapping s) →
  find_encoded (subject_mapping s) subject = Some code →
  is_code subject = false → no_slash subject = true →
  raw_key_after_code (subject_mapping s) order subject file code →
  d !! image_key_of subject file = Some v →
  ∃ new', reencode (items_in order d) ∅ s = (Ok new', s)
          ∧ new' !! image_key_of code file = Some v.
Proof.
  intros Hnd Hslash Hf Hc Hs (before & after & -> & Hn1 & Hn2 & Hk) Hv.
  unfold items_in. rewrite omap_app. cbn [omap list_omap]. rewrite Hv. cbn [fmap option_fmap option_map].
  fold (items_in before d). fold (items_in after d).
  generalize (∅ : gmap string A). 
  assert (∀ key sub f, key ∈ before → split_once key = Some (sub, f) →
            is_code sub = true ∨ is_Some (find_encoded (subject_mapping s) sub)) as Hkb.
  { intros key sub f Hin. apply Hk. apply elem_of_app. by left. }
  assert (∀ key sub f, key ∈ after → split_once key = Some (sub, f) →
            is_code sub = true ∨ is_Some (find_encoded (subject_mapping s) sub)) as Hka.
  { intros key sub f Hin. apply Hk. apply elem_of_app. right. by right. }
  clear Hk. induction before as [|k before IH]; intros new.
  - cbn [items_in omap list_omap app reencode].
    rewrite (bind_run _ _ _ _ _ (encode_raw_key s subject file code Hc Hs Hf)).
    destruct (reencode_misses (items_in after d) s subject file code
                (<[image_key_of code file := v]> new)) as (new' & Hrun & Hl); try done.
    + intros key sub f Hin. apply Hka. by eapply items_in_keys.
    + intros Hin. by apply Hn1, (items_in_keys after d).
    + intros Hin. by apply Hn2, (items_in_keys after d).
    + exists new'. split; [done|]. by rewrite Hl, lookup_insert_eq.
  - unfold items_in at 1. cbn [omap list_omap]. fold (items_in before d).
    destruct (d !! k) as [x|]; cbn [fmap option_fmap option_map].
    + cbn [app reencode].
      destruct (encode_known k s) as (new_key & Hrun & _).
      { intros sub f. apply Hkb. by left. }
      rewrite (bind_run _ _ _ _ _ Hrun). apply IH.
      intros key sub f Hin. apply Hkb. by right.
    + apply IH. intros key sub f Hin. apply Hkb. by right.
Qed.

Lemma update_overwrites_state iso io order_w order_lr order_ri s subject file code w lr i :
  NoDup (map fst (subject_mapping s)) →
  codes_without_slash (subject_mapping s) →
  find_encoded (subject_mapping s) subject = Some code →
  is_code subject = false →
  no_slash subject = true →
  raw_key_after_code (subject_mapping s) order_w subject file code →
  raw_key_after_code (subject_mapping s) order_lr subject file code →
  raw_key_after_code (subject_mapping s) order_ri subject file code →
  weights s !! image_key_of subject file = Some w →
  last_reviewed s !! image_key_of subject file = Some lr →
  review_intervals s !! image_key_of subject file = Some i →
  ∃ nw nlr nri,
    update_weights_with_encoded_names iso io order_w order_lr order_ri s
    = save_weights iso io
        (set_review_intervals (fun _ => nri)
           (set_last_reviewed (fun _ => nlr) (set_weights (fun _ => nw) s)))
    ∧ nw !! image_key_of code file = Some w
    ∧ nlr !! image_key_of code file = Some lr
    ∧ nri !! image_key_of code file = Some i.
Proof.
  intros Hnd Hslash Hf Hc Hs Hw Hl Hi Ew El Ei.
  unfold update_weights_with_encoded_names.
  unfold mbind at 1, M_bind at 1, gets at 1.
  destruct (reencode_overwrites (weights s) order_w s subject file code w)
    as (nw & Hrun1 & Hnw); try done.
  rewrite (bind_run _ _ _ _ _ Hrun1).
  unfold mbind at 1, M_bind at 1, gets at 1.
  destruct (reencode_overwrites (last_reviewed s) order_lr s subject file code lr)
    as (nlr & Hrun2 & Hnlr); try done.
  rewrite (bind_run _ _ _ _ _ Hrun2).
  unfold mbind at 1, M_bind at 1, gets at 1.
  destruct (reencode_overwrites (review_intervals s) order_ri s subject file code i)
    as (nri & Hrun3 & Hnri); try done.
  rewrite (bind_run _ _ _ _ _ Hrun3).
  by exists nw, nlr, nri.
Qed.

Lemma update_overwrites iso io order_w order_lr order_ri s subject file code :
  NoDup (map fst (subject_mapping s)) →
  codes_without_slash (subject_mapping s) →
  find_encoded (subject_mapping s) subject = Some code →
  is_code subject = false →
  no_slash subject = true →
  raw_key_after_code (subject_mapping s) order_w subject file code →
  raw_key_after_code (subject_mapping s) order_lr subject file code →
  raw_key_after_code (subject_mapping s) order_ri subject file code →
  registered s (image_key_of subject file) →
  let out := update_weights_with_encoded_names iso io order_w order_lr order_ri s in
  out.1 = Ok tt
  ∧ subject_mapping out.2 = subject_mapping s
  ∧ item_of out.2 (image_key_of code file) = item_of s (image_key_of subject file).
Proof.
  intros Hnd Hslash Hf Hc Hs Hw Hl Hi ([w Ew] & [lr El] & [i Ei]). cbn zeta.
  destruct (update_overwrites_state iso io order_w order_lr order_ri s subject file
              code w lr i) as (nw & nlr & nri & -> & Hnw & Hnlr & Hnri); try done.
  match goal with |- context [save_weights iso io ?a] =>
    pose proof (save_weights_memory iso io a) as (Hw' & Hl' & Hi' & Hm');
    pose proof (save_weights_returns iso io a) as Hr;
    destruct (save_weights iso io a) as [r s'] end.
  cbn [fst snd weights last_reviewed review_intervals set_weights set_last_reviewed
       set_review_intervals] in *. subst r.
  split; [done|]. split; [done|].
  unfold item_of. by rewrite Hw', Hl', Hi', Hnw, Hnlr, Hnri, Ew, El, Ei.
Qed.

(** X21.  Re-encoding lets the raw key win.  When the key [subject/file]
    of a directory that has a code is iterated after the key [code/file],
    the three entries stored under [code/file] are replaced by the ones
    under [subject/file]: what was learned under the code is gone from
    memory, and from the file that is then written. *)
Theorem reencoding_overwrites_the_coded_item
    (isoformat : datetime → string) (io : write_outcome)
    (order_w order_lr order_ri : list string) (s : state)
    (subject file code : string) :
  NoDup (map fst (subject_mapping s)) →
  codes_without_slash (subject_mapping s) →
  find_encoded (subject_mapping s) subject = Some code →
  is_code subject = false →
  no_slash subject = true →
  raw_key_after_code (subject_mapping s) order_w subject file code →
  raw_key_after_code (subject_mapping s) order_lr subject file code →
  raw_key_after_code (subject_mapping s) order_ri subject file code →
  registered s (image_key_of subject file) →
  let out := update_weights_with_encoded_names isoformat io order_w order_lr order_ri s in
  out.1 = Ok tt
  ∧ item_of out.2 (image_key_of code file) = item_of s (image_key_of subject file).
Proof.
  intros Hnd Hslash Hf Hc Hs Hw Hl Hi Hreg.
  destruct (update_overwrites isoformat io order_w order_lr order_ri s subject file code)
    as (Hr & _ & Hitem); done.
Qed.

Lemma reencoding_overwrites_the_coded_item_witness :
  let s := {| weights := <["S000/a.png" := Finite 0.2]> {["maths/a.png" := Finite 1]};
              last_reviewed := <["S000/a.png" := At sample_now]> {["maths/a.png" := Never]};
              review_intervals := <["S000/a.png" := Finite 16]> {["maths/a.png" := Finite 1]};
              subject_mapping := [("S000", "maths")]%string;
              disk := Missing; stdout := [] |} in
  let order := ["S000/a.png"; "maths/a.png"]%string in
  let out := update_weights_with_encoded_names decimal_isoformat Written order order order s in
  item_of s "S000/a.png" = (Finite 0.2, At sample_now, Finite 16)
  ∧ item_of out.2 "S000/a.png" = (Finite 1, Never, Finite 1).
Proof.
  cbn zeta. split; [by vm_compute|].
  assert (raw_key_after_code [("S000", "maths")]%string
            ["S000/a.png"; "maths/a.png"]%string "maths" "a.png" "S000") as Horder.
  { exists ["S000/a.png"%string], []. split; [done|].
    split; [apply not_elem_of_nil|]. split; [apply not_elem_of_nil|].
    intros key sub f Hin Hsplit.
    apply elem_of_cons in Hin as [->|Hin]; [left; by injection Hsplit as <- <-|].
    apply list_elem_of_singleton in Hin as ->. right. injection Hsplit as <- <-. by eexists. }
  refine (eq_trans (proj2
    (reencoding_overwrites_the_coded_item decimal_isoformat Written
       ["S000/a.png"; "maths/a.png"]%string ["S000/a.png"; "maths/a.png"]%string
       ["S000/a.png"; "maths/a.png"]%string
       {| weights := <["S000/a.png" := Finite 0.2]> {["maths/a.png" := Finite 1]};
          last_reviewed := <["S000/a.png" := At sample_now]> {["maths/a.png" := Never]};
          review_intervals := <["S000/a.png" := Finite 16]> {["maths/a.png" := Finite 1]};
          subject_mapping := [("S000", "maths")]%string;
          disk := Missing; stdout := [] |}
       "maths" "a.png" "S000" _ _ eq_refl eq_refl eq_refl Horder Horder Horder _)) _).
  - apply (bool_decide_unpack (NoDup _)). by vm_compute.
  - by repeat constructor.
  - split; [|split]; apply (bool_decide_unpack (is_Some _)); by vm_compute.
  - by vm_compute.
Defined.

Lemma no_slash_digits (u : Decimal.uint) :
  no_slash (DecimalString.NilEmpty.string_of_uint u) = true.
Proof. induction u; cbn; auto. Qed.

Lemma no_slash_zfill3 s : no_slash s = true → no_slash (zfill3 s) = true.
Proof.
  intros Hs. unfold zfill3. destruct (String.length s) as [|[|[|n]]]; [done| | |done].
  - by change (no_slash (String "0" (String "0" s)) = true).
  - by change (no_slash (String "0" s) = true).
Qed.

Lemma no_slash_code_of i : no_slash (code_of i) = true.
Proof.
  unfold code_of. change (no_slash (zfill3 (DecimalString.NilZero.string_of_uint
                                              (Nat.to_uint i))) = true).
  apply no_slash_zfill3. destruct (Nat.to_uint i); try done; apply (no_slash_digits (_ u)).
Qed.

Lemma dict_set_without_slash m code subject :
  no_slash code = true → codes_without_slash m → codes_without_slash (dict_set m code subject).
Proof.
  intros Hc. unfold codes_without_slash.
  induction m as [|[k x] m IH]; intros Hm; cbn [dict_set].
  - by repeat constructor.
  - apply Forall_cons in Hm as [Hk Hm].
    destruct (String.eqb k code); constructor; auto.
Qed.

Lemma assign_codes_without_slash subjects : ∀ i m,
  codes_without_slash m → codes_without_slash (assign_codes i subjects m).
Proof.
  induction subjects as [|x subjects IH]; intros i m Hm; [done|].
  cbn [assign_codes]. apply IH, dict_set_without_slash; [apply no_slash_code_of|done].
Qed.

Lemma scanned_keys_inv t key :
  key ∈ scanned_keys t →
  ∃ dir entries file, (dir, NDir entries) ∈ t ∧ file ∈ entries ∧ key = image_key_of dir file.
Proof.
  unfold scanned_keys. intros H. apply list_elem_of_In, in_concat in H as (l & Hl & Hk).
  apply in_map_iff in Hl as ([dir [|entries]] & <- & Hin); cbn in Hk; [done|].
  apply in_map_iff in Hk as (file & <- & Hf).
  exists dir, entries, file. split; [by apply list_elem_of_In|]. split; [by apply list_elem_of_In|done].
Qed.

Lemma directories_elem_of t dir entries : (dir, NDir entries) ∈ t → dir ∈ directories t.
Proof. intros H. apply list_elem_of_omap. by exists (dir, NDir entries). Qed.

Lemma startup_order_raw_key_after_code m loaded t subject entries file code :
  (∀ key sub f, key ∈ loaded → split_once key = Some (sub, f) → is_code sub = true) →
  (∀ dir, dir ∈ directories t →
          startswith_S dir = false ∧ no_slash dir = true ∧ is_Some (find_encoded m dir)) →
  startswith_S code = true →
  (subject, NDir entries) ∈ t → file ∈ entries →
  raw_key_after_code m (startup_order loaded t) subject file code.
Proof.
  intros Hloaded Hdirs Hcode Hsub Hfile.
  destruct (Hdirs subject (directories_elem_of _ _ _ Hsub)) as (Hs & Hns & _).
  assert (is_code subject = false) as Hc by (unfold is_code; by rewrite Hs).
  assert (image_key_of subject file ∉ loaded) as Hnl.
  { intros Hin.
    pose proof (Hloaded _ subject file Hin (split_once_image_key_of _ _ Hns)). congruence. }
  set (new := remove_dups (filter (fun key => key ∉ loaded) (scanned_keys t))).
  assert (image_key_of subject file ∈ new) as Hin.
  { apply elem_of_remove_dups, list_elem_of_filter. split; [done|].
    by eapply scanned_keys_elem_of. }
  assert (NoDup new) as Hnd by apply NoDup_remove_dups.
  apply list_elem_of_split in Hin as (pre & post & Hnew).
  exists (loaded ++ pre), post. split.
  { unfold startup_order. fold new. by rewrite Hnew, <- app_assoc. }
  rewrite Hnew in Hnd. apply NoDup_app in Hnd as (_ & _ & Hnd).
  apply NoDup_cons in Hnd as [Hnp _]. split; [done|].
  assert (∀ key, key ∈ new → key ∈ scanned_keys t) as Hscanned.
  { intros key Hk. apply elem_of_remove_dups, list_elem_of_filter in Hk. tauto. }
  split.
  - intros Hk. assert (image_key_of code file ∈ new) as Hk'.
    { rewrite Hnew. apply elem_of_app. right. by right. }
    apply Hscanned, scanned_keys_inv in Hk' as (dir & es & f & Hdir & _ & E).
    destruct (Hdirs dir (directories_elem_of _ _ _ Hdir)) as (Hd & _ & _).
    apply (f_equal startswith_S) in E. rewrite !startswith_S_image_key_of in E. congruence.
  - intros key sub f Hk Hsplit. unfold startup_order in Hk.
    apply elem_of_app in Hk as [Hk|Hk]; [left; by eapply Hloaded|]. right.
    apply Hscanned, scanned_keys_inv in Hk as (dir & es & f' & Hdir & _ & ->).
    destruct (Hdirs dir (directories_elem_of _ _ _ Hdir)) as (_ & Hdn & Hdc).
    rewrite split_once_image_key_of in Hsplit by done. by injection Hsplit as <- _.
Qed.

Lemma scan_subjects_registers iso t io s dir entries file :
  (dir, NDir entries) ∈ t → file ∈ entries →
  registered (scan_subjects iso t io s).2 (image_key_of dir file).
Proof.
  intros Hd Hf. rewrite scan_subjects_state.
  match goal with |- context [save_weights iso io ?a] =>
    destruct (save_weights_memory iso io a) as (Hw & Hl & Hi & _) end.
  unfold registered. rewrite Hw, Hl, Hi.
  apply scan_registers. by eapply scanned_keys_elem_of.
Qed.

Lemma scan_subjects_item_of iso t io s key :
  item_of (scan_subjects iso t io s).2 key = item_of s key.
Proof.
  rewrite scan_subjects_state. apply items_kept_item_of.
  eapply items_kept_trans; [apply items_kept_scan|apply items_kept_save].
Qed.

(** X22.  A restart forgets what was learned.  Take a file as the program
    writes it — every key under a code, one entry per code, the codes
    starting with ['S'] and free of ['/'] — and a [data/] directory whose
    sub-directories have names that do not start with ['S'].  Then
    start-up completes, and every file found in a sub-directory reads,
    under the code of that sub-directory, as never reviewed with the
    default weight and interval, whatever the file held for it. *)
Theorem a_restart_forgets_what_was_learned
    (isoformat : datetime → string) (fromisoformat : string → option datetime)
    (set_order : list string → list string) (t : tree)
    (io_scan io_encode : write_outcome) (loaded_w loaded_lr loaded_ri : list string)
    (s0 : state) (subject file : string) (entries : list string) :
  let s1 := (load_weights fromisoformat (reset_store s0)).2 in
  set_contract set_order →
  NoDup (map fst (subject_mapping s1)) →
  codes_start_with_S (subject_mapping s1) →
  codes_without_slash (subject_mapping s1) →
  keys_coded s1 →
  enumerates loaded_w (weights s1) →
  enumerates loaded_lr (last_reviewed s1) →
  enumerates loaded_ri (review_intervals s1) →
  (∀ dir, dir ∈ directories t → startswith_S dir = false ∧ no_slash dir = true) →
  (subject, NDir entries) ∈ t →
  file ∈ entries →
  let out := init isoformat fromisoformat set_order t io_scan io_encode
               (startup_order loaded_w t) (startup_order loaded_lr t)
               (startup_order loaded_ri t) s0 in
  out.1 = Ok tt
  ∧ ∃ code, find_encoded (subject_mapping out.2) subject = Some code
            ∧ item_of out.2 (image_key_of code file) = default_item.
Proof.
  intros s1 Hset Hnd Hstart Hslash Hcoded Hw Hl Hi Hdirs Hsub Hfile. cbn zeta.
  rewrite init_state. fold s1.
  set (s2 := (scan_subjects isoformat t io_scan s1).2).
  set (m := assign_codes 0 (get_subjects set_order t) (subject_mapping s2)).
  assert (subject_mapping s2 = subject_mapping s1) as Hm2 by apply scan_subjects_mapping.
  assert (∀ dir, dir ∈ directories t →
            startswith_S dir = false ∧ no_slash dir = true ∧ is_Some (find_encoded m dir))
    as Hdirs'.
  { intros dir Hdir. destruct (Hdirs dir Hdir) as [? ?]. split; [done|]. split; [done|].
    assert (dir ∈ get_subjects set_order t) as Hin.
    { unfold get_subjects. by rewrite (Hset _), elem_of_remove_dups. }
    apply list_elem_of_lookup in Hin as [j Hj].
    eapply find_encoded_is_Some. by apply (assign_codes_elem_of _ 0 _ j). }
  destruct (Hdirs' subject (directories_elem_of _ _ _ Hsub)) as (Hs & Hns & [code Hcode]).
  assert (codes_start_with_S m) as Hstart'.
  { apply assign_codes_codes. by rewrite Hm2. }
  assert (startswith_S code = true) as Hcs by by eapply find_encoded_code.
  assert (is_code subject = false) as Hc by (unfold is_code; by rewrite Hs).
  assert (∀ (A : Type) (d : gmap string A) loaded,
            enumerates loaded d →
            (∀ key, is_Some (d !! key) →
                    is_Some (weights s1 !! key) ∨ is_Some (last_reviewed s1 !! key)
                    ∨ is_Some (review_intervals s1 !! key)) →
            raw_key_after_code m (startup_order loaded t) subject file code) as Horder.
  { intros A d loaded [_ Hen] Hd.
    eapply startup_order_raw_key_after_code; try done.
    intros key sub f Hin. apply (Hcoded key sub f). by apply Hd, Hen. }
  destruct (update_overwrites isoformat io_encode
              (startup_order loaded_w t) (startup_order loaded_lr t)
              (startup_order loaded_ri t)
              (set_subject_mapping (assign_codes 0 (get_subjects set_order t)) s2)
              subject file code)
    as (Hr & Hmap & Hitem); cbn [subject_mapping set_subject_mapping]; fold m; try done.
  - apply assign_codes_NoDup. by rewrite Hm2.
  - apply assign_codes_without_slash. by rewrite Hm2.
  - apply (Horder _ (weights s1)); auto.
  - apply (Horder _ (last_reviewed s1)); auto.
  - apply (Horder _ (review_intervals s1)); auto.
  - by apply (scan_subjects_registers isoformat t io_scan s1 subject entries file).
  - split; [done|]. exists code. split; [by rewrite Hmap|].
    rewrite Hitem.
    change (item_of s2 (image_key_of subject file) = default_item).
    unfold s2. rewrite scan_subjects_item_of.
    assert (∀ sub f, split_once (image_key_of subject file) = Some (sub, f) →
                     is_code sub = false) as Hraw.
    { intros sub f. rewrite split_once_image_key_of by done. by intros [= <- _]. }
    unfold item_of, default_item.
    destruct (weights s1 !! image_key_of subject file) eqn:Ew.
    { pose proof (Hcoded (image_key_of subject file) subject file) as H.
      rewrite Ew in H. rewrite H in Hc; [done|by left|by apply split_once_image_key_of]. }
    destruct (last_reviewed s1 !! image_key_of subject file) eqn:El.
    { pose proof (Hcoded (image_key_of subject file) subject file) as H.
      rewrite El in H. rewrite H in Hc; [done|right; by left|by apply split_once_image_key_of]. }
    destruct (review_intervals s1 !! image_key_of subject file) eqn:Ei.
    { pose proof (Hcoded (image_key_of subject file) subject file) as H.
      rewrite Ei in H. rewrite H in Hc; [done|right; by right|by apply split_once_image_key_of]. }
    done.
Qed.

Lemma a_restart_forgets_what_was_learned_witness :
  let learned := {| doc_subject_mapping := [("S000", "maths")]%string;
                    doc_weights := Object {["S000/a.png"%string := Finite 0.2]};
                    doc_last_reviewed := Object {["S000/a.png"%string := None]};
                    doc_review_intervals := Object {["S000/a.png"%string := Finite 16]} |} in
  let t := [("maths", NDir ["a.png"])]%string in
  let loaded := ["S000/a.png"]%string in
  let out := init decimal_isoformat decimal_fromisoformat remove_dups t Written Written
               (startup_order loaded t) (startup_order loaded t) (startup_order loaded t)
               (set_disk (Holds (Document learned)) empty_state) in
  out.1 = Ok tt
  ∧ ∃ code, find_encoded (subject_mapping out.2) "maths" = Some code
            ∧ item_of out.2 (image_key_of code "a.png") = default_item.
Proof.
  cbn zeta.
  assert (∀ (A : Type) (v : A) key,
            is_Some (({["S000/a.png"%string := v]} : gmap string A) !! key) →
            key = "S000/a.png"%string) as Hkey.
  { intros A v key [x Hx]. by apply lookup_singleton_Some in Hx as [<- _]. }
  assert (∀ (A : Type) (v : A),
            enumerates ["S000/a.png"%string]
              ({["S000/a.png"%string := v]} : gmap string A)) as Henum.
  { intros A v. split; [apply NoDup_singleton|]. intros key.
    rewrite list_elem_of_singleton. split; [intros ->; by rewrite lookup_singleton_eq|].
    apply Hkey. }
  apply (a_restart_forgets_what_was_learned decimal_isoformat decimal_fromisoformat
           remove_dups [("maths", NDir ["a.png"])]%string Written Written
           ["S000/a.png"]%string ["S000/a.png"]%string ["S000/a.png"]%string
           (set_disk (Holds (Document
              {| doc_subject_mapping := [("S000", "maths")]%string;
                 doc_weights := Object {["S000/a.png"%string := Finite 0.2]};
                 doc_last_reviewed := Object {["S000/a.png"%string := None]};
                 doc_review_intervals := Object {["S000/a.png"%string := Finite 16]} |}))
              empty_state)
           "maths" "a.png" ["a.png"]%string).
  - by intros l.
  - apply (bool_decide_unpack (NoDup _)). by vm_compute.
  - by repeat constructor.
  - by repeat constructor.
  - intros key sub f Hin Hsplit.
    assert (key = "S000/a.png"%string) as ->.
    { destruct Hin as [H|[H|H]].
      - by apply (Hkey _ (Finite 0.2)).
      - apply (Hkey _ Never). revert H.
        match goal with |- is_Some (?m !! _) → _ =>
          assert (m = {["S000/a.png"%string := Never]}) as -> by by vm_compute end.
        done.
      - by apply (Hkey _ (Finite 16)). }
    by injection Hsplit as <- <-.
  - apply Henum.
  - match goal with |- enumerates _ ?m =>
      assert (m = {["S000/a.png"%string := Never]}) as -> by by vm_compute end.
    apply Henum.
  - apply Henum.
  - intros dir Hdir. apply list_elem_of_singleton in Hdir as ->. done.
  - by left.
  - by left.
Defined.

(** ** The statistics *)

Lemma average_run x n : ∃ a, average x n = Ok a.
Proof.
  unfold average. destruct (0 <? n)%nat eqn:E; [|by eexists].
  apply Nat.ltb_lt in E. rewrite py_div_nonzero; [by eexists|].
  unfold of_Z. cbn [is_zero]. apply not_true_iff_false. rewrite Qeq_bool_iff.
  unfold Qeq. cbn. lia.
Qed.

Lemma count_file_classifies s subject file l :
  let l' := count_file s subject file l in
  (loop_mastered l' + loop_needs_review l' + loop_strange l'
   = S (loop_mastered l + loop_needs_review l + loop_strange l))%nat.
Proof.
  cbn zeta. unfold count_file. cbn [loop_mastered loop_needs_review loop_strange].
  destruct (_ <? MASTERED_THRESHOLD)%py; cbn [negb andb]; [lia|].
  destruct (_ <? NEEDS_REVIEW_THRESHOLD)%py; cbn [negb andb]; [lia|].
  destruct (_ <? STRANGE_THRESHOLD)%py; lia.
Qed.

Lemma count_files_classify s subject files : ∀ l,
  let l' := fold_left (fun l file => count_file s subject file l) files l in
  (loop_mastered l' + loop_needs_review l' + loop_strange l'
   = loop_mastered l + loop_needs_review l + loop_strange l + length files)%nat.
Proof.
  induction files as [|file files IH]; intros l; cbn zeta; [cbn; lia|].
  cbn [fold_left length]. rewrite IH, count_file_classifies. lia.
Qed.

Lemma get_all_files_run t subject s :
  tree_lookup t (resolve_subject (subject_mapping s) subject).1 ≠ Some NFile →
  ∃ files, get_all_files_for_subject t subject s = (Ok files, s).
Proof.
  intros Hdir. unfold get_all_files_for_subject, listdir, entries_of. run_M.
  destruct (tree_lookup t _) as [[|entries]|]; [done|by eexists..].
Qed.

Lemma count_subject_run t c subject s :
  tree_lookup t (resolve_subject (subject_mapping s) subject).1 ≠ Some NFile →
  ∃ c' n,
    count_subject t c subject s = (Ok c', s)
    ∧ total_files c' = (total_files c + n)%nat
    ∧ total_reviews c' = (total_reviews c + n)%nat
    ∧ pending_count c' = pending_count c
    ∧ (mastered_count c' + needs_review_count c' + strange_count c'
       = mastered_count c + needs_review_count c + strange_count c + n)%nat.
Proof.
  intros Hdir. unfold count_subject.
  destruct (get_all_files_run t subject s Hdir) as (files & Hfiles).
  rewrite (bind_run _ _ _ _ _ Hfiles).
  unfold mbind at 1, M_bind at 1, gets at 1. cbn [id].
  unfold mbind at 1, M_bind at 1, decode_subject_name at 1.
  unfold mbind at 1, M_bind at 1, gets at 1, mret at 1, M_ret at 1.
  set (l := fold_left _ files _).
  destruct (average_run (loop_subject_total_weight l) (length files)) as [a Ha].
  unfold mbind, M_bind, lift. rewrite Ha.
  eexists _, (length files). split; [done|].
  cbn [total_files total_reviews pending_count mastered_count needs_review_count
       strange_count].
  pose proof (count_files_classify s subject files
                {| loop_subject_total_weight := Finite 0;
                   loop_mastered := 0; loop_needs_review := 0; loop_strange := 0;
                   loop_total_weight := total_weight c;
                   loop_weight_count := weight_count c;
                   loop_intervals := intervals c |}) as Hsum.
  cbn zeta in Hsum. fold l in Hsum. cbn [loop_mastered loop_needs_review loop_strange] in Hsum.
  repeat split; lia.
Qed.

Lemma count_subjects_run t subjects : ∀ c s,
  Forall (fun dir => tree_lookup t (resolve_subject (subject_mapping s) dir).1 ≠ Some NFile)
    subjects →
  ∃ c' n,
    count_subjects t subjects c s = (Ok c', s)
    ∧ total_files c' = (total_files c + n)%nat
    ∧ total_reviews c' = (total_reviews c + n)%nat
    ∧ pending_count c' = pending_count c
    ∧ (mastered_count c' + needs_review_count c' + strange_count c'
       = mastered_count c + needs_review_count c + strange_count c + n)%nat.
Proof.
  induction subjects as [|subject subjects IH]; intros c s Hdirs.
  { exists c, 0%nat. cbn. repeat split; lia. }
  apply Forall_cons in Hdirs as [Hdir Hdirs]. cbn [count_subjects].
  destruct (count_subject_run t c subject s Hdir) as (c1 & n1 & Hrun1 & ? & ? & ? & ?).
  rewrite (bind_run _ _ _ _ _ Hrun1).
  destruct (IH c1 s Hdirs) as (c' & n & Hrun & ? & ? & ? & ?).
  exists c', (n1 + n)%nat. split; [done|]. repeat split; lia.
Qed.

(** X23.  The statistics count files, not reviews.  Unless a directory is
    resolved to a plain file of [data/], the handler answers, leaves the
    object as it was, and reports [pending_count = 0] and
    [total_reviews = total_files] whatever was or was not reviewed; every
    file is counted in exactly one of [mastered], [needs_review] and
    [strange]. *)
Theorem statistics_count_files_not_reviews
    (set_order : list string → list string) (t : tree) (s : state) :
  Forall (fun dir => tree_lookup t (resolve_subject (subject_mapping s) dir).1 ≠ Some NFile)
    (get_subjects set_order t) →
  ∃ decoded st,
    api_statistics set_order t s = (Ok (decoded, st), s)
    ∧ decoded = map snd (subject_mapping s)
    ∧ stats_pending_count st = 0%nat
    ∧ stats_total_reviews st = stats_total_files st
    ∧ (stats_mastered_count st + stats_needs_review_count st + stats_strange_count st
       = stats_total_files st)%nat.
Proof.
  intros Hdirs. unfold api_statistics.
  unfold mbind at 1, M_bind at 1, get_decoded_subjects at 1.
  unfold mbind at 1, M_bind at 1, gets at 1, mret at 1, M_ret at 1.
  match goal with |- context [count_subjects t _ ?c0] =>
    destruct (count_subjects_run t (get_subjects set_order t) c0 s Hdirs)
      as (c & n & Hrun & Hfiles & Hreviews & Hpending & Hsum) end.
  rewrite (bind_run _ _ _ _ _ Hrun).
  destruct (average_run (total_weight c) (weight_count c)) as [a Ha].
  destruct (average_run (py_sum (intervals c)) (length (intervals c))) as [b Hb].
  unfold mbind, M_bind, lift. rewrite Ha, Hb.
  eexists _, _. split; [done|]. split; [done|].
  cbn [stats_pending_count stats_total_reviews stats_total_files stats_mastered_count
       stats_needs_review_count stats_strange_count] in *.
  cbn [total_files total_reviews pending_count mastered_count needs_review_count
       strange_count] in *.
  repeat split; lia.
Qed.

Lemma statistics_count_files_not_reviews_witness :
  let t := [("maths", NDir ["a.png"; "b.png"; "notes.txt"])]%string in
  let s := {| weights := <["S000/a.png" := Finite 0.2]> {["S000/b.png" := Finite 5]};
              last_reviewed := ∅;
              review_intervals := ∅;
              subject_mapping := [("S000", "maths")]%string;
              disk := Missing; stdout := [] |} in
  ∃ decoded st,
    api_statistics remove_dups t s = (Ok (decoded, st), s)
    ∧ stats_total_files st = 3%nat
    ∧ stats_total_reviews st = stats_total_files st
    ∧ stats_pending_count st = 0%nat
    ∧ stats_mastered_count st = 1%nat
    ∧ stats_needs_review_count st = 1%nat
    ∧ stats_strange_count st = 1%nat.
Proof.
  cbn zeta.
  destruct (statistics_count_files_not_reviews remove_dups
              [("maths", NDir ["a.png"; "b.png"; "notes.txt"])]%string
              {| weights := <["S000/a.png" := Finite 0.2]> {["S000/b.png" := Finite 5]};
                 last_reviewed := ∅;
                 review_intervals := ∅;
                 subject_mapping := [("S000", "maths")]%string;
                 disk := Missing; stdout := [] |})
    as (decoded & st & Hrun & _ & Hp & Hr & _).
  - unfold get_subjects. cbn. by repeat constructor.
  - exists decoded, st. split; [done|].
    pose proof (f_equal (fun r : result (list string * statistics) * state =>
                           match r.1 with
                           | Ok (_, st) =>
                               (stats_total_files st, stats_mastered_count st,
                                stats_needs_review_count st, stats_strange_count st)
                           | Raise _ => (0, 0, 0, 0)%nat
                           end) Hrun) as Hcount.
    vm_compute in Hcount. injection Hcount as H1 H2 H3 H4.
    split; [symmetry; exact H1|]. split; [exact Hr|]. split; [exact Hp|].
    split; [symmetry; exact H2|]. split; symmetry; [exact H3|exact H4].
Defined.
